(** * gnumeric-py: cells and sheets over an XML tree

    A shallow embedding of [src/cell.py] and [src/sheet.py].  The XML
    elements the two classes wrap are records of an attribute map and an
    optional text; raising code is a computation in an exception monad
    over the sheet's tree.  The Python builtins the two modules call
    ([int], [str], [float], [bool], [max], [min]) are modelled first. *)

From Stdlib Require Import ZArith Lia Ascii String List Bool.
From Stdlib Require Import DecimalString DecimalZ DecimalFacts.
From Stdlib Require SpecFloat.
From Stdlib Require Import Sorted.
From stdpp Require Import base option list gmap strings.

Local Open Scope string_scope.
Local Open Scope Z_scope.

(** ** The Python runtime *)

(** The exceptions the two modules raise themselves or provoke in the
    builtins they call.  The message is kept where the source builds one
    out of program data.  [DetachedElement] is no Python exception: it
    marks the use of a cell whose element is not in the tree, which the
    embedding cannot follow (see [Cell] below). *)
Inductive exn : Type :=
  | IndexError (msg : string)
  | ValueError
  | TypeError
  | AttributeError
  | NotImplementedError (msg : string)
  | UnsupportedOperationException (msg : string)
  | UnrecognizedCellTypeException
  | DetachedElement.

(** A call either returns or raises. *)
Inductive res (A : Type) : Type :=
  | Ret (a : A)
  | Raise (e : exn).
Arguments Ret {A} a.
Arguments Raise {A} e.

#[global] Instance res_ret : MRet res := @Ret.
#[global] Instance res_bind : MBind res := λ A B k r,
  match r with
  | Ret a => k a
  | Raise e => Raise e
  end.
#[global] Instance res_fmap : FMap res := λ A B f r,
  match r with
  | Ret a => Ret (f a)
  | Raise e => Raise e
  end.

(** *** [str] and [int] on integers *)

(** The decimal text of an integer: sign and digits.  This is [str(n)]
    and ['%d' % n] wherever the interpreter converts [n]; the interpreter
    refuses integers of more than [int_max_str_digits] digits, see
    [py_str_int]. *)
Definition str_int (n : Z) : string := NilZero.string_of_int (Z.to_int n).

(** [sys.int_info.default_max_str_digits] *)
Definition int_max_str_digits : Z := 4300.

(** The number of decimal digits of [n], the sign not counted. *)
Definition str_digits (n : Z) : Z := Z.of_nat (String.length (str_int (Z.abs n))).

(** [str(n)] for an [int] a caller hands in: [ValueError] beyond the
    limit on the number of digits. *)
Definition py_str_int (n : Z) : res string :=
  if str_digits n <=? int_max_str_digits then Ret (str_int n) else Raise ValueError.

Definition is_space (a : ascii) : bool :=
  let n := nat_of_ascii a in
  ((9 <=? n)%nat && (n <=? 13)%nat) || ((28 <=? n)%nat && (n <=? 32)%nat).

Definition is_digit (a : ascii) : bool :=
  let n := nat_of_ascii a in (48 <=? n)%nat && (n <=? 57)%nat.

Fixpoint lstrip (s : string) : string :=
  match s with
  | String a s' => if is_space a then lstrip s' else s
  | EmptyString => EmptyString
  end.

Fixpoint rstrip (s : string) : string :=
  match s with
  | String a s' =>
      match rstrip s' with
      | EmptyString => if is_space a then EmptyString else String a EmptyString
      | r => String a r
      end
  | EmptyString => EmptyString
  end.

Definition strip (s : string) : string := rstrip (lstrip s).

(** Digits of an integer literal: single underscores may separate
    digits.  [prev] tells whether the previous character was a digit. *)
Fixpoint literal_digits (prev : bool) (s : string) : option string :=
  match s with
  | EmptyString => if prev then Some EmptyString else None
  | String a s' =>
      if is_digit a then String a <$> literal_digits true s'
      else if Ascii.eqb a "_" then
        if prev then literal_digits false s' else None
      else None
  end.

Definition int_unsigned (s : string) : option Z :=
  d ← literal_digits false s; Z.of_uint <$> NilEmpty.uint_of_string d.

(** [int(s)] for a [str] of ASCII characters: surrounding whitespace, an
    optional sign, decimal digits; [ValueError] otherwise.  The texts
    read this way are attributes and texts of the document.  Left out:
    the digits and spaces of other scripts, which [int] reads as well, by
    the tables of the interpreter's Unicode version, and the limit of
    [int_max_str_digits] digits; the properties that depend on either say
    so in their hypotheses. *)
Definition int_str (s : string) : res Z :=
  let r :=
    match strip s with
    | String "-" s' => Z.opp <$> int_unsigned s'
    | String "+" s' => int_unsigned s'
    | s' => int_unsigned s'
    end in
  match r with Some n => Ret n | None => Raise ValueError end.

(** [int(x)] where [x] is an attribute or text that may be [None]. *)
Definition int_opt (x : option string) : res Z :=
  match x with
  | Some s => int_str s
  | None => Raise TypeError
  end.

(** *** [str] and [float] on floats *)

(** A Python [float] is an IEEE 754 binary64 number. *)
Definition float : Type := SpecFloat.spec_float.
Definition prec : Z := 53.
Definition emax : Z := 1024.

Definition float_eqb (x y : float) : bool :=
  match x, y with
  | SpecFloat.S754_zero a, SpecFloat.S754_zero b => Bool.eqb a b
  | SpecFloat.S754_infinity a, SpecFloat.S754_infinity b => Bool.eqb a b
  | SpecFloat.S754_nan, SpecFloat.S754_nan => true
  | SpecFloat.S754_finite a m e, SpecFloat.S754_finite b n f =>
      Bool.eqb a b && Pos.eqb m n && Z.eqb e f
  | _, _ => false
  end.

(** The float nearest to [d * 10 ^ e10] (ties to even), signed by [neg]. *)
Definition float_of_decimal (neg : bool) (d : Z) (e10 : Z) : float :=
  match d with
  | Zpos p =>
      if 0 <=? e10 then
        match Zpos p * 10 ^ e10 with
        | Zpos m => SpecFloat.binary_round prec emax neg m 0
        | _ => SpecFloat.S754_nan
        end
      else
        SpecFloat.SFdiv prec emax (SpecFloat.S754_finite neg p 0)
          (SpecFloat.S754_finite false (Z.to_pos (10 ^ (- e10))) 0)
  | _ => SpecFloat.S754_zero neg
  end.

(** The longest prefix of digits, single underscores between digits
    skipped, and what follows it. *)
Fixpoint scan_digits (s : string) : string * string :=
  match s with
  | String a s' =>
      if is_digit a then
        match s' with
        | String "_" (String b _ as s'') =>
            if is_digit b then let '(d, r) := scan_digits s'' in (String a d, r)
            else (String a EmptyString, s')
        | _ => let '(d, r) := scan_digits s' in (String a d, r)
        end
      else (EmptyString, s)
  | EmptyString => (EmptyString, EmptyString)
  end.

Definition digits_value (d : string) : Z :=
  default 0 (Z.of_uint <$> NilEmpty.uint_of_string d).

Definition lower_ascii (a : ascii) : ascii :=
  let n := nat_of_ascii a in
  if (65 <=? n)%nat && (n <=? 90)%nat then ascii_of_nat (n + 32) else a.

Definition upper_ascii (a : ascii) : ascii :=
  let n := nat_of_ascii a in
  if (97 <=? n)%nat && (n <=? 122)%nat then ascii_of_nat (n - 32) else a.

Fixpoint string_map (f : ascii → ascii) (s : string) : string :=
  match s with
  | String a s' => String (f a) (string_map f s')
  | EmptyString => EmptyString
  end.

(** [s.lower()] and [s.upper()] *)
Definition lower : string → string := string_map lower_ascii.
Definition upper : string → string := string_map upper_ascii.

(** The exponent part of a float literal: empty, or [e], a sign and
    digits up to the end of the string. *)
Definition scan_exponent (s : string) : option Z :=
  match s with
  | EmptyString => Some 0
  | String c r =>
      if Ascii.eqb (lower_ascii c) "e" then
        let '(neg, r') :=
          match r with
          | String "-" t => (true, t)
          | String "+" t => (false, t)
          | _ => (false, r)
          end in
        match scan_digits r' with
        | (String _ _ as d, EmptyString) =>
            Some (if neg : bool then - digits_value d else digits_value d)
        | _ => None
        end
      else None
  end.

Definition float_unsigned (neg : bool) (s : string) : option float :=
  let l := lower s in
  if String.eqb l "inf" || String.eqb l "infinity" then Some (SpecFloat.S754_infinity neg)
  else if String.eqb l "nan" then Some SpecFloat.S754_nan
  else
    let '(ip, r1) := scan_digits s in
    let '(fp, r2) :=
      match r1 with
      | String "." r => scan_digits r
      | _ => (EmptyString, r1)
      end in
    if String.eqb (ip ++ fp) "" then None
    else
      e ← scan_exponent r2;
      Some (float_of_decimal neg (digits_value (ip ++ fp)) (e - Z.of_nat (String.length fp))).

(** [float(s)] for a [str]. *)
Definition float_str (s : string) : res float :=
  let r :=
    match strip s with
    | String "-" s' => float_unsigned true s'
    | String "+" s' => float_unsigned false s'
    | s' => float_unsigned false s'
    end in
  match r with Some x => Ret x | None => Raise ValueError end.

(** [float(x)] where [x] may be [None]. *)
Definition float_opt (x : option string) : res float :=
  match x with
  | Some s => float_str s
  | None => Raise TypeError
  end.

(** The position of the decimal point of [num / den > 0]: the [p] with
    [10 ^ (p - 1) <= num / den < 10 ^ p]. *)
Definition decimal_point (num den : Z) : Z :=
  if den <=? num then Z.of_nat (String.length (str_int (num / den)))
  else 1 - Z.of_nat (String.length (str_int (den / num))).

Fixpoint strip_zeros (fuel : nat) (d : Z) (e10 : Z) : Z * Z :=
  match fuel with
  | S fuel' => if (d mod 10 =? 0) && (0 <? d) then strip_zeros fuel' (d / 10) (e10 + 1) else (d, e10)
  | O => (d, e10)
  end.

(** The shortest decimal [d * 10 ^ e10] that reads back as the finite
    float [x = m * 2 ^ e], the nearest to [x] among those of its length;
    digit counts are tried in increasing order. *)
Fixpoint shortest_digits (fuel : nat) (n : Z) (x : float) (num den p : Z) : Z * Z :=
  let e10 := p - n in
  let '(lo, rem) :=
    if 0 <=? - e10 then Z.div_eucl (num * 10 ^ (- e10)) den
    else Z.div_eucl num (den * 10 ^ e10) in
  let scale := if 0 <=? - e10 then den else den * 10 ^ e10 in
  let ok d := float_eqb (float_of_decimal false d e10) (SpecFloat.SFabs x) in
  let lo_ok := ok lo in
  let hi_ok := negb (rem =? 0) && ok (lo + 1) in
  let pick :=
    if lo_ok && hi_ok then
      match 2 * rem ?= scale with
      | Lt => Some lo
      | Gt => Some (lo + 1)
      | Eq => Some (if Z.even lo then lo else lo + 1)
      end
    else if lo_ok then Some lo
    else if hi_ok then Some (lo + 1)
    else None in
  match pick, fuel with
  | Some d, _ => strip_zeros 20 d e10
  | None, S fuel' => shortest_digits fuel' (n + 1) x num den p
  | None, O => (lo, e10)
  end.

Definition zeros (n : Z) : string := String.concat "" (repeat "0" (Z.to_nat n)).

Definition str_exponent (e : Z) : string :=
  (if e <? 0 then "-" else "+") ++ (if Z.abs e <? 10 then "0" else "") ++ str_int (Z.abs e).

(** The layout of [repr]: [ds] are the significant digits and [p] the
    position of the decimal point; exponent notation outside
    [1e-4 <= x < 1e16]. *)
Definition float_layout (ds : string) (p : Z) : string :=
  let n := Z.of_nat (String.length ds) in
  if (-4 <? p) && (p <=? 16) then
    if p <=? 0 then "0." ++ zeros (- p) ++ ds
    else if n <=? p then ds ++ zeros (p - n) ++ ".0"
    else substring 0 (Z.to_nat p) ds ++ "." ++ substring (Z.to_nat p) (Z.to_nat (n - p)) ds
  else
    substring 0 1 ds
    ++ (if 1 <? n then "." ++ substring 1 (Z.to_nat (n - 1)) ds else "")
    ++ "e" ++ str_exponent (p - 1).

(** [str(x)] for a [float]: the shortest [repr]. *)
Definition str_float (x : float) : string :=
  match x with
  | SpecFloat.S754_zero s => if s then "-0.0" else "0.0"
  | SpecFloat.S754_infinity s => if s then "-inf" else "inf"
  | SpecFloat.S754_nan => "nan"
  | SpecFloat.S754_finite s m e =>
      let '(num, den) := if 0 <=? e then (Zpos m * 2 ^ e, 1) else (Zpos m, 2 ^ (- e)) in
      let p := decimal_point num den in
      let '(d, e10) := shortest_digits 16 1 x num den p in
      let ds := str_int d in
      (if s then "-" else "") ++ float_layout ds (e10 + Z.of_nat (String.length ds))
  end.

(** [bool(x)] for a [float] *)
Definition float_bool (x : float) : bool :=
  match x with
  | SpecFloat.S754_zero _ => false
  | _ => true
  end.

(** *** Booleans, [max] and [min] *)

(** [str(b)] for a [bool] *)
Definition str_bool (b : bool) : string := if b then "True" else "False".

(** [bool(x)] for a [str] or [None] *)
Definition text_bool (x : option string) : bool :=
  match x with
  | Some (String _ _) => true
  | _ => false
  end.

(** [max(xs)] and [min(xs)]: [ValueError] on an empty sequence. *)
Definition py_max (xs : list Z) : res Z :=
  match xs with
  | [] => Raise ValueError
  | x :: xs' => Ret (foldl Z.max x xs')
  end.

Definition py_min (xs : list Z) : res Z :=
  match xs with
  | [] => Raise ValueError
  | x :: xs' => Ret (foldl Z.min x xs')
  end.

(** ** The element tree (lxml) *)

Module etree.

(** An element as the two classes see it: its attributes and the text
    before its first child.  The [gnm:Cell] elements have no children. *)
Record element : Type := Element {
  attrib : gmap string string;
  text : option string
}.

Definition get (c : element) (k : string) : option string := attrib c !! k.

Definition set (k v : string) (c : element) : element :=
  {| attrib := <[k := v]> (attrib c); text := text c |}.

(** [c.attrib.pop(k)] for a key that is present *)
Definition pop (k : string) (c : element) : element :=
  {| attrib := delete k (attrib c); text := text c |}.

(** The element with [t] as its text.  The assignment [c.text = t],
    which may refuse [t], is [assign_text]. *)
Definition set_text (t : option string) (c : element) : element :=
  {| attrib := attrib c; text := t |}.

(** [xmlIsChar_ch]: the characters below 128 that XML admits. *)
Definition is_xml_char (a : ascii) : bool :=
  let n := nat_of_ascii a in
  ((9 <=? n)%nat && (n <=? 10)%nat) || (n =? 13)%nat || (32 <=? n)%nat.

(** The three bytes encode U+FFFE, U+FFFF or a surrogate. *)
Definition is_forbidden_utf8 (a b c : ascii) : bool :=
  let n := Z.of_nat (nat_of_ascii a) * 65536 + Z.of_nat (nat_of_ascii b) * 256
           + Z.of_nat (nat_of_ascii c) in
  (n =? 15712190) || (n =? 15712191) || ((15573120 <=? n) && (n <=? 15581119)).

(** The strings lxml stores as text, by their UTF-8 encoding: no NUL
    byte, no control character but tab, line feed and carriage return,
    none of the characters XML forbids. *)
Fixpoint xml_compatible (s : string) : bool :=
  match s with
  | EmptyString => true
  | String a s' =>
      (if (nat_of_ascii a <? 128)%nat then is_xml_char a
       else match s' with
            | String b (String c _) => negb (is_forbidden_utf8 a b c)
            | _ => true
            end)
      && xml_compatible s'
  end.

(** The predicates of the path expressions the sheet uses. *)
Inductive predicate : Type :=
  | AttrEq (name value : string)      (* @name="value" *)
  | HasAttr (name : string)           (* @name *)
  | TextLengthEq (n : nat)            (* string-length(text())=n *)
  | Not (p : predicate)
  | And (p q : predicate)
  | Or (p q : predicate).

Fixpoint holds (p : predicate) (c : element) : bool :=
  match p with
  | AttrEq k v => bool_decide (get c k = Some v)
  | HasAttr k => bool_decide (is_Some (get c k))
  | TextLengthEq n => bool_decide (String.length (default "" (text c)) = n)
  | Not q => negb (holds q c)
  | And q r => holds q c && holds r c
  | Or q r => holds q c || holds r c
  end.

(** [parent.xpath('./gnm:Cell[p]')]: the children that satisfy [p],
    in document order. *)
Definition xpath (p : predicate) (children : list element) : list element :=
  List.filter (holds p) children.

(** [parent.find('gnm:Cell[p]')]: the first child that satisfies [p]
    and its position, or [None]. *)
Definition find (p : predicate) (children : list element) : option (nat * element) :=
  list_find (λ c, holds p c = true) children.

End etree.
Import etree.

(** ** cell.py: value types and the read-only properties of a cell

    The properties below read [self.__cell] only, so they are functions
    of the wrapped element. *)

Definition VALUE_TYPE_EXPR : Z := -10.
Definition VALUE_TYPE_EMPTY : Z := 10.
Definition VALUE_TYPE_BOOLEAN : Z := 20.
Definition VALUE_TYPE_INTEGER : Z := 30.
Definition VALUE_TYPE_FLOAT : Z := 40.
Definition VALUE_TYPE_ERROR : Z := 50.
Definition VALUE_TYPE_STRING : Z := 60.
Definition VALUE_TYPE_CELLRANGE : Z := 70.
Definition VALUE_TYPE_ARRAY : Z := 80.

Definition column (c : element) : res Z := int_opt (get c "Col").

Definition row (c : element) : res Z := int_opt (get c "Row").

Definition coordinate (c : element) : res (Z * Z) :=
  r ← row c; k ← column c; mret (r, k).

(** [s.startswith('=')] *)
Definition startswith_eq (s : string) : bool :=
  match s with
  | String "=" _ => true
  | _ => false
  end.

Definition value_type (c : element) : res Z :=
  match get c "ValueType" with
  | Some value_type => int_str value_type
  | None =>
      match get c "ExprID" with
      | Some _ => Ret VALUE_TYPE_EXPR
      | None =>
          match text c with
          | None => Raise AttributeError      (* None has no startswith *)
          | Some t =>
              if startswith_eq t then Ret VALUE_TYPE_EXPR
              else Raise UnrecognizedCellTypeException
          end
      end
  end.

Definition set_type (value_type : Z) (c : element) : element :=
  if value_type =? VALUE_TYPE_EXPR then
    if bool_decide (is_Some (get c "ValueType")) then pop "ValueType" c else c
  else set "ValueType" (str_int value_type) c.

Definition set_expression_id (expr_id : string) (c : element) : element :=
  set "ExprID" expr_id c.

(** ** sheet.py *)

(** What [Sheet.__eq__] compares: the identities of the workbook and of
    the two elements the sheet wraps. *)
Record sheet_ident : Type := SheetIdent {
  workbook_id : nat;
  sheet_name_id : nat;
  sheet_id : nat
}.

#[global] Instance sheet_ident_eq_dec : EqDecision sheet_ident.
Proof. solve_decision. Defined.

(** The part of the document one [Sheet] object reaches. *)
Record Sheet : Type := mkSheet {
  ident : sheet_ident;
  ns_gnm : string;                      (* workbook._ns['gnm'] *)
  sheet_name : gmap string string;      (* attributes of self._sheet_name *)
  cells : list element;                 (* children of gnm:Cells, in document order *)
  MaxCol : option string;               (* text of gnm:MaxCol *)
  MaxRow : option string                (* text of gnm:MaxRow *)
}.

Definition with_cells (l : list element) (s : Sheet) : Sheet :=
  {| ident := ident s; ns_gnm := ns_gnm s; sheet_name := sheet_name s;
     cells := l; MaxCol := MaxCol s; MaxRow := MaxRow s |}.

Definition with_MaxCol (t : option string) (s : Sheet) : Sheet :=
  {| ident := ident s; ns_gnm := ns_gnm s; sheet_name := sheet_name s;
     cells := cells s; MaxCol := t; MaxRow := MaxRow s |}.

Definition with_MaxRow (t : option string) (s : Sheet) : Sheet :=
  {| ident := ident s; ns_gnm := ns_gnm s; sheet_name := sheet_name s;
     cells := cells s; MaxCol := MaxCol s; MaxRow := t |}.

(** Methods that change the tree: the tree after the call comes with
    the outcome, also when the call raises. *)
Definition M (A : Type) : Type := Sheet → res A * Sheet.

#[global] Instance M_ret : MRet M := λ A a s, (Ret a, s).
#[global] Instance M_bind : MBind M := λ A B k m s,
  match m s with
  | (Ret a, s') => k a s'
  | (Raise e, s') => (Raise e, s')
  end.

(** A method that only reads the tree. *)
Definition read {A} (f : Sheet → res A) : M A := λ s, (f s, s).
Definition raise {A} (e : exn) : M A := λ s, (Raise e, s).
Definition modify (f : Sheet → Sheet) : M unit := λ s, (Ret tt, f s).

(** A [Cell] object holds its element by reference; the embedding
    addresses the element by its position among the children of
    [gnm:Cells] of the sheet the cell belongs to. *)
Abbreviation Cell := nat (only parsing).

(** [Cell.__init__(self, cell_element, style_element, worksheet, ns)]
    declares four parameters after [self] and no defaults: a call binds
    them only when it passes four positional arguments. *)
Definition Cell_init (positional : nat) : res unit :=
  if (positional =? 4)%nat then Ret tt else Raise TypeError.

(** The outcome of the call [cell.Cell(x, self)], by which [sheet.py]
    wraps an element wherever it hands out a cell or reads a coordinate.
    The methods of the sheet are embedded over this outcome: [as_written]
    is the one of the sources, and the properties follow the methods past
    a call that returns as well. *)
Class CellCall : Type := Cell_call : res unit.

(** The call as [sheet.py] writes it: two positional arguments. *)
Definition as_written : CellCall := Cell_init 2.

(** A call that passes the style element and the namespace map too. *)
Definition with_four_arguments : CellCall := Cell_init 4.

(** [cell.Cell(x, self)]: the wrapped [x] when the call returns. *)
Definition Cell_of `{CellCall} {A} (x : A) : res A := _ ← Cell_call; Ret x.

Definition NEW_CELL (row col value_type : Z) : element :=
  {| attrib := <["Row" := str_int row]> (<["Col" := str_int col]>
                 (<["ValueType" := str_int value_type]> ∅));
     text := None |}.

Definition EMPTY_CELL_XPATH_SELECTOR : predicate :=
  Or (AttrEq "ValueType" (str_int VALUE_TYPE_EMPTY))
     (And (And (Not (HasAttr "ValueType")) (Not (HasAttr "ExprID"))) (TextLengthEq 0)).

Definition get_cells (s : Sheet) : list element := cells s.

Definition get_empty_cells (s : Sheet) : list element :=
  xpath EMPTY_CELL_XPATH_SELECTOR (get_cells s).

Definition get_non_empty_cells (s : Sheet) : list element :=
  xpath (Not EMPTY_CELL_XPATH_SELECTOR) (get_cells s).

Definition get_expression_id_cells (s : Sheet) : list element :=
  xpath (HasAttr "ExprID") (get_cells s).

Definition create_and_get_new_cell (row_idx col_idx : Z) : M Cell := λ s,
  let new_cell := NEW_CELL row_idx col_idx VALUE_TYPE_EMPTY in
  (Ret (length (cells s)), with_cells (cells s ++ [new_cell]) s).

Definition SHEET_TYPE_OBJECT : string := "object".

(** The key of a namespaced attribute, ['{%s}Name' % ns]. *)
Definition qualified (s : Sheet) (name : string) : string :=
  "{" ++ ns_gnm s ++ "}" ++ name.

Definition sheet_type (s : Sheet) : option string :=
  sheet_name s !! qualified s "SheetType".

Definition is_object (s : Sheet) : bool :=
  bool_decide (sheet_type s = Some SHEET_TYPE_OBJECT).

Section sheet_methods.
Context `{CellCall}.

Definition max_column (s : Sheet) : res Z :=
  if is_object s then
    Raise (UnsupportedOperationException "Chartsheet does not have max column")
  else
    let content_cells := get_non_empty_cells s in
    if (length content_cells =? 0)%nat then Ret (-1)
    else mapM (λ c, Cell_of c ≫= column) content_cells ≫= py_max.

Definition max_allowed_column (s : Sheet) : res Z :=
  n ← int_opt (sheet_name s !! qualified s "Cols"); mret (n - 1).

Definition max_row (s : Sheet) : res Z :=
  if is_object s then
    Raise (UnsupportedOperationException "Chartsheet does not have max row")
  else
    let content_cells := get_non_empty_cells s in
    if (length content_cells =? 0)%nat then Ret (-1)
    else mapM (λ c, Cell_of c ≫= row) content_cells ≫= py_max.

Definition max_allowed_row (s : Sheet) : res Z :=
  n ← int_opt (sheet_name s !! qualified s "Rows"); mret (n - 1).

Definition min_column (s : Sheet) : res Z :=
  if is_object s then
    Raise (UnsupportedOperationException "Chartsheet does not have min column")
  else
    let content_cells := get_non_empty_cells s in
    if (length content_cells =? 0)%nat then Ret (-1)
    else mapM (λ c, Cell_of c ≫= column) content_cells ≫= py_min.

Definition min_row (s : Sheet) : res Z :=
  if is_object s then
    Raise (UnsupportedOperationException "Chartsheet does not have min row")
  else
    let content_cells := get_non_empty_cells s in
    if (length content_cells =? 0)%nat then Ret (-1)
    else mapM (λ c, Cell_of c ≫= row) content_cells ≫= py_min.

Definition calculate_dimension (s : Sheet) : res (Z * Z * Z * Z) :=
  if is_object s then
    Raise (UnsupportedOperationException "Chartsheet does not have rows or columns")
  else
    r0 ← min_row s; c0 ← min_column s; r1 ← max_row s; c1 ← max_column s;
    mret (r0, c0, r1, c1).

(** [0 <= column <= self.max_allowed_column]: the bound is read only
    when the first comparison holds. *)
Definition is_valid_column (s : Sheet) (column : Z) : res bool :=
  if 0 <=? column then m ← max_allowed_column s; mret (column <=? m)
  else Ret false.

Definition is_valid_row (s : Sheet) (row : Z) : res bool :=
  if 0 <=? row then m ← max_allowed_row s; mret (row <=? m)
  else Ret false.

(** The indices go into the messages and into the path expression as
    decimal text.  An index within the bounds a sheet declares is within
    the limit of digits; the properties that name the message for an
    index out of bounds take the index within the limit. *)
Definition cell (row_idx col_idx : Z) (create : bool) : M Cell :=
  valid_row ← read (λ s, is_valid_row s row_idx);
  if negb valid_row then
    m ← read max_allowed_row;
    raise (IndexError ("Row (" ++ str_int row_idx
                       ++ ") for cell is out of allowed bounds of [0, " ++ str_int m ++ "]"))
  else
    valid_column ← read (λ s, is_valid_column s col_idx);
    if negb valid_column then
      m ← read max_allowed_column;
      raise (IndexError ("Column (" ++ str_int col_idx
                         ++ ") for cell is out of allowed bounds of [0, " ++ str_int m ++ "]"))
    else
      found ← read (λ s, Ret (find (And (AttrEq "Row" (str_int row_idx))
                                        (AttrEq "Col" (str_int col_idx)))
                                   (get_cells s)));
      cell_found ← match found with
                   | Some (i, _) => mret i
                   | None =>
                       if create then create_and_get_new_cell row_idx col_idx
                       else raise (IndexError ("No cell exists at position ("
                                               ++ str_int row_idx ++ ", "
                                               ++ str_int col_idx ++ ")"))
                   end;
      read (λ _, Cell_of cell_found).

(** A [dict] with [str] keys: the items in insertion order, one per key. *)
Fixpoint dict_set {V} (k : string) (v : V) (d : list (string * V)) : list (string * V) :=
  match d with
  | [] => [(k, v)]
  | (k', v') :: d' => if String.eqb k k' then (k, v) :: d' else (k', v') :: dict_set k v d'
  end.

(** [dict(items)]: a later item replaces the value of an earlier one
    with the same key. *)
Definition dict_of_items {V} (items : list (string * V)) : list (string * V) :=
  foldl (λ d kv, dict_set kv.1 kv.2 d) [] items.

Definition dict_keys {V} (d : list (string * V)) : list string := d.*1.

(** [k in d] *)
Definition dict_in {V} (k : string) (d : list (string * V)) : bool :=
  bool_decide (k ∈ dict_keys d).

(** The comprehension skips the cells without text before it reads
    their attributes; the cells that reach the tuple have an expression
    id and a text, so neither default is taken. *)
Definition get_expression_map (s : Sheet) : res (list (string * ((Z * Z) * string))) :=
  let cells := get_expression_id_cells s in
  items ← mapM (λ c, r ← row c; k ← column c;
                     mret (default "" (get c "ExprID"), ((r, k), default "" (text c))))
               (List.filter (λ c, bool_decide (text c ≠ None)) cells);
  mret (dict_of_items items).

(** [all_cells.remove(e)] takes out the child that is the element [e]
    itself.  During [_clean_data] an element is told from its equals by
    the position it had when the loop started. *)
Definition remove_child (i : nat) (l : list (nat * element)) : list (nat * element) :=
  List.filter (λ p, negb (p.1 =? i)%nat) l.

Definition _clean_data : M unit :=
  (* Delete empty cells *)
  _ ← modify (λ s,
        let all_cells := imap pair (get_cells s) in
        let empty_cells := List.filter (λ p, holds EMPTY_CELL_XPATH_SELECTOR p.2) all_cells in
        with_cells (foldl (λ all empty_cell, remove_child empty_cell.1 all)
                          all_cells empty_cells).*2 s);
  (* Update max col and row *)
  c ← read max_column;
  _ ← modify (with_MaxCol (Some (str_int c)));
  r ← read max_row;
  modify (with_MaxRow (Some (str_int r))).

End sheet_methods.

(** ** cell.py: values *)

(** [Expression(id, worksheet, cell)] *)
Record Expression : Type := mkExpression {
  expr_id : option string;
  expr_worksheet : sheet_ident;
  expr_cell : Cell
}.

(** The values handed to and returned by a cell. *)
Inductive pyvalue : Type :=
  | VBool (b : bool)
  | VInt (n : Z)
  | VFloat (x : float)
  | VStr (s : string)
  | VNone
  | VExpr (e : Expression).

(** The [value_type] argument of [set_value]. *)
Inductive directive : Type :=
  | Infer                  (* 'infer' *)
  | Keep                   (* 'keep' *)
  | Explicit (t : Z).      (* one of the VALUE_TYPE_ constants *)

(** [src/expression.py] is not among the sources.  The methods of
    [Expression] that [set_value] calls are parameters of the embedding,
    typed as §4.3 of the specification describes them: the cells that
    refer to the expression and the cell that holds its literal text are
    looked up in the owning sheet without changing it, and [value] is
    that text.  [str] and [bool] of an expression object are the
    object's own. *)
Class ExpressionClass : Type := {
  get_all_cells : Expression → Sheet → res (list Cell);
  get_originating_cell : Expression → Sheet → res Cell;
  expression_value : Expression → Sheet → res (option string);
  expression_str : Expression → string;
  expression_bool : Expression → bool
}.

Inductive pytype : Type := TBool | TInt | TFloat | TStr | TNoneType | TExpression.

(** [type(value)] *)
Definition type_of (value : pyvalue) : pytype :=
  match value with
  | VBool _ => TBool
  | VInt _ => TInt
  | VFloat _ => TFloat
  | VStr _ => TStr
  | VNone => TNoneType
  | VExpr _ => TExpression
  end.

(** [{bool: VALUE_TYPE_BOOLEAN, int: VALUE_TYPE_INTEGER, float: VALUE_TYPE_FLOAT}] *)
Definition val_types (t : pytype) : option Z :=
  match t with
  | TBool => Some VALUE_TYPE_BOOLEAN
  | TInt => Some VALUE_TYPE_INTEGER
  | TFloat => Some VALUE_TYPE_FLOAT
  | _ => None
  end.

(** [value in ('', None)] *)
Definition is_blank (value : pyvalue) : bool :=
  match value with
  | VStr EmptyString | VNone => true
  | _ => false
  end.

(** [isinstance(value, Expression)] *)
Definition is_expression (value : pyvalue) : bool :=
  match value with
  | VExpr _ => true
  | _ => false
  end.

(** [value[0] == '='] *)
Definition first_is_eq (value : pyvalue) : res bool :=
  match value with
  | VStr (String a _) => Ret (Ascii.eqb a "=")
  | VStr EmptyString => Raise (IndexError "string index out of range")
  | _ => Raise TypeError
  end.

(** [x in (VALUE_TYPE_EMPTY, ..., VALUE_TYPE_ERROR)] *)
Definition is_scalar_type (t : Z) : bool :=
  bool_decide (t ∈ [VALUE_TYPE_EMPTY; VALUE_TYPE_BOOLEAN; VALUE_TYPE_INTEGER;
                    VALUE_TYPE_FLOAT; VALUE_TYPE_ERROR]).

(** The ['infer'] branch of [set_value] on the element of the cell. *)
Definition infer (c : element) (value : pyvalue) : res Z :=
  match val_types (type_of value) with
  | Some t => Ret t
  | None =>
      if is_blank value then Ret VALUE_TYPE_EMPTY
      else
        is_expr ← (if is_expression value then Ret true else first_is_eq value);
        if is_expr : bool then Ret VALUE_TYPE_EXPR
        else
          t ← value_type c;
          if is_scalar_type t then Ret VALUE_TYPE_STRING
          else value_type c
  end.

Definition resolve (c : element) (value : pyvalue) (value_type_arg : directive) : res Z :=
  match value_type_arg with
  | Infer => infer c value
  | Keep => value_type c
  | Explicit t => Ret t
  end.

(** [str(x)] for an attribute that may be [None] *)
Definition str_opt (x : option string) : string := default "None" x.

(** [str(max(int(k) for k in expression_map) + 1)] *)
Definition next_expression_id {V} (expression_map : list (string * V)) : res string :=
  ids ← mapM int_str (dict_keys expression_map);
  m ← py_max ids;
  mret (str_int (m + 1)).

(** [self.__cell] *)
Definition element_of (self : Cell) (s : Sheet) : res element :=
  match cells s !! self with
  | Some c => Ret c
  | None => Raise DetachedElement
  end.

(** A change of the element of [self] in place. *)
Definition update (self : Cell) (f : element → element) : M unit :=
  _ ← read (element_of self);
  modify (λ s, with_cells (alter f self (cells s)) s).

(** [self.__cell.text = t]: lxml takes away the text the element has,
    and then raises [ValueError] for a string that is not XML compatible;
    [None] leaves the element without text. *)
Definition assign_text (self : Cell) (t : option string) : M unit :=
  _ ← update self (set_text None);
  match t with
  | None => mret tt
  | Some txt =>
      if xml_compatible txt then update self (set_text (Some txt))
      else raise ValueError
  end.

Definition get_value (self : Cell) (s : Sheet) : res pyvalue :=
  c ← element_of self s;
  let value := text c in
  t ← value_type c;
  if t =? VALUE_TYPE_BOOLEAN then Ret (VBool (text_bool value))
  else if t =? VALUE_TYPE_INTEGER then VInt <$> int_opt value
  else if t =? VALUE_TYPE_FLOAT then VFloat <$> float_opt value
  else if t =? VALUE_TYPE_EXPR then
    Ret (VExpr {| expr_id := get c "ExprID"; expr_worksheet := ident s; expr_cell := self |})
  else Ret (match value with Some v => VStr v | None => VNone end).

(** [Cell.__eq__] for two cells of the sheet at hand: the worksheets
    are the same, the coordinates are read and compared. *)
Definition cell_eq (a b : Cell) (s : Sheet) : res bool :=
  ea ← element_of a s;
  eb ← element_of b s;
  ra ← row ea; rb ← row eb;
  if ra =? rb then ca ← column ea; cb ← column eb; mret (ca =? cb)
  else mret false.

Section cell_methods.
Context `{ExpressionClass}.

(** [bool(value)] *)
Definition truthy (value : pyvalue) : bool :=
  match value with
  | VBool b => b
  | VInt n => negb (n =? 0)
  | VFloat x => float_bool x
  | VStr s => negb (String.eqb s "")
  | VNone => false
  | VExpr e => expression_bool e
  end.

(** [str(value)] *)
Definition str (value : pyvalue) : res string :=
  match value with
  | VBool b => Ret (str_bool b)
  | VInt n => py_str_int n
  | VFloat x => Ret (str_float x)
  | VStr s => Ret s
  | VNone => Ret "None"
  | VExpr e => Ret (expression_str e)
  end.

(** The branch of [set_value] for an [Expression] stored as such. *)
Definition set_expression (self : Cell) (value : Expression) : M unit :=
  ws ← read (λ s, Ret (ident s));
  if bool_decide (ws ≠ expr_worksheet value) then
    raise (NotImplementedError
             "Copying expression to different worksheet is not yet supported")
  else
    let expr_id0 := str_opt (expr_id value) in
    expression_map ← read get_expression_map;
    expr_id ← (if negb (dict_in expr_id0 expression_map)
                    && bool_decide (expr_id value = None)
               then read (λ s, get_expression_map s ≫= next_expression_id)
               else mret expr_id0);
    all_cells ← read (get_all_cells value);
    over_itself ← (if (length all_cells =? 1)%nat
                   then origin ← read (get_originating_cell value);
                        read (cell_eq origin self)
                   else mret false);
    if over_itself : bool then
      (* copying expression over itself, so don't add it to cells using this expression *)
      v ← read (expression_value value);
      assign_text self v
    else
      (* the expression is shared, so use the expression id *)
      all_cells ← read (get_all_cells value);
      _ ← (if (length all_cells =? 1)%nat
           then origin ← read (get_originating_cell value);
                update origin (set_expression_id expr_id)
           else mret tt);
      _ ← assign_text self None;
      update self (set_expression_id expr_id).

Definition set_value (self : Cell) (value : pyvalue) (value_type_arg : directive) : M unit :=
  c ← read (element_of self);
  value_type ← read (λ _, resolve c value value_type_arg);
  _ ← (if value_type =? VALUE_TYPE_BOOLEAN then
         assign_text self (Some (upper (str_bool (truthy value))))
       else if value_type =? VALUE_TYPE_EMPTY then
         assign_text self None
       else
         match value with
         | VExpr e =>
             if value_type =? VALUE_TYPE_EXPR then set_expression self e
             else txt ← read (λ _, str value); assign_text self (Some txt)
         | _ => txt ← read (λ _, str value); assign_text self (Some txt)
         end);
  update self (set_type value_type).

End cell_methods.

(** ** sheet.py: the text of a cell and the collection of cells *)

(** The [sort] argument of [get_cell_collection]: [False] or a string. *)
Inductive sort_option : Type :=
  | SortFalse
  | SortBy (key : string).

(** [bool(sort)] *)
Definition sort_bool (sort : sort_option) : bool :=
  match sort with
  | SortFalse => false
  | SortBy key => negb (String.eqb key "")
  end.

(** [sort == 'row'] *)
Definition sort_is_row (sort : sort_option) : bool :=
  match sort with
  | SortFalse => false
  | SortBy key => String.eqb key "row"
  end.

(** [a < b] on tuples of two integers *)
Definition tuple_lt (a b : Z * Z) : bool :=
  (a.1 <? b.1) || ((a.1 =? b.1) && (a.2 <? b.2)).

(** [sorted(items, key=...)], on the items paired with their keys: the
    sort is stable and compares keys with [<] only.  An item goes in
    front of the first item of the sorted rest whose key is not less than
    its own. *)
Fixpoint insert_sorted {A} (x : (Z * Z) * A) (l : list ((Z * Z) * A)) : list ((Z * Z) * A) :=
  match l with
  | [] => [x]
  | y :: l' => if tuple_lt y.1 x.1 then y :: insert_sorted x l' else x :: l
  end.

Definition sorted {A} (keyed : list ((Z * Z) * A)) : list A :=
  (foldr insert_sorted [] keyed).*2.

(** [attrgetter('row', 'column')] and [attrgetter('column', 'row')]
    applied to a cell: the attributes are read in the order named. *)
Definition key_fn (row_major : bool) (s : Sheet) (c : Cell) : res (Z * Z) :=
  e ← element_of c s;
  if row_major then r ← row e; k ← column e; mret (r, k)
  else k ← column e; r ← row e; mret (k, r).

(** The keys are computed for all cells, in the order of the list,
    before the list is sorted. *)
Definition sort_cells (cells : list Cell) (row_major : bool) (s : Sheet) : res (list Cell) :=
  keys ← mapM (key_fn row_major s) cells;
  mret (sorted (zip keys cells)).

(** The children of [gnm:Cells] that satisfy [p], in document order, by
    the positions at which cells address them. *)
Definition handles (p : element → bool) (s : Sheet) : list Cell :=
  (List.filter (λ ic, p ic.2) (imap pair (get_cells s))).*1.

Section collection.
Context `{CellCall}.

Definition cell_text (row_idx col_idx : Z) : M (option string) :=
  c ← cell row_idx col_idx false;
  read (λ s, text <$> element_of c s).

Definition sort_cell_elements (cell_elements : list Cell) (row_major : bool) (s : Sheet)
    : res (list Cell) :=
  cells ← mapM Cell_of cell_elements;
  sort_cells cells row_major s.

Definition get_cell_collection (include_empty : bool) (sort : sort_option) (s : Sheet)
    : res (list Cell) :=
  let cells := if include_empty then handles (λ _, true) s
               else handles (holds (Not EMPTY_CELL_XPATH_SELECTOR)) s in
  cells ← mapM Cell_of cells;
  if sort_bool sort then sort_cells cells (sort_is_row sort) s
  else Ret cells.

End collection.

(** ** The vocabulary of the properties *)

Fixpoint all_digits (s : string) : bool :=
  match s with
  | String a s' => is_digit a && all_digits s'
  | EmptyString => true
  end.

(** The predicate in the words of the specification: the explicit type
    tag equals EMPTY, or there is no type tag, no expression id and the
    text has length zero. *)
Definition spec_empty (c : element) : Prop :=
  get c "ValueType" = Some "10"
  ∨ (get c "ValueType" = None ∧ get c "ExprID" = None
     ∧ String.length (default "" (text c)) = 0%nat).

#[global] Instance spec_empty_dec c : Decision (spec_empty c).
Proof. unfold spec_empty. apply _. Defined.

(** [m] is what reducing [xs] with [min] gives, or the sentinel [-1]. *)
Definition least (xs : list Z) (m : Z) : Prop :=
  match xs with
  | [] => m = -1
  | _ => m ∈ xs ∧ ∀ x, x ∈ xs → m ≤ x
  end.

Definition greatest (xs : list Z) (m : Z) : Prop :=
  match xs with
  | [] => m = -1
  | _ => m ∈ xs ∧ ∀ x, x ∈ xs → x ≤ m
  end.

(** The element carries the decimal text of [row] and [col] as its
    position. *)
Definition at_position (row col : Z) (c : element) : Prop :=
  get c "Row" = Some (str_int row) ∧ get c "Col" = Some (str_int col).

(** The text [set_value] hands to the element when the value is not
    stored as an expression object. *)
Definition stored_text `{ExpressionClass} (t : Z) (value : pyvalue) : res (option string) :=
  if t =? VALUE_TYPE_BOOLEAN then Ret (Some (upper (str_bool (truthy value))))
  else if t =? VALUE_TYPE_EMPTY then Ret None
  else Some <$> str value.

(** The texts the element takes: [None] and the strings that are XML
    compatible. *)
Definition accepted (t : option string) : bool :=
  match t with
  | None => true
  | Some txt => xml_compatible txt
  end.

(** A string of printable ASCII characters. *)
Fixpoint printable (s : string) : bool :=
  match s with
  | EmptyString => true
  | String a s' => (32 <=? nat_of_ascii a)%nat && (nat_of_ascii a <? 127)%nat && printable s'
  end.

(** The priority of §4.1 in the words of the specification; [prior] is
    the type of the cell before the call. *)
Definition priority_table (value : pyvalue) (prior : Z) : Z :=
  match value with
  | VBool _ => VALUE_TYPE_BOOLEAN
  | VInt _ => VALUE_TYPE_INTEGER
  | VFloat _ => VALUE_TYPE_FLOAT
  | VStr EmptyString | VNone => VALUE_TYPE_EMPTY
  | VExpr _ => VALUE_TYPE_EXPR
  | VStr (String a _) =>
      if Ascii.eqb a "=" then VALUE_TYPE_EXPR
      else if bool_decide (prior ∈ [VALUE_TYPE_EMPTY; VALUE_TYPE_BOOLEAN; VALUE_TYPE_INTEGER;
                                    VALUE_TYPE_FLOAT; VALUE_TYPE_ERROR])
           then VALUE_TYPE_STRING
           else prior
  end.

(** A string that is neither empty nor begins with ['=']: the only kind
    of value for which the prior type of the cell is read. *)
Definition is_plain_string (value : pyvalue) : bool :=
  match value with
  | VStr (String a _) => negb (Ascii.eqb a "=")
  | _ => false
  end.

#[global] Instance exn_eq_dec : EqDecision exn.
Proof. solve_decision. Defined.

#[global] Instance res_eq_dec {A} `{EqDecision A} : EqDecision (res A).
Proof. solve_decision. Defined.

(** [d.get(k)] *)
Fixpoint dict_get {V} (k : string) (d : list (string * V)) : option V :=
  match d with
  | [] => None
  | (k', v) :: d' => if String.eqb k k' then Some v else dict_get k d'
  end.

(** The cell [c] feeds the expression map under the id [k]. *)
Definition defines (k : string) (c : element) : Prop :=
  get c "ExprID" = Some k ∧ text c ≠ None.

(** Two states of one element that carry the same position. *)
Definition same_position (c c' : element) : Prop :=
  get c' "Row" = get c "Row" ∧ get c' "Col" = get c "Col".

(** Two states of one sheet with the same cells at the same positions
    and the same data about the sheet as a whole. *)
Definition same_layout (s s' : Sheet) : Prop :=
  ident s' = ident s ∧ ns_gnm s' = ns_gnm s ∧ sheet_name s' = sheet_name s
  ∧ MaxCol s' = MaxCol s ∧ MaxRow s' = MaxRow s
  ∧ Forall2 same_position (cells s) (cells s').

(** The positions as the cells of the sheet carry them, in document
    order. *)
Definition positions (s : Sheet) : list (option string * option string) :=
  (λ c, (get c "Row", get c "Col")) <$> cells s.

(** The key of the first argument is not after the key of the
    second. *)
Definition key_le (row_major : bool) (s : Sheet) (c c' : nat) : Prop :=
  ∃ k k', key_fn row_major s c = Ret k ∧ key_fn row_major s c' = Ret k'
          ∧ tuple_lt k' k = false.

(** The outcomes of a computation on the cell [self]: it raises and
    leaves the tree as it was, or it raises [ValueError] and leaves the
    tree as it was but for the text of the cell, or it returns and leaves
    the layout as it was. *)
Definition settles (self : nat) (s : Sheet) (m : M unit) : Prop :=
  (∃ e s', m s = (Raise e, s')
           ∧ (s' = s
              ∨ (e = ValueError
                 ∧ ∃ x, s' = with_cells (alter (set_text x) self (cells s)) s)))
  ∨ (∃ s', m s = (Ret tt, s') ∧ same_layout s s').

(** A computation that returns wherever the cell [self] is in the tree,
    and leaves the layout as it was. *)
Definition returns_at (self : nat) (m : M unit) : Prop :=
  ∀ s, is_Some (cells s !! self) → ∃ s', m s = (Ret tt, s') ∧ same_layout s s'.

(** A computation that leaves the tree as it was. *)
Definition reads_only {A} (m : M A) : Prop := ∀ s, (m s).2 = s.

(** The item the comprehension of [get_expression_map] builds from a
    cell, and the cells it takes. *)
Definition expression_item (c : element) : res (string * ((Z * Z) * string)) :=
  r ← row c; k ← column c;
  mret (default "" (get c "ExprID"), ((r, k), default "" (text c))).

Definition feeds_map (c : element) : bool :=
  holds (HasAttr "ExprID") c && bool_decide (text c ≠ None).

(** The path expression by which [cell] looks a position up. *)
Definition position_selector (row_idx col_idx : Z) : predicate :=
  And (AttrEq "Row" (str_int row_idx)) (AttrEq "Col" (str_int col_idx)).

(** Whether [cell] appends a cell: both indices are valid, no cell
    carries the position, and [create] is set. *)
Definition creates (s : Sheet) (row_idx col_idx : Z) (create : bool) : bool :=
  match is_valid_row s row_idx, is_valid_column s col_idx with
  | Ret true, Ret true =>
      match find (position_selector row_idx col_idx) (cells s) with
      | None => create
      | Some _ => false
      end
  | _, _ => false
  end.

(** The order [sorted] leaves the keyed items in: no item's key is
    less than the key of an item before it. *)
Definition keys_ascend {A} (p q : (Z * Z) * A) : Prop := tuple_lt q.1 p.1 = false.

(** ** Sample documents *)

Definition gnm : string := "http://www.gnumeric.org/v10.dtd".

(** A cell element with the given attributes and text. *)
Definition sample_cell (row col : string) (value_type expr_id text : option string) : element :=
  {| attrib := <["Row" := row]> (<["Col" := col]>
                 (match value_type with Some t => <["ValueType" := t]> | None => id end
                    (match expr_id with Some i => <["ExprID" := i]> | None => id end ∅)));
     text := text |}.

(** A worksheet of 65536 rows and 256 columns. *)
Definition sample_sheet (cells : list element) : Sheet :=
  {| ident := SheetIdent 0 0 0; ns_gnm := gnm;
     sheet_name := <["{http://www.gnumeric.org/v10.dtd}Rows" := "65536"]>
                     (<["{http://www.gnumeric.org/v10.dtd}Cols" := "256"]> ∅);
     cells := cells; MaxCol := Some "-1"; MaxRow := Some "-1" |}.

(** A chart sheet. *)
Definition sample_chartsheet (cells : list element) : Sheet :=
  {| ident := SheetIdent 0 1 1; ns_gnm := gnm;
     sheet_name := <["{http://www.gnumeric.org/v10.dtd}SheetType" := "object"]>
                     (<["{http://www.gnumeric.org/v10.dtd}Rows" := "65536"]>
                        (<["{http://www.gnumeric.org/v10.dtd}Cols" := "256"]> ∅));
     cells := cells; MaxCol := None; MaxRow := None |}.

(** Three cells: an integer at (6, 3), a created and still empty cell at
    (2, 1), a string at (12, 9). *)
Definition sample_cells : list element :=
  [ sample_cell "6" "3" (Some "30") None (Some "42");
    sample_cell "2" "1" (Some "10") None None;
    sample_cell "12" "9" (Some "60") None (Some "total") ].

(** Three cells that tell the emptiness predicate from the absence of
    text: one tagged EMPTY that has text, one tagged STRING whose text is
    empty, one without tag, expression id and text. *)
Definition emptiness_cells : list element :=
  [ sample_cell "2" "1" (Some "10") None (Some "text");
    sample_cell "7" "4" (Some "60") None (Some "");
    sample_cell "9" "9" None None None ].

(** A formula typed into a cell: no type tag, no expression id. *)
Definition formula_cell : element := sample_cell "0" "0" None None (Some "=1+1").

(** The expression object of [formula_cell], as [get_value] returns it. *)
Definition formula_expression : Expression :=
  {| expr_id := None; expr_worksheet := SheetIdent 0 0 0; expr_cell := 0%nat |}.

(** The float [10.0]. *)
Definition ten : float := SpecFloat.S754_finite false 5629499534213120 (-49).

(** One way to fill in [ExpressionClass]: an expression without an id
    belongs to its cell alone; one with an id to the cells that carry the
    id, the first of them with text being its origin. *)
Definition sample_expression_class : ExpressionClass :=
  let with_id (e : Expression) (s : Sheet) : list Cell :=
    match expr_id e with
    | None => [expr_cell e]
    | Some i => (List.filter (λ p, bool_decide (get p.2 "ExprID" = Some i))
                             (imap pair (cells s))).*1
    end in
  let origin (e : Expression) (s : Sheet) : Cell :=
    match expr_id e with
    | None => expr_cell e
    | Some i =>
        default (expr_cell e)
          (fst <$> list_find (λ c, get c "ExprID" = Some i ∧ text c ≠ None) (cells s))
    end in
  {| get_all_cells e s := Ret (with_id e s);
     get_originating_cell e s := Ret (origin e s);
     expression_value e s := Ret (default None (text <$> cells s !! origin e s));
     expression_str e := "Expression";
     expression_bool e := true |}.

(** * Properties *)

(** ** The runtime on samples *)

Example int_str_examples :
  int_str "10" = Ret 10 ∧ int_str " -007 " = Ret (-7) ∧ int_str "1_000" = Ret 1000
  ∧ int_str "" = Raise ValueError ∧ int_str "1__0" = Raise ValueError
  ∧ int_str "TRUE" = Raise ValueError ∧ str_int (-10) = "-10" ∧ str_int 0 = "0".
Proof. repeat split; reflexivity. Qed.

Example float_examples :
  float_str "10.0" = Ret (SpecFloat.S754_finite false 5629499534213120 (-49))
  ∧ str_float (SpecFloat.S754_finite false 5629499534213120 (-49)) = "10.0"
  ∧ (str_float <$> float_str "1e16") = Ret "1e+16"
  ∧ (str_float <$> float_str " -1_0.25 ") = Ret "-10.25"
  ∧ (str_float <$> float_str "0.1") = Ret "0.1"
  ∧ float_str "ten" = Raise ValueError.
Proof. repeat split; vm_compute; reflexivity. Qed.

(** ** Decimal text of integers reads back *)

Lemma string_of_uint_digits d : all_digits (NilEmpty.string_of_uint d) = true.
Proof. induction d; simpl; auto. Qed.

Lemma is_digit_not_space a : is_digit a = true → is_space a = false.
Proof.
  unfold is_digit, is_space. intros Hd.
  apply andb_true_iff in Hd as [H1 H2].
  apply Nat.leb_le in H1. apply Nat.leb_le in H2.
  apply orb_false_iff. split; apply andb_false_iff.
  - right. apply Nat.leb_gt. lia.
  - right. apply Nat.leb_gt. lia.
Qed.

Lemma rstrip_digits s : all_digits s = true → rstrip s = s.
Proof.
  induction s as [|a s IH]; simpl; [done|].
  intros [Ha Hs]%andb_true_iff. rewrite (IH Hs).
  destruct s; [|done]. by rewrite (is_digit_not_space a Ha).
Qed.

Lemma strip_digits s : all_digits s = true → strip s = s.
Proof.
  intros Hs. unfold strip.
  destruct s as [|a s]; [done|]. simpl in Hs.
  apply andb_true_iff in Hs as [Ha Hs]. simpl lstrip.
  rewrite (is_digit_not_space a Ha). apply rstrip_digits. simpl. by rewrite Ha, Hs.
Qed.

Lemma literal_digits_digits s prev :
  all_digits s = true → s ≠ EmptyString → literal_digits prev s = Some s.
Proof.
  revert prev. induction s as [|a s IH]; intros prev Hs Hne; [done|].
  simpl in Hs. apply andb_true_iff in Hs as [Ha Hs]. simpl. rewrite Ha.
  destruct s as [|b s]; [done|]. by rewrite IH.
Qed.

Lemma int_unsigned_to_uint p :
  int_unsigned (NilEmpty.string_of_uint (Pos.to_uint p)) = Some (Zpos p).
Proof.
  unfold int_unsigned.
  assert (Hne : NilEmpty.string_of_uint (Pos.to_uint p) ≠ EmptyString).
  { intros Heq. apply (f_equal NilEmpty.uint_of_string) in Heq.
    rewrite NilEmpty.usu in Heq. simpl in Heq. injection Heq as Heq.
    apply (f_equal Pos.of_uint) in Heq. rewrite DecimalPos.Unsigned.of_to in Heq.
    discriminate Heq. }
  rewrite literal_digits_digits by (auto using string_of_uint_digits). simpl.
  rewrite NilEmpty.usu. simpl. f_equal. unfold Z.of_uint.
  by rewrite DecimalPos.Unsigned.of_to.
Qed.

Lemma int_str_digits s n :
  all_digits s = true → int_unsigned s = Some n →
  int_str s = Ret n ∧ int_str (String "-" s) = Ret (- n).
Proof.
  intros Hd Hu. unfold int_str. split.
  - rewrite strip_digits by exact Hd.
    destruct s as [|a s]; [by rewrite Hu|].
    simpl in Hd. apply andb_true_iff in Hd as [Ha _].
    destruct a as [[] [] [] [] [] [] [] []]; try discriminate Ha; by rewrite Hu.
  - assert (Hs : strip (String "-" s) = String "-" s).
    { unfold strip. simpl lstrip. simpl rstrip. rewrite rstrip_digits by exact Hd.
      by destruct s. }
    rewrite Hs, Hu. reflexivity.
Qed.

(** [int(str(n)) == n] *)
Lemma int_str_str_int n : int_str (str_int n) = Ret n.
Proof.
  unfold str_int. destruct n as [|p|p]; [done| |].
  - simpl Z.to_int. unfold NilZero.string_of_int, NilZero.string_of_uint.
    destruct (int_str_digits _ _ (string_of_uint_digits (Pos.to_uint p))
                (int_unsigned_to_uint p)) as [Hp _].
    by destruct (Pos.to_uint p).
  - simpl Z.to_int. unfold NilZero.string_of_int, NilZero.string_of_uint.
    destruct (int_str_digits _ _ (string_of_uint_digits (Pos.to_uint p))
                (int_unsigned_to_uint p)) as [_ Hp].
    destruct (Pos.to_uint p) eqn:Hu; try exact Hp.
    apply (f_equal Pos.of_uint) in Hu. rewrite DecimalPos.Unsigned.of_to in Hu.
    discriminate Hu.
Qed.

(** ** The emptiness predicate *)

Lemma holds_empty_selector c :
  holds EMPTY_CELL_XPATH_SELECTOR c = true ↔ spec_empty c.
Proof.
  unfold spec_empty, EMPTY_CELL_XPATH_SELECTOR. simpl.
  rewrite orb_true_iff, !andb_true_iff, !negb_true_iff, !bool_decide_eq_true,
    !bool_decide_eq_false, <-!eq_None_not_Some.
  change (str_int VALUE_TYPE_EMPTY) with "10". tauto.
Qed.

Lemma holds_not_empty_selector c :
  holds (Not EMPTY_CELL_XPATH_SELECTOR) c = true ↔ ¬ spec_empty c.
Proof.
  rewrite <-holds_empty_selector. cbn [holds]. rewrite negb_true_iff.
  destruct (holds EMPTY_CELL_XPATH_SELECTOR c); split; congruence.
Qed.

Lemma filter_ext_bool {A} (f g : A → bool) (l : list A) :
  (∀ x, f x = g x) → List.filter f l = List.filter g l.
Proof. intros Hfg. induction l as [|x l IH]; simpl; [done|]. by rewrite Hfg, IH. Qed.

Lemma get_non_empty_cells_spec s :
  get_non_empty_cells s
  = List.filter (λ c, bool_decide (¬ spec_empty c)) (cells s).
Proof.
  apply filter_ext_bool. intros c.
  apply eq_true_iff_eq. rewrite holds_not_empty_selector, bool_decide_eq_true. done.
Qed.

Lemma get_empty_cells_spec s :
  get_empty_cells s = List.filter (λ c, bool_decide (spec_empty c)) (cells s).
Proof.
  apply filter_ext_bool. intros c.
  apply eq_true_iff_eq. rewrite holds_empty_selector, bool_decide_eq_true. done.
Qed.

(** ** Compaction removes the empty cells *)

Lemma filter_filter_bool {A} (f g : A → bool) (l : list A) :
  List.filter f (List.filter g l) = List.filter (λ x, g x && f x) l.
Proof.
  induction l as [|x l IH]; [done|]. cbn [List.filter].
  destruct (g x); cbn [List.filter andb]; [destruct (f x)|]; by rewrite IH.
Qed.

Lemma remove_child_fold (ids l : list (nat * element)) :
  foldl (λ all e, remove_child e.1 all) l ids
  = List.filter (λ p, forallb (λ e, negb (p.1 =? e.1)%nat) ids) l.
Proof.
  revert l. induction ids as [|e ids IH]; intros l; cbn [foldl forallb].
  - induction l as [|p l IHl]; [done|]. cbn [List.filter]. by rewrite <-IHl.
  - rewrite IH. unfold remove_child. apply filter_filter_bool.
Qed.

Lemma imap_pair_tag_inj {A} (l : list A) (p e : nat * A) :
  p ∈ imap pair l → e ∈ imap pair l → p.1 = e.1 → p = e.
Proof.
  intros (i & x & -> & Hi)%elem_of_lookup_imap (j & y & -> & Hj)%elem_of_lookup_imap.
  simpl. intros ->. congruence.
Qed.

Lemma imap_pair_snd {A} (l : list A) : (imap pair l).*2 = l.
Proof.
  change (imap pair l) with (imap (λ i, pair (id i)) l). generalize (@id nat).
  induction l as [|x l IH]; intros h; [done|].
  cbn [imap fmap list_fmap]. simpl. f_equal. apply (IH (h ∘ S)).
Qed.

Lemma filter_snd {A B} (f : B → bool) (l : list (A * B)) :
  (List.filter (λ p, f p.2) l).*2 = List.filter f l.*2.
Proof.
  induction l as [|[a b] l IH]; [done|]. cbn [List.filter fmap list_fmap]. simpl.
  destruct (f b); cbn [fmap list_fmap]; simpl; by rewrite <-IH.
Qed.

(** The loop of [_clean_data] leaves the non-empty cells, in order. *)
Lemma clean_loop_cells (l : list element) :
  (foldl (λ all empty_cell, remove_child empty_cell.1 all) (imap pair l)
         (List.filter (λ p, holds EMPTY_CELL_XPATH_SELECTOR p.2) (imap pair l))).*2
  = List.filter (holds (Not EMPTY_CELL_XPATH_SELECTOR)) l.
Proof.
  rewrite remove_child_fold.
  set (emp := holds EMPTY_CELL_XPATH_SELECTOR).
  rewrite (filter_ext_in _ (λ p, negb (emp p.2))).
  - rewrite (filter_snd (λ c, negb (emp c))). by rewrite imap_pair_snd.
  - intros p Hp%list_elem_of_In. destruct (emp p.2) eqn:Hemp; simpl.
    + apply not_true_is_false. intros Hall.
      rewrite forallb_forall in Hall. specialize (Hall p).
      rewrite Nat.eqb_refl in Hall. simpl in Hall.
      assert (false = true); [|done]. apply Hall, filter_In. split; [|done].
      by apply list_elem_of_In.
    + apply forallb_forall. intros e [He Hemp']%filter_In.
      apply negb_true_iff, Nat.eqb_neq. intros Heq.
      apply list_elem_of_In in He.
      rewrite (imap_pair_tag_inj l p e Hp He Heq) in Hemp. congruence.
Qed.

(** ** Reading the state monad *)

Lemma M_bind_ret {A B} (m : M A) (k : A → M B) s a s' :
  m s = (Ret a, s') → (m ≫= k) s = k a s'.
Proof. intros Hm. unfold mbind, M_bind. by rewrite Hm. Qed.

Lemma M_bind_raise {A B} (m : M A) (k : A → M B) s e s' :
  m s = (Raise e, s') → (m ≫= k) s = (Raise e, s').
Proof. intros Hm. unfold mbind, M_bind. by rewrite Hm. Qed.

Lemma M_bind_read {A B} (f : Sheet → res A) (k : A → M B) s :
  (read f ≫= k) s = match f s with Ret a => k a s | Raise e => (Raise e, s) end.
Proof. unfold mbind, M_bind, read. by destruct (f s). Qed.

Lemma M_bind_modify {B} (f : Sheet → Sheet) (k : unit → M B) s :
  (modify f ≫= k) s = k tt (f s).
Proof. reflexivity. Qed.

(** ** Minimum and maximum *)

Lemma foldl_min_spec xs x :
  foldl Z.min x xs ∈ x :: xs ∧ ∀ y, y ∈ x :: xs → foldl Z.min x xs ≤ y.
Proof.
  revert x. induction xs as [|z xs IH]; intros x; cbn [foldl].
  - split; [left|]. intros y ->%list_elem_of_singleton. lia.
  - destruct (IH (Z.min x z)) as [Hin Hle]. split.
    + apply elem_of_cons in Hin as [Heq|Hin]; [|by do 2 right].
      rewrite Heq. destruct (Z.min_spec x z) as [[_ ->]|[_ ->]]; [left|right; left].
    + intros y Hy. pose proof (Hle (Z.min x z) ltac:(left)) as Hm.
      apply elem_of_cons in Hy as [Hy|Hy]; [lia|].
      apply elem_of_cons in Hy as [Hy|Hy]; [lia|].
      apply Hle. by right.
Qed.

Lemma foldl_max_spec xs x :
  foldl Z.max x xs ∈ x :: xs ∧ ∀ y, y ∈ x :: xs → y ≤ foldl Z.max x xs.
Proof.
  revert x. induction xs as [|z xs IH]; intros x; cbn [foldl].
  - split; [left|]. intros y ->%list_elem_of_singleton. lia.
  - destruct (IH (Z.max x z)) as [Hin Hle]. split.
    + apply elem_of_cons in Hin as [Heq|Hin]; [|by do 2 right].
      rewrite Heq. destruct (Z.max_spec x z) as [[_ ->]|[_ ->]]; [right; left|left].
    + intros y Hy. pose proof (Hle (Z.max x z) ltac:(left)) as Hm.
      apply elem_of_cons in Hy as [Hy|Hy]; [lia|].
      apply elem_of_cons in Hy as [Hy|Hy]; [lia|].
      apply Hle. by right.
Qed.

Lemma mapM_res_length {A B} (f : A → res B) l ys :
  mapM f l = Ret ys → length ys = length l.
Proof.
  revert ys. induction l as [|x l IH]; intros ys; cbn [mapM].
  - intros [= <-]. done.
  - unfold mbind, res_bind at 1. destruct (f x); [|done].
    unfold mbind, res_bind at 1. destruct (mapM f l) as [bs|]; [|done].
    intros [= <-]. simpl. f_equal. by apply IH.
Qed.

Lemma py_min_least x xs : ∃ m, py_min (x :: xs) = Ret m ∧ least (x :: xs) m.
Proof. eexists. split; [done|]. apply foldl_min_spec. Qed.

Lemma py_max_greatest x xs : ∃ m, py_max (x :: xs) = Ret m ∧ greatest (x :: xs) m.
Proof. eexists. split; [done|]. apply foldl_max_spec. Qed.

Lemma is_object_regular s : sheet_type s = None → is_object s = false.
Proof. intros Hs. unfold is_object. by rewrite Hs. Qed.

Lemma Cell_call_as_written : @Cell_call as_written = Raise TypeError.
Proof. reflexivity. Qed.

Lemma Cell_call_with_four_arguments : @Cell_call with_four_arguments = Ret tt.
Proof. reflexivity. Qed.

Section wrapping.
Context `{CellCall}.

(** Where the call returns, reading through the wrapper is reading the
    element. *)
Lemma mapM_Cell_of_returns (f : element → res Z) (l : list element) :
  Cell_call = Ret tt → mapM (λ c, Cell_of c ≫= f) l = mapM f l.
Proof.
  intros Hcall. induction l as [|c l IH]; [done|]. cbn [mapM].
  rewrite IH. unfold Cell_of. by rewrite Hcall.
Qed.

(** Where the call raises, the first element to wrap ends the
    traversal. *)
Lemma mapM_Cell_of_raises (f : element → res Z) (l : list element) e :
  Cell_call = Raise e → l ≠ [] → mapM (λ c, Cell_of c ≫= f) l = Raise e.
Proof.
  intros Hcall Hl. destruct l as [|c l]; [done|]. cbn [mapM].
  unfold Cell_of. by rewrite Hcall.
Qed.

(** A query of the bounding rectangle on a sheet that is not a chart. *)
Lemma reduce_query (f : element → res Z) (reduce : list Z → res Z)
    (content : list element) (xs : list Z) (P : list Z → Z → Prop) :
  Cell_call = Ret tt →
  mapM f content = Ret xs →
  (∀ x xs', ∃ m, reduce (x :: xs') = Ret m ∧ P (x :: xs') m) →
  P [] (-1) →
  ∃ m, (if (length content =? 0)%nat then Ret (-1)
        else mapM (λ c, Cell_of c ≫= f) content ≫= reduce) = Ret m
       ∧ P xs m.
Proof.
  intros Hcall Hxs Hred Hnil. rewrite (mapM_Cell_of_returns f content Hcall).
  pose proof (mapM_res_length _ _ _ Hxs) as Hlen.
  destruct content as [|c content].
  - cbn in Hxs. injection Hxs as <-. by exists (-1).
  - destruct xs as [|x xs]; [done|]. cbn [length Nat.eqb]. rewrite Hxs.
    destruct (Hred x xs) as (m & Hm & HP). by exists m.
Qed.

Lemma min_row_regular s rows :
  Cell_call = Ret tt →
  is_object s = false → mapM row (get_non_empty_cells s) = Ret rows →
  ∃ m, min_row s = Ret m ∧ least rows m.
Proof.
  intros Hcall Hs Hrows. unfold min_row. rewrite Hs.
  apply (reduce_query row py_min _ rows least Hcall Hrows py_min_least). done.
Qed.

Lemma min_column_regular s cols :
  Cell_call = Ret tt →
  is_object s = false → mapM column (get_non_empty_cells s) = Ret cols →
  ∃ m, min_column s = Ret m ∧ least cols m.
Proof.
  intros Hcall Hs Hcols. unfold min_column. rewrite Hs.
  apply (reduce_query column py_min _ cols least Hcall Hcols py_min_least). done.
Qed.

Lemma max_row_regular s rows :
  Cell_call = Ret tt →
  is_object s = false → mapM row (get_non_empty_cells s) = Ret rows →
  ∃ m, max_row s = Ret m ∧ greatest rows m.
Proof.
  intros Hcall Hs Hrows. unfold max_row. rewrite Hs.
  apply (reduce_query row py_max _ rows greatest Hcall Hrows py_max_greatest). done.
Qed.

Lemma max_column_regular s cols :
  Cell_call = Ret tt →
  is_object s = false → mapM column (get_non_empty_cells s) = Ret cols →
  ∃ m, max_column s = Ret m ∧ greatest cols m.
Proof.
  intros Hcall Hs Hcols. unfold max_column. rewrite Hs.
  apply (reduce_query column py_max _ cols greatest Hcall Hcols py_max_greatest). done.
Qed.

(** With data on a regular sheet, a query ends where the call does. *)
Lemma query_raises (f : element → res Z) (reduce : list Z → res Z)
    (content : list element) e :
  Cell_call = Raise e → content ≠ [] →
  (if (length content =? 0)%nat then Ret (-1)
   else mapM (λ c, Cell_of c ≫= f) content ≫= reduce) = Raise e.
Proof.
  intros Hcall Hne. rewrite (mapM_Cell_of_raises f content e Hcall Hne).
  by destruct content.
Qed.

End wrapping.

Example sample_dimension :
  @calculate_dimension with_four_arguments (sample_sheet sample_cells) = Ret (6, 3, 12, 9)
  ∧ @calculate_dimension with_four_arguments (sample_sheet []) = Ret (-1, -1, -1, -1)
  ∧ @calculate_dimension as_written (sample_sheet sample_cells) = Raise TypeError
  ∧ @calculate_dimension as_written (sample_sheet []) = Ret (-1, -1, -1, -1).
Proof. repeat split; vm_compute; reflexivity. Qed.

(** ** The emptiness predicate selects the cells (C2) *)

Section selection.
Context `{CellCall}.

(** C2. A cell counts as empty iff its type tag equals EMPTY, or it has
    no type tag, no expression id and text of length zero; a cell with a
    type tag other than EMPTY and empty text counts as non-empty.  The
    cells the sheet selects as empty and as non-empty are the cells that
    satisfy and that fail this predicate.  On a sheet that is no chart,
    each of the four queries of the bounding rectangle is -1 when no cell
    fails the predicate and otherwise the reduction of the rows, or
    columns, of exactly the cells that fail it; so the queries and the
    dimension depend on the cells only through those.  [_clean_data]
    leaves exactly the cells that fail the predicate. *)
Theorem emptiness_predicate_governs :
  (∀ c, holds EMPTY_CELL_XPATH_SELECTOR c = true ↔ spec_empty c)
  ∧ (∀ c tag, get c "ValueType" = Some tag → tag ≠ "10" →
       String.length (default "" (text c)) = 0%nat →
       holds EMPTY_CELL_XPATH_SELECTOR c = false)
  ∧ (∀ s, get_empty_cells s = List.filter (λ c, bool_decide (spec_empty c)) (cells s))
  ∧ (∀ s, get_non_empty_cells s
          = List.filter (λ c, bool_decide (¬ spec_empty c)) (cells s))
  ∧ (∀ s, is_object s = false →
       let content := List.filter (λ c, bool_decide (¬ spec_empty c)) (cells s) in
       min_row s
       = (if (length content =? 0)%nat then Ret (-1)
          else mapM (λ c : element, Cell_of c ≫= row) content ≫= py_min)
       ∧ min_column s
         = (if (length content =? 0)%nat then Ret (-1)
            else mapM (λ c : element, Cell_of c ≫= column) content ≫= py_min)
       ∧ max_row s
         = (if (length content =? 0)%nat then Ret (-1)
            else mapM (λ c : element, Cell_of c ≫= row) content ≫= py_max)
       ∧ max_column s
         = (if (length content =? 0)%nat then Ret (-1)
            else mapM (λ c : element, Cell_of c ≫= column) content ≫= py_max))
  ∧ (∀ s l, List.filter (λ c, bool_decide (¬ spec_empty c)) l
            = List.filter (λ c, bool_decide (¬ spec_empty c)) (cells s) →
       min_row (with_cells l s) = min_row s
       ∧ min_column (with_cells l s) = min_column s
       ∧ max_row (with_cells l s) = max_row s
       ∧ max_column (with_cells l s) = max_column s
       ∧ calculate_dimension (with_cells l s) = calculate_dimension s)
  ∧ (∀ s, cells (_clean_data s).2
          = List.filter (λ c, bool_decide (¬ spec_empty c)) (cells s)).
Proof.
  split; [exact holds_empty_selector|].
  split.
  { intros c tag Htag Hne _. apply not_true_is_false.
    rewrite holds_empty_selector. unfold spec_empty. rewrite Htag.
    intros [[= ->]|[[=] _]]. done. }
  split; [exact get_empty_cells_spec|].
  split; [exact get_non_empty_cells_spec|].
  split.
  { intros s Hreg. cbv zeta. rewrite <-get_non_empty_cells_spec.
    unfold min_row, min_column, max_row, max_column. by rewrite Hreg. }
  split.
  { intros s l Hl.
    assert (Hne : get_non_empty_cells (with_cells l s) = get_non_empty_cells s).
    { by rewrite !get_non_empty_cells_spec. }
    unfold calculate_dimension, min_row, min_column, max_row, max_column.
    rewrite Hne. done. }
  intros s. rewrite <-get_non_empty_cells_spec.
  unfold _clean_data. rewrite M_bind_modify.
  pose proof (clean_loop_cells (cells s)) as Hloop.
  set (s1 := with_cells _ s).
  assert (Hs1 : cells s1 = get_non_empty_cells s) by exact Hloop.
  clearbody s1. rewrite M_bind_read.
  destruct (max_column s1); [|done].
  rewrite M_bind_modify, M_bind_read. simpl.
  destruct (max_row _); done.
Qed.

End selection.

(** Of [emptiness_cells] only the second is non-empty: it alone is
    selected, it alone decides the queries, and it alone is left by
    [_clean_data]. *)
Lemma emptiness_predicate_governs_witness :
  holds EMPTY_CELL_XPATH_SELECTOR (sample_cell "0" "0" (Some "60") None (Some "")) = false
  ∧ get_non_empty_cells (sample_sheet emptiness_cells)
    = [sample_cell "7" "4" (Some "60") None (Some "")]
  ∧ get_empty_cells (sample_sheet emptiness_cells)
    = [sample_cell "2" "1" (Some "10") None (Some "text");
       sample_cell "9" "9" None None None]
  ∧ @min_row with_four_arguments (sample_sheet emptiness_cells) = Ret 7
  ∧ @max_column with_four_arguments (sample_sheet emptiness_cells) = Ret 4
  ∧ @min_row as_written
      (sample_sheet [sample_cell "2" "1" (Some "10") None (Some "text");
                     sample_cell "9" "9" None None None])
    = Ret (-1)
  ∧ @min_row as_written (sample_sheet emptiness_cells) = Raise TypeError
  ∧ cells (@_clean_data as_written (sample_sheet emptiness_cells)).2
    = [sample_cell "7" "4" (Some "60") None (Some "")].
Proof.
  destruct (@emptiness_predicate_governs with_four_arguments)
    as (_ & Hasym & Hempty & Hcontent & Hfour & _ & _).
  destruct (@emptiness_predicate_governs as_written)
    as (_ & _ & _ & _ & Hwritten & _ & Hclean).
  pose proof (Hfour (sample_sheet emptiness_cells) eq_refl) as (Hmin & _ & _ & Hmax).
  pose proof (Hwritten (sample_sheet emptiness_cells) eq_refl) as (Hmin' & _).
  pose proof (Hwritten (sample_sheet [sample_cell "2" "1" (Some "10") None (Some "text");
                                      sample_cell "9" "9" None None None]) eq_refl)
    as (Hnone & _).
  split; [apply (Hasym _ "60"); [reflexivity|discriminate|reflexivity]|].
  split; [rewrite Hcontent; vm_compute; reflexivity|].
  split; [rewrite Hempty; vm_compute; reflexivity|].
  split; [rewrite Hmin; vm_compute; reflexivity|].
  split; [rewrite Hmax; vm_compute; reflexivity|].
  split; [rewrite Hnone; vm_compute; reflexivity|].
  split; [rewrite Hmin'; vm_compute; reflexivity|].
  rewrite Hclean. vm_compute. reflexivity.
Defined.

(** ** The bounding rectangle (C6) *)

Section bounding_rectangle.
Context `{CellCall}.

(** Where the call [cell.Cell(c, self)] returns: on a regular sheet
    whose non-empty cells carry decimal coordinates, each of [min_row],
    [min_column], [max_row] and [max_column] returns the least or greatest
    row or column of the non-empty cells, and -1 when there is none;
    [calculate_dimension] returns the four results as a tuple.  On a chart
    sheet all five raise [UnsupportedOperationException]. *)
Lemma bounding_rectangle_queries s :
  (Cell_call = Ret tt →
   sheet_type s = None →
   ∀ rows cols,
     mapM row (get_non_empty_cells s) = Ret rows →
     mapM column (get_non_empty_cells s) = Ret cols →
     ∃ r0 c0 r1 c1,
       min_row s = Ret r0 ∧ least rows r0
       ∧ min_column s = Ret c0 ∧ least cols c0
       ∧ max_row s = Ret r1 ∧ greatest rows r1
       ∧ max_column s = Ret c1 ∧ greatest cols c1
       ∧ calculate_dimension s = Ret (r0, c0, r1, c1)
       ∧ (get_non_empty_cells s = [] → (r0, c0, r1, c1) = (-1, -1, -1, -1)))
  ∧ (sheet_type s = Some SHEET_TYPE_OBJECT →
     ∃ m0 m1 m2 m3 m4,
       min_row s = Raise (UnsupportedOperationException m0)
       ∧ min_column s = Raise (UnsupportedOperationException m1)
       ∧ max_row s = Raise (UnsupportedOperationException m2)
       ∧ max_column s = Raise (UnsupportedOperationException m3)
       ∧ calculate_dimension s = Raise (UnsupportedOperationException m4)).
Proof.
  split.
  - intros Hcall Hreg%is_object_regular rows cols Hrows Hcols.
    destruct (min_row_regular s rows Hcall Hreg Hrows) as (r0 & Hr0 & Pr0).
    destruct (min_column_regular s cols Hcall Hreg Hcols) as (c0 & Hc0 & Pc0).
    destruct (max_row_regular s rows Hcall Hreg Hrows) as (r1 & Hr1 & Pr1).
    destruct (max_column_regular s cols Hcall Hreg Hcols) as (c1 & Hc1 & Pc1).
    exists r0, c0, r1, c1. repeat (split; [assumption|]). split.
    + unfold calculate_dimension. rewrite Hreg, Hr0, Hc0, Hr1, Hc1. reflexivity.
    + intros Hnil. rewrite Hnil in Hrows, Hcols. cbn in Hrows, Hcols.
      injection Hrows as <-. injection Hcols as <-.
      cbn in Pr0, Pc0, Pr1, Pc1. by subst.
  - intros Hobj.
    assert (Ho : is_object s = true) by (unfold is_object; by rewrite Hobj).
    unfold min_row, min_column, max_row, max_column, calculate_dimension.
    rewrite Ho. by do 5 eexists.
Qed.

(** Without data the call is not reached. *)
Lemma bounding_rectangle_without_data s :
  sheet_type s = None → get_non_empty_cells s = [] →
  min_row s = Ret (-1) ∧ min_column s = Ret (-1)
  ∧ max_row s = Ret (-1) ∧ max_column s = Ret (-1)
  ∧ calculate_dimension s = Ret (-1, -1, -1, -1).
Proof.
  intros Hreg%is_object_regular Hnil.
  unfold calculate_dimension, min_row, min_column, max_row, max_column.
  rewrite Hreg, Hnil. done.
Qed.

End bounding_rectangle.

(** The queries with the call as the sources have it, on a sheet with
    data. *)
Lemma queries_as_written s :
  is_object s = false → get_non_empty_cells s ≠ [] →
  @min_row as_written s = Raise TypeError
  ∧ @min_column as_written s = Raise TypeError
  ∧ @max_row as_written s = Raise TypeError
  ∧ @max_column as_written s = Raise TypeError
  ∧ @calculate_dimension as_written s = Raise TypeError.
Proof.
  intros Hreg Hdata.
  assert (Hquery : ∀ (f : element → res Z) (reduce : list Z → res Z),
            (if (length (get_non_empty_cells s) =? 0)%nat then Ret (-1)
             else mapM (λ c, @Cell_of as_written _ c ≫= f) (get_non_empty_cells s) ≫= reduce)
            = Raise TypeError).
  { intros f reduce. by apply (@query_raises as_written). }
  unfold calculate_dimension, min_row, min_column, max_row, max_column.
  rewrite Hreg.
  rewrite !(Hquery row py_min), !(Hquery row py_max). done.
Qed.

(** C6.  With [cell.Cell(c, self)] as the sources have it, the four
    queries and [calculate_dimension] raise [TypeError] on every regular
    sheet that has a non-empty cell: the claim holds only of sheets
    without data and of chart sheets. *)
Theorem bounding_rectangle_as_written s :
  sheet_type s = None → get_non_empty_cells s ≠ [] →
  @min_row as_written s = Raise TypeError
  ∧ @min_column as_written s = Raise TypeError
  ∧ @max_row as_written s = Raise TypeError
  ∧ @max_column as_written s = Raise TypeError
  ∧ @calculate_dimension as_written s = Raise TypeError.
Proof.
  intros Hreg%is_object_regular Hdata. by apply queries_as_written.
Qed.

Lemma bounding_rectangle_as_written_witness :
  @min_row as_written (sample_sheet sample_cells) = Raise TypeError
  ∧ @min_column as_written (sample_sheet sample_cells) = Raise TypeError
  ∧ @max_row as_written (sample_sheet sample_cells) = Raise TypeError
  ∧ @max_column as_written (sample_sheet sample_cells) = Raise TypeError
  ∧ @calculate_dimension as_written (sample_sheet sample_cells) = Raise TypeError.
Proof.
  apply (bounding_rectangle_as_written (sample_sheet sample_cells)); [reflexivity|].
  vm_compute. discriminate.
Defined.

Example bounding_rectangle_sample :
  (∃ r0 c0 r1 c1,
     @min_row with_four_arguments (sample_sheet sample_cells) = Ret r0 ∧ least [6; 12] r0
     ∧ @min_column with_four_arguments (sample_sheet sample_cells) = Ret c0 ∧ least [3; 9] c0
     ∧ @max_row with_four_arguments (sample_sheet sample_cells) = Ret r1 ∧ greatest [6; 12] r1
     ∧ @max_column with_four_arguments (sample_sheet sample_cells) = Ret c1
     ∧ greatest [3; 9] c1
     ∧ @calculate_dimension with_four_arguments (sample_sheet sample_cells)
       = Ret (r0, c0, r1, c1)
     ∧ (get_non_empty_cells (sample_sheet sample_cells) = [] →
        (r0, c0, r1, c1) = (-1, -1, -1, -1)))
  ∧ (∃ m0 m1 m2 m3 m4,
       @min_row as_written (sample_chartsheet sample_cells)
       = Raise (UnsupportedOperationException m0)
       ∧ @min_column as_written (sample_chartsheet sample_cells)
         = Raise (UnsupportedOperationException m1)
       ∧ @max_row as_written (sample_chartsheet sample_cells)
         = Raise (UnsupportedOperationException m2)
       ∧ @max_column as_written (sample_chartsheet sample_cells)
         = Raise (UnsupportedOperationException m3)
       ∧ @calculate_dimension as_written (sample_chartsheet sample_cells)
         = Raise (UnsupportedOperationException m4)).
Proof.
  split.
  - apply (proj1 (@bounding_rectangle_queries with_four_arguments (sample_sheet sample_cells)));
      vm_compute; reflexivity.
  - apply (proj2 (@bounding_rectangle_queries as_written (sample_chartsheet sample_cells))).
    vm_compute. reflexivity.
Qed.

(** ** Compaction before saving (C7) *)

Lemma filter_false_nil {A} (l : list A) : List.filter (λ _, false) l = [].
Proof. by induction l. Qed.

Lemma filter_idem {A} (f : A → bool) (l : list A) :
  List.filter f (List.filter f l) = List.filter f l.
Proof.
  rewrite filter_filter_bool. apply filter_ext_bool. intros x. by destruct (f x).
Qed.

Lemma get_non_empty_cells_idem s :
  get_non_empty_cells (with_cells (get_non_empty_cells s) s) = get_non_empty_cells s.
Proof. unfold get_non_empty_cells, get_cells, xpath. simpl. apply filter_idem. Qed.

Section compaction.
Context `{CellCall}.

(** The run of [_clean_data] up to the first query. *)
Lemma clean_data_loop s :
  _clean_data s
  = (c ← read max_column;
     _ ← modify (with_MaxCol (Some (str_int c)));
     r ← read max_row;
     modify (with_MaxRow (Some (str_int r)))) (with_cells (get_non_empty_cells s) s).
Proof.
  unfold _clean_data. rewrite M_bind_modify.
  cbv beta zeta. unfold get_cells at 1 2.
  by rewrite (clean_loop_cells (cells s)).
Qed.

Lemma clean_data_run s c r :
  max_column (with_cells (get_non_empty_cells s) s) = Ret c →
  max_row (with_cells (get_non_empty_cells s) s) = Ret r →
  _clean_data s
  = (Ret tt, with_MaxRow (Some (str_int r))
               (with_MaxCol (Some (str_int c)) (with_cells (get_non_empty_cells s) s))).
Proof.
  intros Hc Hr. rewrite clean_data_loop.
  rewrite M_bind_read, Hc, M_bind_modify, M_bind_read.
  change (max_row (with_MaxCol ?t ?s1)) with (max_row s1).
  rewrite Hr. reflexivity.
Qed.

(** Where the call [cell.Cell(c, self)] returns: on a regular sheet
    whose non-empty cells carry decimal coordinates, [_clean_data]
    returns; it leaves exactly the non-empty cells, unchanged and in their
    order, records as MaxRow and MaxCol the greatest row and column of
    these cells (-1 when there is none), and a second run changes
    nothing. *)
Lemma clean_data_compacts s rows cols :
  Cell_call = Ret tt →
  sheet_type s = None →
  mapM row (get_non_empty_cells s) = Ret rows →
  mapM column (get_non_empty_cells s) = Ret cols →
  ∃ s' r c,
    _clean_data s = (Ret tt, s')
    ∧ cells s' = List.filter (λ c, bool_decide (¬ spec_empty c)) (cells s)
    ∧ get_empty_cells s' = []
    ∧ get_non_empty_cells s' = get_non_empty_cells s
    ∧ max_row s' = Ret r ∧ greatest rows r ∧ MaxRow s' = Some (str_int r)
    ∧ max_column s' = Ret c ∧ greatest cols c ∧ MaxCol s' = Some (str_int c)
    ∧ _clean_data s' = (Ret tt, s').
Proof.
  intros Hcall Hreg%is_object_regular Hrows Hcols.
  set (s1 := with_cells (get_non_empty_cells s) s).
  pose proof (get_non_empty_cells_idem s) as Hne. fold s1 in Hne.
  assert (Hreg1 : is_object s1 = false) by exact Hreg.
  destruct (max_row_regular s1 rows Hcall Hreg1) as (r & Hr & Pr); [by rewrite Hne|].
  destruct (max_column_regular s1 cols Hcall Hreg1) as (c & Hc & Pc); [by rewrite Hne|].
  set (s' := with_MaxRow (Some (str_int r)) (with_MaxCol (Some (str_int c)) s1)).
  assert (Hne' : get_non_empty_cells s' = get_non_empty_cells s) by exact Hne.
  exists s', r, c. split; [by apply clean_data_run|].
  split; [by rewrite <-get_non_empty_cells_spec|].
  split.
  { unfold get_empty_cells, get_cells, xpath. change (cells s') with (get_non_empty_cells s).
    unfold get_non_empty_cells, xpath. rewrite filter_filter_bool.
    rewrite (filter_ext_bool _ (λ _, false)).
    - apply filter_false_nil.
    - intros x. cbn [holds]. by destruct (holds EMPTY_CELL_XPATH_SELECTOR x). }
  split; [exact Hne'|].
  split; [exact Hr|]. split; [exact Pr|]. split; [reflexivity|].
  split; [exact Hc|]. split; [exact Pc|]. split; [reflexivity|].
  assert (Hs' : with_cells (get_non_empty_cells s') s' = s') by (by rewrite Hne').
  rewrite (clean_data_run s' c r).
  - rewrite Hs'. reflexivity.
  - rewrite Hs'. exact Hc.
  - rewrite Hs'. exact Hr.
Qed.

End compaction.

(** C7.  With [cell.Cell(c, self)] as the sources have it, [_clean_data]
    on a regular sheet that has a non-empty cell removes the empty cells
    and then raises [TypeError] from the query of the maximum column:
    MaxCol and MaxRow are not rewritten. *)
Theorem clean_data_as_written s :
  sheet_type s = None → get_non_empty_cells s ≠ [] →
  ∃ s',
    @_clean_data as_written s = (Raise TypeError, s')
    ∧ cells s' = List.filter (λ c, bool_decide (¬ spec_empty c)) (cells s)
    ∧ MaxCol s' = MaxCol s ∧ MaxRow s' = MaxRow s.
Proof.
  intros Hreg Hdata. exists (with_cells (get_non_empty_cells s) s).
  split; [|split; [by rewrite <-get_non_empty_cells_spec|done]].
  rewrite clean_data_loop, M_bind_read.
  destruct (queries_as_written (with_cells (get_non_empty_cells s) s))
    as (_ & _ & _ & Hmax & _);
    [by apply is_object_regular|by rewrite get_non_empty_cells_idem|].
  by rewrite Hmax.
Qed.

Lemma clean_data_as_written_witness :
  ∃ s',
    @_clean_data as_written (sample_sheet sample_cells) = (Raise TypeError, s')
    ∧ cells s' = List.filter (λ c, bool_decide (¬ spec_empty c)) sample_cells
    ∧ MaxCol s' = Some "-1" ∧ MaxRow s' = Some "-1".
Proof.
  apply (clean_data_as_written (sample_sheet sample_cells)); [reflexivity|].
  vm_compute. discriminate.
Defined.

Example clean_data_sample :
  @_clean_data with_four_arguments (sample_sheet sample_cells)
  = (Ret tt,
     {| ident := SheetIdent 0 0 0; ns_gnm := gnm;
        sheet_name := sheet_name (sample_sheet []);
        cells := [ sample_cell "6" "3" (Some "30") None (Some "42");
                   sample_cell "12" "9" (Some "60") None (Some "total") ];
        MaxCol := Some "9"; MaxRow := Some "12" |})
  ∧ ∃ s' r c,
      @_clean_data with_four_arguments (sample_sheet sample_cells) = (Ret tt, s')
      ∧ cells s' = List.filter (λ c, bool_decide (¬ spec_empty c)) sample_cells
      ∧ get_empty_cells s' = []
      ∧ get_non_empty_cells s' = get_non_empty_cells (sample_sheet sample_cells)
      ∧ @max_row with_four_arguments s' = Ret r ∧ greatest [6; 12] r
      ∧ MaxRow s' = Some (str_int r)
      ∧ @max_column with_four_arguments s' = Ret c ∧ greatest [3; 9] c
      ∧ MaxCol s' = Some (str_int c)
      ∧ @_clean_data with_four_arguments s' = (Ret tt, s').
Proof.
  split; [vm_compute; reflexivity|].
  apply (@clean_data_compacts with_four_arguments (sample_sheet sample_cells));
    vm_compute; reflexivity.
Qed.

(** On a chart sheet the empty cells are removed before the query of
    the maximum column raises. *)
Example clean_data_chartsheet :
  @_clean_data as_written (sample_chartsheet sample_cells)
  = (Raise (UnsupportedOperationException "Chartsheet does not have max column"),
     with_cells [ sample_cell "6" "3" (Some "30") None (Some "42");
                  sample_cell "12" "9" (Some "60") None (Some "total") ]
                (sample_chartsheet sample_cells)).
Proof. vm_compute. reflexivity. Qed.

(** ** Addressing a cell (C3) *)

Lemma holds_at_position row col c :
  holds (And (AttrEq "Row" (str_int row)) (AttrEq "Col" (str_int col))) c = true
  ↔ at_position row col c.
Proof.
  unfold at_position. cbn [holds].
  by rewrite andb_true_iff, !bool_decide_eq_true.
Qed.

Lemma at_position_coordinate r k c :
  at_position r k c → coordinate c = Ret (r, k).
Proof.
  intros [Hr Hc]. unfold coordinate, row, column. rewrite Hr, Hc. simpl.
  by rewrite !int_str_str_int.
Qed.

Lemma get_NEW_CELL row col t :
  get (NEW_CELL row col t) "Row" = Some (str_int row)
  ∧ get (NEW_CELL row col t) "Col" = Some (str_int col)
  ∧ get (NEW_CELL row col t) "ValueType" = Some (str_int t)
  ∧ get (NEW_CELL row col t) "ExprID" = None.
Proof. unfold get, NEW_CELL. simpl. by simplify_map_eq. Qed.

Lemma NEW_CELL_empty row col :
  at_position row col (NEW_CELL row col VALUE_TYPE_EMPTY)
  ∧ coordinate (NEW_CELL row col VALUE_TYPE_EMPTY) = Ret (row, col)
  ∧ value_type (NEW_CELL row col VALUE_TYPE_EMPTY) = Ret VALUE_TYPE_EMPTY
  ∧ text (NEW_CELL row col VALUE_TYPE_EMPTY) = None.
Proof.
  destruct (get_NEW_CELL row col VALUE_TYPE_EMPTY) as (Hr & Hc & Ht & He).
  assert (Hpos : at_position row col (NEW_CELL row col VALUE_TYPE_EMPTY)) by done.
  split; [done|]. split; [by apply at_position_coordinate|]. split; [|done].
  unfold value_type. rewrite Ht. apply int_str_str_int.
Qed.

Lemma is_valid_row_spec s row_idx R :
  max_allowed_row s = Ret R →
  is_valid_row s row_idx = Ret (bool_decide (0 ≤ row_idx ≤ R)).
Proof.
  intros HR. unfold is_valid_row. rewrite HR. simpl.
  destruct (Z.leb_spec 0 row_idx); simpl; f_equal.
  - destruct (Z.leb_spec row_idx R).
    + rewrite bool_decide_eq_true_2; [done|lia].
    + rewrite bool_decide_eq_false_2; [done|lia].
  - rewrite bool_decide_eq_false_2; [done|lia].
Qed.

Lemma is_valid_column_spec s col_idx C :
  max_allowed_column s = Ret C →
  is_valid_column s col_idx = Ret (bool_decide (0 ≤ col_idx ≤ C)).
Proof.
  intros HC. unfold is_valid_column. rewrite HC. simpl.
  destruct (Z.leb_spec 0 col_idx); simpl; f_equal.
  - destruct (Z.leb_spec col_idx C).
    + rewrite bool_decide_eq_true_2; [done|lia].
    + rewrite bool_decide_eq_false_2; [done|lia].
  - rewrite bool_decide_eq_false_2; [done|lia].
Qed.

Lemma find_at_position_None s row_idx col_idx :
  (∀ c, c ∈ cells s → ¬ at_position row_idx col_idx c) →
  find (And (AttrEq "Row" (str_int row_idx)) (AttrEq "Col" (str_int col_idx))) (cells s)
  = None.
Proof.
  intros Hnone. apply list_find_None, Forall_forall. intros c Hc Hholds.
  by apply (Hnone c Hc), holds_at_position.
Qed.

Lemma find_at_position_Some s row_idx col_idx i c :
  cells s !! i = Some c → at_position row_idx col_idx c →
  (∀ j c', cells s !! j = Some c' → (j < i)%nat → ¬ at_position row_idx col_idx c') →
  find (And (AttrEq "Row" (str_int row_idx)) (AttrEq "Col" (str_int col_idx))) (cells s)
  = Some (i, c).
Proof.
  intros Hi Hpos Hfirst. apply list_find_Some.
  split; [done|]. split; [by apply holds_at_position|].
  intros j c' Hj Hlt Hholds. by apply (Hfirst j c' Hj Hlt), holds_at_position.
Qed.

Section addressing.
Context `{CellCall}.

(** What [cell] does once both indices are within bounds. *)
Lemma cell_in_bounds s row_idx col_idx create R C :
  max_allowed_row s = Ret R → max_allowed_column s = Ret C →
  0 ≤ row_idx ≤ R → 0 ≤ col_idx ≤ C →
  cell row_idx col_idx create s
  = match find (And (AttrEq "Row" (str_int row_idx)) (AttrEq "Col" (str_int col_idx)))
               (cells s) with
    | Some (i, _) => (Cell_of i, s)
    | None =>
        if create then
          (Cell_of (length (cells s)),
           with_cells (cells s ++ [NEW_CELL row_idx col_idx VALUE_TYPE_EMPTY]) s)
        else (Raise (IndexError ("No cell exists at position (" ++ str_int row_idx
                                 ++ ", " ++ str_int col_idx ++ ")")), s)
    end.
Proof.
  intros HR HC Hrow Hcol. unfold cell.
  rewrite M_bind_read, (is_valid_row_spec _ _ _ HR), bool_decide_eq_true_2 by done.
  cbn [negb]. rewrite M_bind_read, (is_valid_column_spec _ _ _ HC),
    bool_decide_eq_true_2 by done.
  cbn [negb]. rewrite M_bind_read. unfold get_cells.
  destruct (find _ (cells s)) as [[i c]|]; [done|]. by destruct create.
Qed.

(** With the bounds of the sheet readable: an index out of bounds
    raises [IndexError] and leaves the tree as it was; within bounds, when
    no cell carries the position, [create=False] raises [IndexError] and
    leaves the tree as it was.  Where the call [cell.Cell(cell_found,
    self)] returns, [create=True] appends one new cell of type EMPTY at
    the position and returns it, and when cells carry the position, the
    first of them is returned and the tree is as it was. *)
Lemma cell_addressing s row_idx col_idx create R C :
  max_allowed_row s = Ret R →
  max_allowed_column s = Ret C →
  (¬ (0 ≤ row_idx ≤ R ∧ 0 ≤ col_idx ≤ C) →
   ∃ msg, cell row_idx col_idx create s = (Raise (IndexError msg), s))
  ∧ (0 ≤ row_idx ≤ R → 0 ≤ col_idx ≤ C →
     (∀ c, c ∈ cells s → ¬ at_position row_idx col_idx c) →
     if create then
       Cell_call = Ret tt →
       ∃ new_cell,
         cell row_idx col_idx create s
         = (Ret (length (cells s)), with_cells (cells s ++ [new_cell]) s)
         ∧ (with_cells (cells s ++ [new_cell]) s).(cells) !! length (cells s) = Some new_cell
         ∧ at_position row_idx col_idx new_cell
         ∧ coordinate new_cell = Ret (row_idx, col_idx)
         ∧ value_type new_cell = Ret VALUE_TYPE_EMPTY
         ∧ text new_cell = None
     else
       ∃ msg, cell row_idx col_idx create s = (Raise (IndexError msg), s))
  ∧ (Cell_call = Ret tt → 0 ≤ row_idx ≤ R → 0 ≤ col_idx ≤ C →
     ∀ i c, cells s !! i = Some c → at_position row_idx col_idx c →
       (∀ j c', cells s !! j = Some c' → (j < i)%nat → ¬ at_position row_idx col_idx c') →
       cell row_idx col_idx create s = (Ret i, s)).
Proof.
  intros HR HC. split; [|split].
  - intros Hout. unfold cell.
    rewrite M_bind_read, (is_valid_row_spec _ _ _ HR).
    destruct (decide (0 ≤ row_idx ≤ R)) as [Hrow|Hrow].
    + rewrite bool_decide_eq_true_2 by done. cbn [negb].
      rewrite M_bind_read, (is_valid_column_spec _ _ _ HC).
      rewrite bool_decide_eq_false_2 by tauto. cbn [negb].
      rewrite M_bind_read, HC. by eexists.
    + rewrite bool_decide_eq_false_2 by done. cbn [negb].
      rewrite M_bind_read, HR. by eexists.
  - intros Hrow Hcol Hnone. rewrite (cell_in_bounds _ _ _ _ R C) by done.
    rewrite (find_at_position_None _ _ _ Hnone).
    destruct create; [|by eexists]. intros Hcall.
    exists (NEW_CELL row_idx col_idx VALUE_TYPE_EMPTY).
    split; [unfold Cell_of; by rewrite Hcall|].
    split; [|apply NEW_CELL_empty].
    cbn [cells with_cells]. by rewrite lookup_app_r, Nat.sub_diag.
  - intros Hcall Hrow Hcol i c Hi Hpos Hfirst.
    rewrite (cell_in_bounds _ _ _ _ R C) by done.
    rewrite (find_at_position_Some _ _ _ i c Hi Hpos Hfirst).
    unfold Cell_of. by rewrite Hcall.
Qed.

End addressing.

(** C3.  With [cell.Cell(cell_found, self)] as the sources have it and
    both indices within bounds: when no cell carries the position,
    [create=True] appends the new cell of type EMPTY and then raises
    [TypeError] instead of returning it; when a cell carries the position,
    the call raises [TypeError] instead of returning the cell. *)
Theorem cell_as_written s row_idx col_idx create R C :
  max_allowed_row s = Ret R →
  max_allowed_column s = Ret C →
  0 ≤ row_idx ≤ R → 0 ≤ col_idx ≤ C →
  ((∀ c, c ∈ cells s → ¬ at_position row_idx col_idx c) →
   @cell as_written row_idx col_idx true s
   = (Raise TypeError,
      with_cells (cells s ++ [NEW_CELL row_idx col_idx VALUE_TYPE_EMPTY]) s))
  ∧ (∀ i c, cells s !! i = Some c → at_position row_idx col_idx c →
       (∀ j c', cells s !! j = Some c' → (j < i)%nat → ¬ at_position row_idx col_idx c') →
       @cell as_written row_idx col_idx create s = (Raise TypeError, s)).
Proof.
  intros HR HC Hrow Hcol. split.
  - intros Hnone. rewrite (@cell_in_bounds as_written _ _ _ _ R C) by done.
    by rewrite (find_at_position_None _ _ _ Hnone).
  - intros i c Hi Hpos Hfirst. rewrite (@cell_in_bounds as_written _ _ _ _ R C) by done.
    by rewrite (find_at_position_Some _ _ _ i c Hi Hpos Hfirst).
Qed.

Lemma sample_cells_free_position c :
  c ∈ sample_cells → ¬ at_position 0 0 c.
Proof.
  intros Hc [Hr _]. unfold sample_cells in Hc.
  repeat (apply elem_of_cons in Hc as [->|Hc]); try (vm_compute in Hr; discriminate Hr).
  by apply elem_of_nil in Hc.
Qed.

Lemma sample_cells_first_at_12_9 j c' :
  sample_cells !! j = Some c' → (j < 2)%nat → ¬ at_position 12 9 c'.
Proof.
  intros Hj Hlt [Hr _].
  destruct j as [|[|j]]; [| |lia]; injection Hj as <-; vm_compute in Hr; discriminate Hr.
Qed.

Lemma cell_as_written_witness :
  @cell as_written 0 0 true (sample_sheet sample_cells)
  = (Raise TypeError,
     with_cells (sample_cells ++ [NEW_CELL 0 0 VALUE_TYPE_EMPTY]) (sample_sheet sample_cells))
  ∧ @cell as_written 12 9 true (sample_sheet sample_cells)
    = (Raise TypeError, sample_sheet sample_cells).
Proof.
  assert (HR : max_allowed_row (sample_sheet sample_cells) = Ret 65535) by reflexivity.
  assert (HC : max_allowed_column (sample_sheet sample_cells) = Ret 255) by reflexivity.
  split.
  - apply (proj1 (cell_as_written _ 0 0 true _ _ HR HC ltac:(lia) ltac:(lia))).
    exact sample_cells_free_position.
  - apply (proj2 (cell_as_written _ 12 9 true _ _ HR HC ltac:(lia) ltac:(lia))
             2%nat (sample_cell "12" "9" (Some "60") None (Some "total")));
      [reflexivity|split; reflexivity|exact sample_cells_first_at_12_9].
Defined.

Example cell_addressing_sample :
  (∃ msg, @cell as_written 70000 0 true (sample_sheet sample_cells)
          = (Raise (IndexError msg), sample_sheet sample_cells))
  ∧ (∃ msg, @cell as_written 0 0 false (sample_sheet sample_cells)
            = (Raise (IndexError msg), sample_sheet sample_cells))
  ∧ (∃ new_cell,
       @cell with_four_arguments 0 0 true (sample_sheet sample_cells)
       = (Ret 3%nat, with_cells (sample_cells ++ [new_cell]) (sample_sheet sample_cells))
       ∧ (sample_cells ++ [new_cell])%list !! 3%nat = Some new_cell
       ∧ at_position 0 0 new_cell
       ∧ coordinate new_cell = Ret (0, 0)
       ∧ value_type new_cell = Ret VALUE_TYPE_EMPTY
       ∧ text new_cell = None)
  ∧ @cell with_four_arguments 12 9 true (sample_sheet sample_cells)
    = (Ret 2%nat, sample_sheet sample_cells).
Proof.
  assert (HR : max_allowed_row (sample_sheet sample_cells) = Ret 65535) by reflexivity.
  assert (HC : max_allowed_column (sample_sheet sample_cells) = Ret 255) by reflexivity.
  split; [|split; [|split]].
  - apply (proj1 (@cell_addressing as_written _ 70000 0 true _ _ HR HC)). lia.
  - apply (proj1 (proj2 (@cell_addressing as_written _ 0 0 false _ _ HR HC))); [lia|lia|].
    exact sample_cells_free_position.
  - apply (proj1 (proj2 (@cell_addressing with_four_arguments _ 0 0 true _ _ HR HC)));
      [lia|lia|exact sample_cells_free_position|reflexivity].
  - apply (proj2 (proj2 (@cell_addressing with_four_arguments _ 12 9 true _ _ HR HC))
             eq_refl ltac:(lia) ltac:(lia) 2%nat
             (sample_cell "12" "9" (Some "60") None (Some "total")));
      [reflexivity|split; reflexivity|exact sample_cells_first_at_12_9].
Qed.

(** ** The type of a cell (C5) *)

Lemma value_type_tagged c tag :
  get c "ValueType" = Some tag → value_type c = int_str tag.
Proof. intros Htag. unfold value_type. by rewrite Htag. Qed.

Lemma value_type_expression_id c i :
  get c "ValueType" = None → get c "ExprID" = Some i →
  value_type c = Ret VALUE_TYPE_EXPR.
Proof. intros Htag Hid. unfold value_type. by rewrite Htag, Hid. Qed.

Lemma value_type_formula c t :
  get c "ValueType" = None → text c = Some (String "=" t) →
  value_type c = Ret VALUE_TYPE_EXPR.
Proof.
  intros Htag Ht. unfold value_type. rewrite Htag, Ht.
  by destruct (get c "ExprID").
Qed.

Lemma value_type_unrecognized c t :
  get c "ValueType" = None → get c "ExprID" = None →
  text c = Some t → startswith_eq t = false →
  value_type c = Raise UnrecognizedCellTypeException.
Proof. intros Htag Hid Ht Hs. unfold value_type. by rewrite Htag, Hid, Ht, Hs. Qed.

(** C5. A cell without type tag, without expression id and without
    text: reading its type ends in [AttributeError] (the text is [None]
    and has no [startswith]), not in
    [UnrecognizedCellTypeException]. *)
Theorem value_type_without_text c :
  get c "ValueType" = None → get c "ExprID" = None → text c = None →
  value_type c = Raise AttributeError
  ∧ value_type c ≠ Raise UnrecognizedCellTypeException.
Proof.
  intros Htag Hid Ht. unfold value_type. by rewrite Htag, Hid, Ht.
Qed.

Lemma value_type_without_text_witness :
  value_type (sample_cell "0" "0" None None None) = Raise AttributeError
  ∧ value_type (sample_cell "0" "0" None None None) ≠ Raise UnrecognizedCellTypeException.
Proof. apply value_type_without_text; reflexivity. Defined.

(** ** Storing a value *)

Lemma value_type_set_type t c :
  t ≠ VALUE_TYPE_EXPR → value_type (set_type t c) = Ret t.
Proof.
  intros Ht. unfold set_type. rewrite (proj2 (Z.eqb_neq _ _) Ht).
  unfold value_type, get, set. simpl. rewrite lookup_insert_eq. apply int_str_str_int.
Qed.

Lemma set_type_expr c :
  get (set_type VALUE_TYPE_EXPR c) "ValueType" = None
  ∧ get (set_type VALUE_TYPE_EXPR c) "ExprID" = get c "ExprID"
  ∧ text (set_type VALUE_TYPE_EXPR c) = text c.
Proof.
  unfold set_type. rewrite Z.eqb_refl. case_bool_decide as Htag.
  - unfold get, pop. simpl. rewrite lookup_delete_eq, lookup_delete_ne; done.
  - apply eq_None_not_Some in Htag. done.
Qed.

Lemma text_set_type t c : text (set_type t c) = text c.
Proof.
  unfold set_type. destruct (t =? VALUE_TYPE_EXPR); [|done]. by case_bool_decide.
Qed.

Section cell_properties.
Context `{ExpressionClass}.

Lemma update_run s self c f :
  cells s !! self = Some c →
  update self f s = (Ret tt, with_cells (alter f self (cells s)) s).
Proof.
  intros Hc. unfold update. rewrite M_bind_read. unfold element_of. by rewrite Hc.
Qed.

Lemma update_inv s self f r s' :
  update self f s = (r, s') →
  (∃ c, cells s !! self = Some c ∧ r = Ret tt
        ∧ s' = with_cells (alter f self (cells s)) s)
  ∨ (cells s !! self = None ∧ r = Raise DetachedElement ∧ s' = s).
Proof.
  unfold update. rewrite M_bind_read. unfold element_of.
  destruct (cells s !! self) as [c|] eqn:Hc; intros [= <- <-]; [left|right]; eauto.
Qed.

(** The text setter on a cell that is in the tree. *)
Lemma assign_text_run s self c t :
  cells s !! self = Some c → accepted t = true →
  assign_text self t s = (Ret tt, with_cells (alter (set_text t) self (cells s)) s).
Proof.
  intros Hc Ht. unfold assign_text.
  rewrite (M_bind_ret _ _ _ _ _ (update_run s self c (set_text None) Hc)).
  destruct t as [txt|]; [|done]. cbn [accepted] in Ht. rewrite Ht.
  rewrite (update_run _ self (set_text None c)).
  - unfold with_cells. cbn [cells ident ns_gnm sheet_name MaxCol MaxRow].
    by rewrite list_alter_alter_eq.
  - cbn [cells with_cells]. by rewrite list_lookup_alter_eq, Hc.
Qed.

(** A string that is not XML compatible costs the cell its text. *)
Lemma assign_text_refused s self c txt :
  cells s !! self = Some c → xml_compatible txt = false →
  assign_text self (Some txt) s
  = (Raise ValueError, with_cells (alter (set_text None) self (cells s)) s).
Proof.
  intros Hc Ht. unfold assign_text.
  rewrite (M_bind_ret _ _ _ _ _ (update_run s self c (set_text None) Hc)).
  by rewrite Ht.
Qed.

Lemma assign_text_detached s self t :
  cells s !! self = None → assign_text self t s = (Raise DetachedElement, s).
Proof.
  intros Hc. unfold assign_text. apply M_bind_raise.
  unfold update. rewrite M_bind_read. unfold element_of. by rewrite Hc.
Qed.

(** The text [set_value] hands to the element, in every branch but the
    one of expression objects. *)
Lemma set_value_text s self value t :
  t = VALUE_TYPE_BOOLEAN ∨ t = VALUE_TYPE_EMPTY ∨ t ≠ VALUE_TYPE_EXPR
    ∨ is_expression value = false →
  (if t =? VALUE_TYPE_BOOLEAN
   then assign_text self (Some (upper (str_bool (truthy value))))
   else if t =? VALUE_TYPE_EMPTY then assign_text self None
   else match value with
        | VExpr e => if t =? VALUE_TYPE_EXPR then set_expression self e
                     else txt ← read (λ _, str value); assign_text self (Some txt)
        | _ => txt ← read (λ _, str value); assign_text self (Some txt)
        end) s
  = match stored_text t value with
    | Ret txt => assign_text self txt s
    | Raise e => (Raise e, s)
    end.
Proof.
  intros Hbranch. unfold stored_text.
  destruct (t =? VALUE_TYPE_BOOLEAN) eqn:Hb; [done|].
  destruct (t =? VALUE_TYPE_EMPTY) eqn:He; [done|].
  assert (Hstr : (txt ← read (λ _, str value); assign_text self (Some txt)) s
                 = match Some <$> str value with
                   | Ret txt => assign_text self txt s
                   | Raise e => (Raise e, s)
                   end).
  { rewrite M_bind_read. by destruct (str value). }
  destruct value; try exact Hstr.
  destruct (t =? VALUE_TYPE_EXPR) eqn:Hx; [|exact Hstr].
  apply Z.eqb_eq in Hx. apply Z.eqb_neq in Hb, He.
  destruct Hbranch as [?|[?|[?|?]]]; done.
Qed.

(** Every branch but the one of expression objects writes the text
    and then the type. *)
Lemma set_value_plain s self c value arg t txt :
  cells s !! self = Some c →
  resolve c value arg = Ret t →
  t = VALUE_TYPE_BOOLEAN ∨ t = VALUE_TYPE_EMPTY ∨ t ≠ VALUE_TYPE_EXPR
    ∨ is_expression value = false →
  stored_text t value = Ret txt → accepted txt = true →
  set_value self value arg s
  = (Ret tt, with_cells (alter (set_type t ∘ set_text txt) self (cells s)) s).
Proof.
  intros Hc Ht Hbranch Htxt Hok. unfold set_value.
  rewrite M_bind_read. unfold element_of at 1. rewrite Hc.
  rewrite M_bind_read, Ht.
  rewrite (M_bind_ret _ _ s tt (with_cells (alter (set_text txt) self (cells s)) s)).
  - rewrite (update_run _ self (set_text txt c)).
    + cbn [cells with_cells]. by rewrite list_alter_alter_eq.
    + cbn [cells with_cells]. by rewrite list_lookup_alter_eq, Hc.
  - rewrite set_value_text, Htxt by done. by apply (assign_text_run s self c).
Qed.

(** The same branches when the text cannot be written: [str] raises
    before the element is touched; a string that is not XML compatible
    costs the cell its text, and the type is not written. *)
Lemma set_value_plain_raises s self c value arg t :
  cells s !! self = Some c →
  resolve c value arg = Ret t →
  t = VALUE_TYPE_BOOLEAN ∨ t = VALUE_TYPE_EMPTY ∨ t ≠ VALUE_TYPE_EXPR
    ∨ is_expression value = false →
  (∀ e, stored_text t value = Raise e → set_value self value arg s = (Raise e, s))
  ∧ (∀ txt, stored_text t value = Ret (Some txt) → xml_compatible txt = false →
       set_value self value arg s
       = (Raise ValueError, with_cells (alter (set_text None) self (cells s)) s)).
Proof.
  intros Hc Ht Hbranch. split.
  - intros e He. unfold set_value.
    rewrite M_bind_read. unfold element_of at 1. rewrite Hc.
    rewrite M_bind_read, Ht. apply M_bind_raise. by rewrite set_value_text, He.
  - intros txt Htxt Hbad. unfold set_value.
    rewrite M_bind_read. unfold element_of at 1. rewrite Hc.
    rewrite M_bind_read, Ht. apply M_bind_raise.
    rewrite set_value_text, Htxt by done. by apply (assign_text_refused s self c).
Qed.

(** Whatever branch was taken, a call that returns has resolved the
    type and written it last. *)
Lemma set_value_inv s self value arg s' :
  set_value self value arg s = (Ret tt, s') →
  ∃ c t c1,
    cells s !! self = Some c ∧ resolve c value arg = Ret t
    ∧ cells s' !! self = Some (set_type t c1).
Proof.
  unfold set_value. rewrite M_bind_read. unfold element_of at 1.
  destruct (cells s !! self) as [c|] eqn:Hc; [|done].
  rewrite M_bind_read. destruct (resolve c value arg) as [t|] eqn:Ht; [|done].
  unfold mbind at 1, M_bind at 1.
  match goal with |- context [match ?m s with _ => _ end] => destruct (m s) as [[[]|e] s1] end;
    [|done].
  intros Hup. apply update_inv in Hup as [(c1 & Hc1 & _ & ->)|(_ & [=] & _)].
  exists c, t, c1. split; [done|]. split; [done|].
  cbn [cells with_cells]. by rewrite list_lookup_alter_eq, Hc1.
Qed.

End cell_properties.

Section value_properties.
Context `{ExpressionClass}.

(** *** Booleans are stored in upper case (C4) *)

(** C4, as the code has it.  Whenever [set_value] resolves the type to
    BOOLEAN the call returns and the text of the cell is ["TRUE"] for a
    truthy value and ["FALSE"] otherwise. *)
Theorem set_value_boolean_text s self c value arg :
  cells s !! self = Some c →
  resolve c value arg = Ret VALUE_TYPE_BOOLEAN →
  ∃ s' c',
    set_value self value arg s = (Ret tt, s')
    ∧ cells s' !! self = Some c'
    ∧ text c' = Some (if truthy value then "TRUE" else "FALSE")
    ∧ value_type c' = Ret VALUE_TYPE_BOOLEAN.
Proof.
  intros Hc Ht. eexists _, _. split; [|split; [|split]].
  - apply (set_value_plain s self c _ _ VALUE_TYPE_BOOLEAN
             (Some (upper (str_bool (truthy value)))));
      [done|done|by left|done|by destruct (truthy value)].
  - cbn [cells with_cells]. by rewrite list_lookup_alter_eq, Hc.
  - cbn [compose]. rewrite text_set_type. cbn [text set_text].
    by destruct (truthy value).
  - by apply value_type_set_type.
Qed.

(** *** Scalars read back (C8, C9) *)

Lemma get_value_stored s self c t txt :
  cells s !! self = Some c →
  t ≠ VALUE_TYPE_EXPR →
  get_value self (with_cells (alter (set_type t ∘ set_text txt) self (cells s)) s)
  = (if t =? VALUE_TYPE_BOOLEAN then Ret (VBool (text_bool txt))
     else if t =? VALUE_TYPE_INTEGER then VInt <$> int_opt txt
     else if t =? VALUE_TYPE_FLOAT then VFloat <$> float_opt txt
     else Ret (match txt with Some v => VStr v | None => VNone end)).
Proof.
  intros Hc Ht. unfold get_value, element_of. cbn [cells with_cells].
  rewrite list_lookup_alter_eq, Hc. cbn [fmap option_fmap option_map compose mbind res_bind].
  rewrite value_type_set_type by done. rewrite text_set_type. cbn [text set_text].
  change (Ret t ≫= ?k) with (k t). cbv beta.
  rewrite (proj2 (Z.eqb_neq _ _) Ht). reflexivity.
Qed.

(** C8. In any cell, [set_value] of [True], of [10] and of [10.0] with
    the type inferred returns, and [get_value] then returns the value
    that was set. *)
Theorem scalar_round_trip s self c x :
  cells s !! self = Some c →
  x = VBool true ∨ x = VInt 10 ∨ x = VFloat ten →
  ∃ s', set_value self x Infer s = (Ret tt, s') ∧ get_value self s' = Ret x.
Proof.
  intros Hc Hx. destruct Hx as [->|[->| ->]].
  - eexists. split.
    + apply (set_value_plain s self c _ _ VALUE_TYPE_BOOLEAN (Some "TRUE"));
        [done|done|by left|done|done].
    + by rewrite (get_value_stored s self c).
  - eexists. split.
    + apply (set_value_plain s self c _ _ VALUE_TYPE_INTEGER (Some "10"));
        [done|done| |done|done].
      right; right; by left.
    + by rewrite (get_value_stored s self c).
  - eexists. split.
    + apply (set_value_plain s self c _ _ VALUE_TYPE_FLOAT (Some "10.0"));
        [done|done| |vm_compute; reflexivity|done].
      right; right; by left.
    + rewrite (get_value_stored s self c) by done. vm_compute. reflexivity.
Qed.

(** C9. In any cell, [set_value(False)] with the type inferred returns
    and stores the text ["FALSE"] with type BOOLEAN; [get_value] then
    returns [True], since the text is not empty. *)
Theorem false_reads_back_true s self c :
  cells s !! self = Some c →
  ∃ s' c',
    set_value self (VBool false) Infer s = (Ret tt, s')
    ∧ cells s' !! self = Some c'
    ∧ text c' = Some "FALSE"
    ∧ value_type c' = Ret VALUE_TYPE_BOOLEAN
    ∧ get_value self s' = Ret (VBool true).
Proof.
  intros Hc. eexists _, _. split; [|split; [|split; [|split]]].
  - apply (set_value_plain s self c _ _ VALUE_TYPE_BOOLEAN (Some "FALSE"));
      [done|done|by left|done|done].
  - cbn [cells with_cells]. by rewrite list_lookup_alter_eq, Hc.
  - cbn [compose]. by rewrite text_set_type.
  - by apply value_type_set_type.
  - by rewrite (get_value_stored s self c).
Qed.

End value_properties.

Lemma set_value_boolean_text_witness :
  ∃ s' c',
    @set_value sample_expression_class 1%nat (VStr "yes") (Explicit VALUE_TYPE_BOOLEAN)
      (sample_sheet sample_cells) = (Ret tt, s')
    ∧ cells s' !! 1%nat = Some c'
    ∧ text c' = Some "TRUE"
    ∧ value_type c' = Ret VALUE_TYPE_BOOLEAN.
Proof.
  apply (@set_value_boolean_text sample_expression_class (sample_sheet sample_cells) 1%nat
           (sample_cell "2" "1" (Some "10") None None) (VStr "yes")
           (Explicit VALUE_TYPE_BOOLEAN)); reflexivity.
Defined.

(** C4 as the specification words it fails: [True] is stored as
    ["TRUE"], not as ["True"]. *)
Lemma boolean_text_is_not_capitalised :
  ∃ s' c',
    @set_value sample_expression_class 1%nat (VBool true) Infer (sample_sheet sample_cells)
    = (Ret tt, s')
    ∧ cells s' !! 1%nat = Some c'
    ∧ value_type c' = Ret VALUE_TYPE_BOOLEAN
    ∧ text c' = Some "TRUE"
    ∧ text c' ≠ Some "True".
Proof. eexists _, _. repeat split; vm_compute; (reflexivity || discriminate). Qed.

Lemma scalar_round_trip_witness :
  (∃ s', @set_value sample_expression_class 1%nat (VBool true) Infer (sample_sheet sample_cells)
         = (Ret tt, s')
         ∧ get_value 1%nat s' = Ret (VBool true))
  ∧ (∃ s', @set_value sample_expression_class 1%nat (VInt 10) Infer (sample_sheet sample_cells)
           = (Ret tt, s')
           ∧ get_value 1%nat s' = Ret (VInt 10))
  ∧ (∃ s', @set_value sample_expression_class 1%nat (VFloat ten) Infer
             (sample_sheet sample_cells) = (Ret tt, s')
           ∧ get_value 1%nat s' = Ret (VFloat ten)).
Proof.
  split; [|split];
    apply (@scalar_round_trip sample_expression_class (sample_sheet sample_cells) 1%nat
             (sample_cell "2" "1" (Some "10") None None)); try reflexivity.
  - left; reflexivity.
  - right; left; reflexivity.
  - right; right; reflexivity.
Defined.

Lemma false_reads_back_true_witness :
  ∃ s' c',
    @set_value sample_expression_class 1%nat (VBool false) Infer (sample_sheet sample_cells)
    = (Ret tt, s')
    ∧ cells s' !! 1%nat = Some c'
    ∧ text c' = Some "FALSE"
    ∧ value_type c' = Ret VALUE_TYPE_BOOLEAN
    ∧ get_value 1%nat s' = Ret (VBool true).
Proof.
  apply (@false_reads_back_true sample_expression_class (sample_sheet sample_cells) 1%nat
           (sample_cell "2" "1" (Some "10") None None)). reflexivity.
Defined.

(** ** Inferring the type (C1) *)

Lemma infer_priority c value :
  infer c value
  = if is_plain_string value then priority_table value <$> value_type c
    else Ret (priority_table value 0).
Proof.
  destruct value as [b|n|x|[|a t]| |e]; try reflexivity.
  unfold infer, is_plain_string, priority_table. cbn.
  destruct (Ascii.eqb a "="); [reflexivity|]. cbn.
  destruct (value_type c) as [prior|]; [|reflexivity]. cbn.
  unfold is_scalar_type. by case_bool_decide.
Qed.

Lemma priority_table_prior value prior prior' :
  is_plain_string value = false → priority_table value prior = priority_table value prior'.
Proof.
  destruct value as [b|n|x|[|a t]| |e]; try reflexivity.
  cbn. by destruct (Ascii.eqb a "=").
Qed.

(** A call of [set_value] that returned has handed the element a text
    it takes. *)
Lemma accepted_stored_text `{ExpressionClass} s self c value arg t s' :
  cells s !! self = Some c →
  resolve c value arg = Ret t →
  t = VALUE_TYPE_BOOLEAN ∨ t = VALUE_TYPE_EMPTY ∨ t ≠ VALUE_TYPE_EXPR
    ∨ is_expression value = false →
  set_value self value arg s = (Ret tt, s') →
  ∃ txt, stored_text t value = Ret txt ∧ accepted txt = true.
Proof.
  intros Hc Ht Hbranch Hset.
  destruct (set_value_plain_raises s self c value arg t Hc Ht Hbranch) as [Hstr Hbad].
  destruct (stored_text t value) as [txt|e] eqn:Htxt.
  - exists txt. split; [done|]. destruct txt as [txt|]; [|done].
    cbn [accepted]. destruct (xml_compatible txt) eqn:Hok; [done|].
    rewrite (Hbad txt eq_refl Hok) in Hset. done.
  - rewrite (Hstr e eq_refl) in Hset. done.
Qed.

Section infer_properties.
Context `{ExpressionClass}.

(** C1.  With the type inferred, [set_value] resolves the type by the
    priority table; only a plain string makes it read the prior type of
    the cell.  After a call that returned, the cell has the resolved type
    whenever that type is not EXPR.  A plain string set into a cell that
    has type EXPR by its text alone (a formula typed into it, no type tag,
    no expression id) is where the code parts from the claim: the
    resolved type is the retained EXPR and not STRING, the call returns
    with no type tag written and the string as text, and the type of the
    cell can no longer be read. *)
Theorem set_value_infers_type s self c value :
  cells s !! self = Some c →
  (is_plain_string value = false →
     ∀ prior, infer c value = Ret (priority_table value prior))
  ∧ (∀ prior, value_type c = Ret prior →
       infer c value = Ret (priority_table value prior))
  ∧ (∀ s', set_value self value Infer s = (Ret tt, s') →
       ∃ t c',
         infer c value = Ret t ∧ cells s' !! self = Some c'
         ∧ (t ≠ VALUE_TYPE_EXPR → value_type c' = Ret t)
         ∧ (t = VALUE_TYPE_EXPR →
              get c' "ValueType" = None
              ∧ (is_Some (get c' "ExprID") ∨ (∃ r, value = VStr (String "=" r)) →
                 value_type c' = Ret VALUE_TYPE_EXPR)))
  ∧ (∀ txt r,
       value = VStr txt → is_plain_string value = true → xml_compatible txt = true →
       get c "ValueType" = None → get c "ExprID" = None → text c = Some (String "=" r) →
       value_type c = Ret VALUE_TYPE_EXPR
       ∧ infer c value = Ret VALUE_TYPE_EXPR
       ∧ priority_table value VALUE_TYPE_EXPR = VALUE_TYPE_EXPR
       ∧ ∃ s' c',
           set_value self value Infer s = (Ret tt, s')
           ∧ cells s' !! self = Some c'
           ∧ get c' "ValueType" = None ∧ get c' "ExprID" = None ∧ text c' = Some txt
           ∧ value_type c' = Raise UnrecognizedCellTypeException
           ∧ value_type c' ≠ Ret VALUE_TYPE_EXPR
           ∧ value_type c' ≠ Ret VALUE_TYPE_STRING).
Proof.
  intros Hc. split; [|split; [|split]].
  - intros Hplain prior. rewrite infer_priority, Hplain.
    f_equal. by apply priority_table_prior.
  - intros prior Hprior. rewrite infer_priority, Hprior.
    destruct (is_plain_string value) eqn:Hplain; [done|].
    f_equal. by apply priority_table_prior.
  - intros s' Hset.
    destruct (set_value_inv _ _ _ _ _ Hset) as (c0 & t & c1 & Hc0 & Ht & Hc').
    rewrite Hc in Hc0. injection Hc0 as <-. cbn [resolve] in Ht.
    exists t, (set_type t c1). split; [done|]. split; [done|]. split.
    + intros Hne. by apply value_type_set_type.
    + intros ->. destruct (set_type_expr c1) as (Htag & Hid & Htxt).
      split; [done|]. intros [[i Hi]|[r ->]].
      * by apply (value_type_expression_id _ i).
      * destruct (accepted_stored_text s self c (VStr (String "=" r)) Infer VALUE_TYPE_EXPR s'
                    Hc Ht) as (txt & Hstored & Hok); [by do 3 right|done|].
        injection Hstored as <-.
        rewrite (set_value_plain s self c _ _ VALUE_TYPE_EXPR (Some (String "=" r))) in Hset;
          [|done|done|by do 3 right|done|done].
        injection Hset as <-. cbn [cells with_cells] in Hc'.
        rewrite list_lookup_alter_eq, Hc in Hc'. injection Hc' as Hc'.
        rewrite <-Hc'. apply (value_type_formula _ r); [apply set_type_expr|].
        by rewrite text_set_type.
  - intros txt r -> Hplain Hok Htag Hid Htext.
    assert (Hprior : value_type c = Ret VALUE_TYPE_EXPR) by (by apply (value_type_formula c r)).
    assert (Ht : infer c (VStr txt) = Ret VALUE_TYPE_EXPR).
    { rewrite infer_priority, Hplain, Hprior.
      destruct txt as [|a q]; [done|]. cbn in Hplain. apply negb_true_iff in Hplain.
      cbn. by rewrite Hplain. }
    split; [done|]. split; [done|]. split.
    { destruct txt as [|a q]; [done|]. cbn in Hplain. apply negb_true_iff in Hplain.
      cbn. by rewrite Hplain. }
    eexists _, _. split.
    { apply (set_value_plain s self c _ _ VALUE_TYPE_EXPR (Some txt));
        [done|done|by do 3 right|done|done]. }
    cbn [cells with_cells]. split; [by rewrite list_lookup_alter_eq, Hc|].
    cbn [compose].
    destruct (set_type_expr (set_text (Some txt) c)) as (Htag' & Hid' & Htxt').
    assert (Hraise : value_type (set_type VALUE_TYPE_EXPR (set_text (Some txt) c))
                     = Raise UnrecognizedCellTypeException).
    { apply (value_type_unrecognized _ txt); [done|by rewrite Hid'|by rewrite Htxt'|].
      destruct txt as [|a q]; [done|]. cbn in Hplain. apply negb_true_iff in Hplain.
      cbn. destruct a as [[] [] [] [] [] [] [] []]; try done. }
    split; [done|]. split; [by rewrite Hid'|]. split; [by rewrite Htxt'|].
    split; [done|]. rewrite Hraise. by split.
Qed.

End infer_properties.

Lemma set_value_infers_type_witness :
  value_type formula_cell = Ret VALUE_TYPE_EXPR
  ∧ infer formula_cell (VStr "abc") = Ret VALUE_TYPE_EXPR
  ∧ priority_table (VStr "abc") VALUE_TYPE_EXPR = VALUE_TYPE_EXPR
  ∧ ∃ s' c',
      @set_value sample_expression_class 0%nat (VStr "abc") Infer (sample_sheet [formula_cell])
      = (Ret tt, s')
      ∧ cells s' !! 0%nat = Some c'
      ∧ get c' "ValueType" = None ∧ get c' "ExprID" = None ∧ text c' = Some "abc"
      ∧ value_type c' = Raise UnrecognizedCellTypeException
      ∧ value_type c' ≠ Ret VALUE_TYPE_EXPR
      ∧ value_type c' ≠ Ret VALUE_TYPE_STRING.
Proof.
  apply (proj2 (proj2 (proj2 (@set_value_infers_type sample_expression_class
                                (sample_sheet [formula_cell]) 0%nat formula_cell
                                (VStr "abc") eq_refl)))
           "abc" "1+1"); reflexivity.
Defined.

(** The same from a cell that was created empty: a formula is set into
    it and then a plain string.  The second call resolves to the retained
    type EXPR and returns, and afterwards the type of the cell cannot be
    read. *)
Example plain_string_over_formula :
  ∃ s2 s3 c2 c3,
    @set_value sample_expression_class 0%nat (VStr "=1+1") Infer
      (sample_sheet [NEW_CELL 0 0 VALUE_TYPE_EMPTY]) = (Ret tt, s2)
    ∧ cells s2 !! 0%nat = Some c2
    ∧ value_type c2 = Ret VALUE_TYPE_EXPR
    ∧ infer c2 (VStr "abc") = Ret VALUE_TYPE_EXPR
    ∧ priority_table (VStr "abc") VALUE_TYPE_EXPR = VALUE_TYPE_EXPR
    ∧ @set_value sample_expression_class 0%nat (VStr "abc") Infer s2 = (Ret tt, s3)
    ∧ cells s3 !! 0%nat = Some c3
    ∧ value_type c3 = Raise UnrecognizedCellTypeException
    ∧ value_type c3 ≠ Ret VALUE_TYPE_EXPR.
Proof.
  eexists _, _, _, _.
  split; [vm_compute; reflexivity|].
  split; [vm_compute; reflexivity|]. split; [vm_compute; reflexivity|].
  split; [vm_compute; reflexivity|]. split; [reflexivity|].
  split; [vm_compute; reflexivity|]. split; [vm_compute; reflexivity|].
  split; [vm_compute; reflexivity|]. vm_compute. discriminate.
Qed.

(** ** Allocating an expression id (C10) *)

(** No cell with an expression id has text: the expression map is
    empty. *)
Lemma get_expression_map_empty s :
  (∀ c, c ∈ cells s → get c "ExprID" = None ∨ text c = None) →
  get_expression_map s = Ret [].
Proof.
  intros Hnone. unfold get_expression_map, get_expression_id_cells, get_cells, xpath.
  rewrite filter_filter_bool.
  rewrite (filter_ext_in _ (λ _, false)).
  - by rewrite filter_false_nil.
  - intros c Hc%list_elem_of_In. cbn [holds].
    destruct (Hnone c Hc) as [Hid|Ht].
    + rewrite Hid. rewrite bool_decide_eq_false_2; [done|]. by intros [? [=]].
    + rewrite Ht. rewrite (bool_decide_eq_false_2 (None ≠ None)); [|by intros ?].
      apply andb_false_r.
Qed.

Lemma next_expression_id_inv {V} (m : list (string * V)) i :
  next_expression_id m = Ret i →
  m ≠ [] ∧ ∃ ids mx,
    mapM int_str (dict_keys m) = Ret ids ∧ greatest ids mx ∧ i = str_int (mx + 1).
Proof.
  unfold next_expression_id. destruct m as [|[k v] m]; [done|].
  intros Hi. split; [done|].
  destruct (mapM int_str (dict_keys ((k, v) :: m))) as [ids|] eqn:Hids; [|done].
  pose proof (mapM_res_length _ _ _ Hids) as Hlen.
  destruct ids as [|x ids]; [done|].
  destruct (py_max_greatest x ids) as (mx & Hmx & Hgreatest).
  cbn [mbind res_bind] in Hi. rewrite Hmx in Hi. injection Hi as <-.
  by exists (x :: ids), mx.
Qed.

Section allocation_properties.
Context `{ExpressionClass}.

(** C10. An expression object without id, of the sheet of the cell, is
    stored as an expression while the expression map of the sheet is
    empty: [set_value] raises the [ValueError] of [max] on an empty
    sequence and leaves the tree as it was.  The new id is computed only
    from a map that is not empty, as its greatest id plus one. *)
Theorem expression_id_allocation s self c e arg :
  (cells s !! self = Some c →
   resolve c (VExpr e) arg = Ret VALUE_TYPE_EXPR →
   expr_id e = None →
   expr_worksheet e = ident s →
   get_expression_map s = Ret [] →
   set_value self (VExpr e) arg s = (Raise ValueError, s))
  ∧ (∀ i, (get_expression_map s ≫= next_expression_id) = Ret i →
       ∃ m ids mx,
         get_expression_map s = Ret m ∧ m ≠ []
         ∧ mapM int_str (dict_keys m) = Ret ids ∧ greatest ids mx
         ∧ i = str_int (mx + 1)).
Proof.
  split.
  - intros Hc Ht Hid Hws Hmap. unfold set_value.
    rewrite M_bind_read. unfold element_of at 1. rewrite Hc.
    rewrite M_bind_read, Ht.
    change (VALUE_TYPE_EXPR =? VALUE_TYPE_BOOLEAN) with false.
    change (VALUE_TYPE_EXPR =? VALUE_TYPE_EMPTY) with false.
    change (VALUE_TYPE_EXPR =? VALUE_TYPE_EXPR) with true. cbv iota.
    apply M_bind_raise. unfold set_expression.
    rewrite M_bind_read. rewrite bool_decide_eq_false_2 by (intros Hne; by apply Hne).
    rewrite M_bind_read, Hmap, Hid.
    cbn [str_opt default]. apply M_bind_raise.
    change (negb (dict_in "None" []) && bool_decide (@None string = None)) with true.
    cbv iota. unfold read. by rewrite Hmap.
  - intros i Hi. destruct (get_expression_map s) as [m|] eqn:Hm; [|done].
    cbn [mbind res_bind] in Hi.
    destruct (next_expression_id_inv m i Hi) as (Hne & ids & mx & Hids & Hmx & ->).
    by exists m, ids, mx.
Qed.

End allocation_properties.

Lemma expression_id_allocation_witness :
  @set_value sample_expression_class 1%nat (VExpr formula_expression) Infer
    (sample_sheet [formula_cell; sample_cell "2" "1" (Some "10") None None])
  = (Raise ValueError, sample_sheet [formula_cell; sample_cell "2" "1" (Some "10") None None])
  ∧ ∃ m ids mx,
      get_expression_map
        (sample_sheet [sample_cell "0" "0" None (Some "4") (Some "=1+1"); formula_cell])
      = Ret m ∧ m ≠ []
      ∧ mapM int_str (dict_keys m) = Ret ids ∧ greatest ids mx
      ∧ "5" = str_int (mx + 1).
Proof.
  split.
  - apply (proj1 (@expression_id_allocation sample_expression_class _ 1%nat
                    (sample_cell "2" "1" (Some "10") None None) formula_expression Infer));
      reflexivity.
  - apply (proj2 (@expression_id_allocation sample_expression_class
                    (sample_sheet [sample_cell "0" "0" None (Some "4") (Some "=1+1");
                                   formula_cell])
                    0%nat formula_cell formula_expression Infer)).
    reflexivity.
Defined.

(** Reading a formula and storing it in a second cell, in a sheet that
    has an expression id already: both cells get the next id, the first
    keeps its text. *)
Example share_formula :
  get_value 1%nat (sample_sheet [sample_cell "0" "0" None (Some "4") (Some "=A1");
                                 sample_cell "1" "0" None None (Some "=1+1");
                                 sample_cell "2" "0" (Some "10") None None])
  = Ret (VExpr {| expr_id := None; expr_worksheet := SheetIdent 0 0 0; expr_cell := 1%nat |})
  ∧ @set_value sample_expression_class 2%nat
      (VExpr {| expr_id := None; expr_worksheet := SheetIdent 0 0 0; expr_cell := 1%nat |})
      Infer
      (sample_sheet [sample_cell "0" "0" None (Some "4") (Some "=A1");
                     sample_cell "1" "0" None None (Some "=1+1");
                     sample_cell "2" "0" (Some "10") None None])
    = (Ret tt,
       sample_sheet [sample_cell "0" "0" None (Some "4") (Some "=A1");
                     sample_cell "1" "0" None (Some "5") (Some "=1+1");
                     sample_cell "2" "0" None (Some "5") None]).
Proof. split; vm_compute; reflexivity. Qed.

(** ** A run through both classes *)

(** An empty sheet, the constructor called with four arguments: the
    cell at (5, 5) is created and set to [42], then to the empty
    string. *)
Example set_and_clear :
  ∃ s1 s2 s3 c2,
    @cell with_four_arguments 5 5 true (sample_sheet []) = (Ret 0%nat, s1)
    ∧ @calculate_dimension with_four_arguments s1 = Ret (-1, -1, -1, -1)
    ∧ @set_value sample_expression_class 0%nat (VInt 42) Infer s1 = (Ret tt, s2)
    ∧ cells s2 !! 0%nat = Some c2
    ∧ value_type c2 = Ret VALUE_TYPE_INTEGER
    ∧ get_value 0%nat s2 = Ret (VInt 42)
    ∧ @calculate_dimension with_four_arguments s2 = Ret (5, 5, 5, 5)
    ∧ @set_value sample_expression_class 0%nat (VStr "") Infer s2 = (Ret tt, s3)
    ∧ get_value 0%nat s3 = Ret VNone
    ∧ @calculate_dimension with_four_arguments s3 = Ret (-1, -1, -1, -1)
    ∧ @_clean_data with_four_arguments s3 = (Ret tt, sample_sheet []).
Proof. eexists _, _, _, _. repeat split; vm_compute; reflexivity. Qed.

(** * Further properties of [cell.py] *)

(** ** Writing and reading the type *)

Lemma get_set_type_other t c k :
  k ≠ "ValueType" → get (set_type t c) k = get c k.
Proof.
  intros Hk. unfold set_type. destruct (t =? VALUE_TYPE_EXPR).
  - case_bool_decide; [|done]. unfold get, pop. simpl. by rewrite lookup_delete_ne.
  - unfold get, set. simpl. by rewrite lookup_insert_ne.
Qed.

(** X1.  [__set_type] changes the type tag only.  Every type but EXPR is
    read back by [value_type]; for EXPR the tag is removed, and what
    [value_type] then finds depends on the expression id and the text
    the cell has. *)
Theorem set_type_then_value_type t c :
  text (set_type t c) = text c
  ∧ (∀ k, k ≠ "ValueType" → get (set_type t c) k = get c k)
  ∧ (t ≠ VALUE_TYPE_EXPR → value_type (set_type t c) = Ret t)
  ∧ (t = VALUE_TYPE_EXPR →
       get (set_type t c) "ValueType" = None
       ∧ value_type (set_type t c)
         = match get c "ExprID", text c with
           | Some _, _ => Ret VALUE_TYPE_EXPR
           | None, Some txt =>
               if startswith_eq txt then Ret VALUE_TYPE_EXPR
               else Raise UnrecognizedCellTypeException
           | None, None => Raise AttributeError
           end).
Proof.
  split; [apply text_set_type|]. split; [intros k; apply get_set_type_other|].
  split; [apply value_type_set_type|]. intros ->.
  destruct (set_type_expr c) as (Htag & Hid & Htxt). split; [done|].
  unfold value_type. by rewrite Htag, Hid, Htxt.
Qed.

(** ** What [set_value] leaves alone *)

Lemma same_layout_refl s : same_layout s s.
Proof.
  repeat split. apply Forall2_same_length_lookup. split; [done|].
  intros i x y Hx Hy. rewrite Hx in Hy. by injection Hy as <-.
Qed.

Lemma same_layout_trans s1 s2 s3 :
  same_layout s1 s2 → same_layout s2 s3 → same_layout s1 s3.
Proof.
  intros (? & ? & ? & ? & ? & H12) (? & ? & ? & ? & ? & H23).
  repeat split; try congruence.
  eapply Forall2_trans; [|exact H12|exact H23].
  intros x y z [? ?] [? ?]. split; congruence.
Qed.

Lemma same_layout_alter s self f :
  (∀ c, same_position c (f c)) →
  same_layout s (with_cells (alter f self (cells s)) s).
Proof.
  intros Hf. repeat split. cbn [cells with_cells].
  apply Forall2_same_length_lookup. split; [by rewrite length_alter|].
  intros i x y Hx Hy. destruct (decide (self = i)) as [->|Hne].
  - rewrite list_lookup_alter_eq, Hx in Hy. injection Hy as <-. apply Hf.
  - rewrite list_lookup_alter_ne, Hx in Hy by done. by injection Hy as <-.
Qed.

Lemma same_layout_present s s' self :
  same_layout s s' → is_Some (cells s !! self) → is_Some (cells s' !! self).
Proof.
  intros (_ & _ & _ & _ & _ & Hcells) Hself.
  apply lookup_lt_is_Some. rewrite <-(Forall2_length _ _ _ Hcells).
  by apply lookup_lt_is_Some.
Qed.

Lemma same_position_set_text t c : same_position c (set_text t c).
Proof. done. Qed.

Lemma same_position_set_expression_id i c : same_position c (set_expression_id i c).
Proof.
  unfold same_position, set_expression_id, get, set. simpl.
  by rewrite !lookup_insert_ne.
Qed.

Lemma same_position_set_type t c : same_position c (set_type t c).
Proof. split; by apply get_set_type_other. Qed.

Lemma settles_update s self cell f :
  (∀ c, same_position c (f c)) → settles self s (update cell f).
Proof.
  intros Hf. unfold settles, update. rewrite M_bind_read. unfold element_of.
  destruct (cells s !! cell); [right|left; eexists _, _; split; [done|by left]].
  eexists. split; [done|]. by apply same_layout_alter.
Qed.

Lemma settles_read {A} s self (f : Sheet → res A) (k : A → M unit) :
  (∀ a, f s = Ret a → settles self s (k a)) → settles self s (read f ≫= k).
Proof.
  intros Hk. unfold settles. rewrite M_bind_read.
  destruct (f s) as [a|e]; [by apply Hk|left; eexists _, _; split; [done|by left]].
Qed.

(** Once the cell is known to be in the tree, a change of its element
    returns. *)
Lemma update_present s self f :
  is_Some (cells s !! self) → (∀ c, same_position c (f c)) →
  ∃ s', update self f s = (Ret tt, s') ∧ same_layout s s'.
Proof.
  intros [c Hc] Hf. eexists. split; [by apply (update_run s self c)|].
  by apply same_layout_alter.
Qed.

Lemma returns_at_update self f :
  (∀ c, same_position c (f c)) → returns_at self (update self f).
Proof. intros Hf s Hself. by apply update_present. Qed.

Lemma returns_at_bind self (m k : M unit) :
  returns_at self m → returns_at self k → returns_at self (_ ← m; k).
Proof.
  intros Hm Hk s Hself. destruct (Hm s Hself) as (s1 & Hs1 & Hlay1).
  destruct (Hk s1) as (s2 & Hs2 & Hlay2); [by apply (same_layout_present s)|].
  exists s2. split; [by rewrite (M_bind_ret _ _ _ _ _ Hs1)|].
  by apply (same_layout_trans _ s1).
Qed.

Lemma returns_at_assign_text_None self : returns_at self (assign_text self None).
Proof.
  intros s [c Hc]. eexists. split; [by apply (assign_text_run s self c)|].
  apply same_layout_alter, same_position_set_text.
Qed.

Lemma settles_assign_text s self t : settles self s (assign_text self t).
Proof.
  destruct (cells s !! self) as [c|] eqn:Hc.
  - destruct (accepted t) eqn:Hok.
    + right. eexists. split; [by apply (assign_text_run s self c)|].
      apply same_layout_alter, same_position_set_text.
    + destruct t as [txt|]; [|done]. left. eexists _, _.
      split; [by apply (assign_text_refused s self c)|].
      right. split; [done|]. by exists None.
  - left. eexists _, _. split; [by apply assign_text_detached|by left].
Qed.

Lemma settles_then s self (m k : M unit) :
  is_Some (cells s !! self) → settles self s m → returns_at self k →
  settles self s (_ ← m; k).
Proof.
  intros Hself [(e & s1 & He & Hs1)|(s1 & Hs1 & Hlay)] Hk.
  - left. exists e, s1. split; [by apply M_bind_raise|done].
  - right. rewrite (M_bind_ret _ _ _ _ _ Hs1).
    destruct (Hk s1) as (s2 & Hs2 & Hlay2); [by apply (same_layout_present s)|].
    exists s2. split; [done|]. by apply (same_layout_trans _ s1).
Qed.

Lemma settles_ret s self : settles self s (mret tt).
Proof. right. exists s. split; [done|apply same_layout_refl]. Qed.

Lemma settles_raise s self e : settles self s (raise e).
Proof. left. exists e, s. split; [done|by left]. Qed.

Lemma settles_bind_reads {A} s self (m : M A) (k : A → M unit) :
  reads_only m → (∀ a, settles self s (k a)) → settles self s (m ≫= k).
Proof.
  intros Hm Hk. specialize (Hm s). unfold settles, mbind, M_bind.
  destruct (m s) as [[a|e] s1]; simpl in Hm; subst s1;
    [apply Hk|left; eexists _, _; split; [done|by left]].
Qed.

Lemma reads_only_read {A} (f : Sheet → res A) : reads_only (read f).
Proof. done. Qed.

Lemma reads_only_ret {A} (a : A) : reads_only (mret a : M A).
Proof. done. Qed.

Lemma reads_only_raise {A} e : reads_only (raise e : M A).
Proof. done. Qed.

Lemma reads_only_bind {A B} (m : M A) (k : A → M B) :
  reads_only m → (∀ a, reads_only (k a)) → reads_only (m ≫= k).
Proof.
  intros Hm Hk s. specialize (Hm s). unfold mbind, M_bind.
  destruct (m s) as [[a|e] s1]; simpl in Hm; subst s1; [apply Hk|done].
Qed.

Section set_value_effects.
Context `{ExpressionClass}.

Lemma settles_set_expression s self e :
  is_Some (cells s !! self) → settles self s (set_expression self e).
Proof.
  intros Hself. unfold set_expression.
  apply settles_bind_reads; [apply reads_only_read|]. intros ws.
  case_bool_decide; [apply settles_raise|].
  apply settles_bind_reads; [apply reads_only_read|]. intros expression_map.
  apply settles_bind_reads.
  { destruct (_ && _); [apply reads_only_read|apply reads_only_ret]. }
  intros expr_id.
  apply settles_bind_reads; [apply reads_only_read|]. intros all_cells.
  apply settles_bind_reads.
  { destruct (_ =? _)%nat; [|apply reads_only_ret].
    apply reads_only_bind; [apply reads_only_read|]. intros origin. apply reads_only_read. }
  intros [|].
  - apply settles_bind_reads; [apply reads_only_read|]. intros v.
    apply settles_assign_text.
  - apply settles_bind_reads; [apply reads_only_read|]. intros all_cells'.
    apply (settles_then s self); [done| |].
    + destruct (_ =? _)%nat; [|apply settles_ret].
      apply settles_bind_reads; [apply reads_only_read|]. intros origin.
      apply settles_update, same_position_set_expression_id.
    + apply returns_at_bind;
        [apply returns_at_assign_text_None
        |apply returns_at_update, same_position_set_expression_id].
Qed.

Lemma settles_set_value s self value arg : settles self s (set_value self value arg).
Proof.
  unfold set_value. apply settles_read. intros c Hc.
  assert (Hself : is_Some (cells s !! self)).
  { unfold element_of in Hc. destruct (cells s !! self); [by eexists|done]. }
  apply settles_read. intros t _.
  assert (Hstr : settles self s (txt ← read (λ _, str value); assign_text self (Some txt))).
  { apply settles_bind_reads; [apply reads_only_read|]. intros txt.
    apply settles_assign_text. }
  apply (settles_then s self); [done| |].
  - destruct (t =? VALUE_TYPE_BOOLEAN); [apply settles_assign_text|].
    destruct (t =? VALUE_TYPE_EMPTY); [apply settles_assign_text|].
    destruct value; try exact Hstr.
    destruct (t =? VALUE_TYPE_EXPR); [|exact Hstr].
    by apply settles_set_expression.
  - apply returns_at_update, same_position_set_type.
Qed.

(** X2.  Whatever the value, the directive and the methods of [Expression]
    do, a call of [set_value] that raises leaves the tree as it was,
    unless it raises [ValueError]: then the text of the cell may have
    changed (lxml takes the old text away before it refuses a string),
    and nothing else.  A call that returns leaves the data about the
    sheet as it was, the number of cells as it was and every cell with
    the row and column it had. *)
Theorem set_value_settles s self value arg :
  (∃ e s', set_value self value arg s = (Raise e, s')
           ∧ (s' = s
              ∨ (e = ValueError
                 ∧ ∃ x, s' = with_cells (alter (set_text x) self (cells s)) s)))
  ∨ (∃ s', set_value self value arg s = (Ret tt, s')
           ∧ ident s' = ident s ∧ ns_gnm s' = ns_gnm s ∧ sheet_name s' = sheet_name s
           ∧ MaxCol s' = MaxCol s ∧ MaxRow s' = MaxRow s
           ∧ length (cells s') = length (cells s)
           ∧ ∀ i c c', cells s !! i = Some c → cells s' !! i = Some c' →
               get c' "Row" = get c "Row" ∧ get c' "Col" = get c "Col").
Proof.
  destruct (settles_set_value s self value arg) as [?|(s' & Hs' & Hlay)]; [by left|].
  right. exists s'. split; [done|].
  destruct Hlay as (? & ? & ? & ? & ? & Hcells).
  apply Forall2_same_length_lookup in Hcells as [Hlen Hcells].
  repeat (split; [done|]). intros i c c' Hc Hc'. by apply (Hcells i).
Qed.

End set_value_effects.

Section set_value_values.
Context `{ExpressionClass}.

(** [set_value] of a value that is no expression object, in full. *)
Lemma set_value_non_expression s self value arg :
  is_expression value = false →
  set_value self value arg s
  = match cells s !! self with
    | None => (Raise DetachedElement, s)
    | Some c =>
        match resolve c value arg with
        | Raise e => (Raise e, s)
        | Ret t =>
            match stored_text t value with
            | Raise e => (Raise e, s)
            | Ret txt =>
                if accepted txt
                then (Ret tt,
                      with_cells (alter (set_type t ∘ set_text txt) self (cells s)) s)
                else (Raise ValueError,
                      with_cells (alter (set_text None) self (cells s)) s)
            end
        end
    end.
Proof.
  intros Hvalue. destruct (cells s !! self) as [c|] eqn:Hc.
  - destruct (resolve c value arg) as [t|e] eqn:Ht.
    + assert (Hbranch : t = VALUE_TYPE_BOOLEAN ∨ t = VALUE_TYPE_EMPTY ∨ t ≠ VALUE_TYPE_EXPR
                        ∨ is_expression value = false) by (by do 3 right).
      destruct (set_value_plain_raises s self c value arg t Hc Ht Hbranch) as [Hstr Hbad].
      destruct (stored_text t value) as [txt|e] eqn:Htxt; [|by apply Hstr].
      destruct (accepted txt) eqn:Hok.
      * by apply (set_value_plain s self c value arg t txt).
      * destruct txt as [txt|]; [|done]. by apply (Hbad txt).
    + unfold set_value. rewrite M_bind_read. unfold element_of at 1. rewrite Hc.
      by rewrite M_bind_read, Ht.
  - unfold set_value. rewrite M_bind_read. unfold element_of at 1. by rewrite Hc.
Qed.

(** X3.  A value that is no expression object changes the cell it is set
    into and no other: whatever the outcome, every other cell is as it
    was, and the cell itself keeps every attribute but the type tag, the
    expression id included. *)
Theorem set_value_frame s self value arg r s' :
  is_expression value = false →
  set_value self value arg s = (r, s') →
  (∀ j, j ≠ self → cells s' !! j = cells s !! j)
  ∧ (∀ c c' k, cells s !! self = Some c → cells s' !! self = Some c' →
       k ≠ "ValueType" → get c' k = get c k).
Proof.
  intros Hvalue. rewrite set_value_non_expression by done.
  destruct (cells s !! self) as [c|] eqn:Hc.
  - destruct (resolve c value arg) as [t|e]; [|intros [= <- <-]].
    + destruct (stored_text t value) as [txt|e]; [|intros [= <- <-]].
      * destruct (accepted txt); intros [= <- <-]; cbn [cells with_cells]; split.
        -- intros j Hj. by rewrite list_lookup_alter_ne.
        -- intros c0 c' k [= <-]. rewrite list_lookup_alter_eq, Hc.
           intros [= <-] Hk. cbn [compose]. by rewrite get_set_type_other.
        -- intros j Hj. by rewrite list_lookup_alter_ne.
        -- intros c0 c' k [= <-]. rewrite list_lookup_alter_eq, Hc. by intros [= <-] Hk.
      * split; [done|]. intros c0 c' k. rewrite Hc. by intros [= <-] [= <-].
    + split; [done|]. intros c0 c' k. rewrite Hc. by intros [= <-] [= <-].
  - intros [= <- <-]. split; [done|]. intros c c' k. by rewrite Hc.
Qed.

(** X4.  A plain string set into a cell whose type can be read and is not
    EXPR.  When the string is XML compatible the call returns, the cell
    has type STRING when its type was EMPTY, BOOLEAN, INTEGER, FLOAT or
    ERROR and keeps its type otherwise, and [get_value] returns the
    string.  When it is not (a control character, a NUL byte), the call
    raises [ValueError], the cell has lost its text and kept its type
    tag. *)
Theorem string_round_trip s self c txt prior :
  cells s !! self = Some c →
  is_plain_string (VStr txt) = true →
  value_type c = Ret prior → prior ≠ VALUE_TYPE_EXPR →
  (xml_compatible txt = true →
   ∃ s' c',
     set_value self (VStr txt) Infer s = (Ret tt, s')
     ∧ cells s' !! self = Some c'
     ∧ value_type c' = Ret (if is_scalar_type prior then VALUE_TYPE_STRING else prior)
     ∧ text c' = Some txt
     ∧ get_value self s' = Ret (VStr txt))
  ∧ (xml_compatible txt = false →
     ∃ s' c',
       set_value self (VStr txt) Infer s = (Raise ValueError, s')
       ∧ cells s' !! self = Some c'
       ∧ text c' = None ∧ attrib c' = attrib c
       ∧ ∀ j, j ≠ self → cells s' !! j = cells s !! j).
Proof.
  intros Hc Hplain Hprior Hexpr.
  set (t := if is_scalar_type prior then VALUE_TYPE_STRING else prior).
  assert (Ht : resolve c (VStr txt) Infer = Ret t).
  { cbn [resolve]. rewrite infer_priority, Hplain, Hprior.
    destruct txt as [|a r]; [done|]. cbn in Hplain. apply negb_true_iff in Hplain.
    cbn. rewrite Hplain. unfold t, is_scalar_type. by case_bool_decide. }
  assert (Hneq : t ≠ VALUE_TYPE_EXPR ∧ t ≠ VALUE_TYPE_BOOLEAN ∧ t ≠ VALUE_TYPE_INTEGER
                 ∧ t ≠ VALUE_TYPE_FLOAT ∧ t ≠ VALUE_TYPE_EMPTY).
  { unfold t, is_scalar_type. case_bool_decide as Hscalar; [done|].
    repeat split; [done|..]; intros ->; apply Hscalar;
      unfold VALUE_TYPE_EMPTY, VALUE_TYPE_BOOLEAN, VALUE_TYPE_INTEGER, VALUE_TYPE_FLOAT,
        VALUE_TYPE_ERROR; set_solver. }
  destruct Hneq as (Hx & Hb & Hi & Hf & He).
  assert (Htxt : stored_text t (VStr txt) = Ret (Some txt)).
  { unfold stored_text. by rewrite (proj2 (Z.eqb_neq _ _) Hb), (proj2 (Z.eqb_neq _ _) He). }
  split.
  - intros Hok. eexists _, _. split; [|split; [|split; [|split]]].
    + apply (set_value_plain s self c _ _ t (Some txt)); [done|done| |done|done].
      right; right; by left.
    + cbn [cells with_cells]. by rewrite list_lookup_alter_eq, Hc.
    + cbn [compose]. by apply value_type_set_type.
    + cbn [compose]. by rewrite text_set_type.
    + rewrite (get_value_stored s self c) by done.
      by rewrite (proj2 (Z.eqb_neq _ _) Hb), (proj2 (Z.eqb_neq _ _) Hi),
        (proj2 (Z.eqb_neq _ _) Hf).
  - intros Hbad. eexists _, _. split; [|split; [|split; [|split]]].
    + apply (proj2 (set_value_plain_raises s self c (VStr txt) Infer t Hc Ht
                      (or_intror (or_intror (or_introl Hx)))) txt Htxt Hbad).
    + cbn [cells with_cells]. by rewrite list_lookup_alter_eq, Hc.
    + done.
    + done.
    + intros j Hj. cbn [cells with_cells]. by rewrite list_lookup_alter_ne.
Qed.

End set_value_values.

(** ** Cells that count as empty after [set_value] *)

Lemma str_int_inj n m : str_int n = str_int m → n = m.
Proof.
  intros Heq. pose proof (int_str_str_int n) as Hn.
  rewrite Heq, int_str_str_int in Hn. by injection Hn.
Qed.

Lemma get_set_type_tag t c :
  t ≠ VALUE_TYPE_EXPR → get (set_type t c) "ValueType" = Some (str_int t).
Proof.
  intros Ht. unfold set_type. rewrite (proj2 (Z.eqb_neq _ _) Ht).
  unfold get, set. simpl. by rewrite lookup_insert_eq.
Qed.

Lemma spec_empty_set_type t c :
  spec_empty (set_type t c)
  ↔ t = VALUE_TYPE_EMPTY
    ∨ (t = VALUE_TYPE_EXPR ∧ get c "ExprID" = None
       ∧ String.length (default "" (text c)) = 0%nat).
Proof.
  unfold spec_empty. rewrite text_set_type.
  rewrite (get_set_type_other t c "ExprID") by done.
  destruct (decide (t = VALUE_TYPE_EXPR)) as [->|Hexpr].
  - rewrite (proj1 (set_type_expr c)). split.
    + intros [[=]|(_ & Hid & Hlen)]. by right.
    + intros [[=]|(_ & Hid & Hlen)]. by right.
  - rewrite get_set_type_tag by done. split.
    + intros [[= Htag]|([=] & _)]. left. by apply str_int_inj.
    + intros [->|(-> & _)]; [by left|done].
Qed.

Lemma infer_blank c value t :
  is_expression value = false → infer c value = Ret t →
  (t = VALUE_TYPE_EMPTY ↔ is_blank value = true)
  ∧ (t = VALUE_TYPE_EXPR → ∃ a r, value = VStr (String a r)).
Proof.
  intros Hvalue. rewrite infer_priority.
  destruct value as [b|n|x|[|a r]| |e]; try done; cbn;
    try (intros [= <-]; split; [done|done]).
  destruct (Ascii.eqb a "=") eqn:Ha; cbn.
  - intros [= <-]. split; [done|]. by eexists _, _.
  - destruct (value_type c) as [prior|]; [|done]. cbn. intros [= <-]. rewrite Ha. split.
    + case_bool_decide as Hscalar; [done|]. split; [|done].
      intros ->. exfalso. apply Hscalar. unfold VALUE_TYPE_EMPTY. set_solver.
    + intros _. by eexists _, _.
Qed.

Section emptiness_after_set_value.
Context `{ExpressionClass}.

(** X5.  With the type inferred, a value that is no expression object leaves
    the cell empty in the sense of the sheet's selector exactly when the
    value is [''] or [None]; the cell then has no text and [get_value]
    returns [None]. *)
Theorem set_value_emptiness s self value s' c' :
  is_expression value = false →
  set_value self value Infer s = (Ret tt, s') →
  cells s' !! self = Some c' →
  (spec_empty c' ↔ is_blank value = true)
  ∧ (holds EMPTY_CELL_XPATH_SELECTOR c' = is_blank value)
  ∧ (is_blank value = true → text c' = None ∧ get_value self s' = Ret VNone).
Proof.
  intros Hvalue. rewrite set_value_non_expression by done.
  destruct (cells s !! self) as [c|] eqn:Hc; [|done].
  destruct (resolve c value Infer) as [t|] eqn:Ht; [|done].
  destruct (stored_text t value) as [txt|] eqn:Htxt; [|done].
  destruct (accepted txt); [|done].
  intros [= <-]. cbn [cells with_cells]. rewrite list_lookup_alter_eq, Hc.
  intros [= <-]. cbn [compose]. cbn [resolve] in Ht.
  destruct (infer_blank c value t Hvalue Ht) as [Hempty Hexpr].
  assert (Hiff : spec_empty (set_type t (set_text txt c)) ↔ is_blank value = true).
  { rewrite spec_empty_set_type, <-Hempty. split; [|by left].
    intros [?|(Hx & _ & Hlen)]; [done|]. exfalso.
    destruct (Hexpr Hx) as (a & r & ->). subst t.
    injection Htxt as <-. by cbn in Hlen. }
  split; [done|]. split.
  { apply eq_true_iff_eq. by rewrite holds_empty_selector. }
  intros Hblank. apply Hempty in Hblank as ->. injection Htxt as <-. split.
  - by rewrite text_set_type.
  - by rewrite (get_value_stored s self c).
Qed.

Lemma printable_xml_compatible txt : printable txt = true → xml_compatible txt = true.
Proof.
  induction txt as [|a txt IH]; [done|]. cbn [printable xml_compatible].
  rewrite !andb_true_iff. intros [[Hlo Hhi] Htxt].
  apply Nat.leb_le in Hlo. apply Nat.ltb_lt in Hhi.
  rewrite (proj2 (Nat.ltb_lt _ 128)) by lia. split; [|by apply IH].
  unfold is_xml_char. cbv zeta. rewrite (proj2 (Nat.leb_le 32 _)) by done.
  apply orb_true_r.
Qed.

(** X6.  [set_value] checks no type.  A string of printable ASCII
    characters, of no more characters than [int] reads digits, is stored
    as it is into a cell with INTEGER as the explicit type, and
    [get_value] returns or raises as [int] of the string does. *)
Theorem set_value_unchecked s self c txt :
  cells s !! self = Some c →
  printable txt = true →
  Z.of_nat (String.length txt) ≤ int_max_str_digits →
  ∃ s' c',
    set_value self (VStr txt) (Explicit VALUE_TYPE_INTEGER) s = (Ret tt, s')
    ∧ cells s' !! self = Some c'
    ∧ text c' = Some txt
    ∧ value_type c' = Ret VALUE_TYPE_INTEGER
    ∧ get_value self s' = VInt <$> int_str txt.
Proof.
  intros Hc Hascii _. eexists _, _. split; [|split; [|split; [|split]]].
  - apply (set_value_plain s self c _ _ VALUE_TYPE_INTEGER (Some txt)); [done|done| |done|].
    + right; right; by left.
    + by apply printable_xml_compatible.
  - cbn [cells with_cells]. by rewrite list_lookup_alter_eq, Hc.
  - cbn [compose]. by rewrite text_set_type.
  - by apply value_type_set_type.
  - by rewrite (get_value_stored s self c).
Qed.

(** X7.  With ['keep'] the type the cell has is read first: when that fails
    the call fails the same way and changes nothing.  When the type is
    [t], not EXPR: if [str(value)] raises, the call raises the same and
    changes nothing; if the text for [t] is one the element takes, the
    call returns, the cell has the type it had and that text; if the text
    is a string that is not XML compatible, the call raises [ValueError]
    and the cell has lost its text. *)
Theorem set_value_keep s self c value :
  cells s !! self = Some c →
  (∀ e, value_type c = Raise e → set_value self value Keep s = (Raise e, s))
  ∧ (∀ t e, value_type c = Ret t → t ≠ VALUE_TYPE_EXPR →
       stored_text t value = Raise e → set_value self value Keep s = (Raise e, s))
  ∧ (∀ t txt, value_type c = Ret t → t ≠ VALUE_TYPE_EXPR →
       stored_text t value = Ret txt → accepted txt = true →
       ∃ s' c',
         set_value self value Keep s = (Ret tt, s')
         ∧ cells s' !! self = Some c'
         ∧ value_type c' = Ret t
         ∧ text c' = txt)
  ∧ (∀ t txt, value_type c = Ret t → t ≠ VALUE_TYPE_EXPR →
       stored_text t value = Ret (Some txt) → xml_compatible txt = false →
       set_value self value Keep s
       = (Raise ValueError, with_cells (alter (set_text None) self (cells s)) s)).
Proof.
  intros Hc. split; [|split; [|split]].
  - intros e He. unfold set_value. rewrite M_bind_read. unfold element_of at 1.
    rewrite Hc. rewrite M_bind_read. cbn [resolve]. by rewrite He.
  - intros t e Ht Hexpr He.
    apply (proj1 (set_value_plain_raises s self c value Keep t Hc Ht
                    (or_intror (or_intror (or_introl Hexpr)))) e He).
  - intros t txt Ht Hexpr Htxt Hok. eexists _, _. split; [|split; [|split]].
    + apply (set_value_plain s self c _ _ t txt); [done|done| |done|done].
      right; right; by left.
    + cbn [cells with_cells]. by rewrite list_lookup_alter_eq, Hc.
    + by apply value_type_set_type.
    + cbn [compose]. by rewrite text_set_type.
  - intros t txt Ht Hexpr Htxt Hbad.
    apply (proj2 (set_value_plain_raises s self c value Keep t Hc Ht
                    (or_intror (or_intror (or_introl Hexpr)))) txt Htxt Hbad).
Qed.

(** X8.  An expression object of another worksheet, stored as an expression:
    [set_value] raises [NotImplementedError] and changes nothing. *)
Theorem set_value_other_worksheet s self c e arg :
  cells s !! self = Some c →
  resolve c (VExpr e) arg = Ret VALUE_TYPE_EXPR →
  expr_worksheet e ≠ ident s →
  set_value self (VExpr e) arg s
  = (Raise (NotImplementedError
              "Copying expression to different worksheet is not yet supported"), s).
Proof.
  intros Hc Ht Hws. unfold set_value.
  rewrite M_bind_read. unfold element_of at 1. rewrite Hc.
  rewrite M_bind_read, Ht.
  change (VALUE_TYPE_EXPR =? VALUE_TYPE_BOOLEAN) with false.
  change (VALUE_TYPE_EXPR =? VALUE_TYPE_EMPTY) with false.
  change (VALUE_TYPE_EXPR =? VALUE_TYPE_EXPR) with true. cbv iota.
  apply M_bind_raise. unfold set_expression.
  rewrite M_bind_read. by rewrite bool_decide_eq_true_2.
Qed.

End emptiness_after_set_value.

Lemma set_value_frame_witness :
  (∀ j, j ≠ 1%nat →
     cells (sample_sheet [sample_cell "0" "0" None (Some "4") (Some "=A1");
                          sample_cell "1" "0" (Some "30") (Some "4") (Some "7")]) !! j
     = cells (sample_sheet [sample_cell "0" "0" None (Some "4") (Some "=A1");
                            sample_cell "1" "0" None (Some "4") None]) !! j)
  ∧ (∀ c c' k,
       cells (sample_sheet [sample_cell "0" "0" None (Some "4") (Some "=A1");
                            sample_cell "1" "0" None (Some "4") None]) !! 1%nat = Some c →
       cells (sample_sheet [sample_cell "0" "0" None (Some "4") (Some "=A1");
                            sample_cell "1" "0" (Some "30") (Some "4") (Some "7")]) !! 1%nat
       = Some c' →
       k ≠ "ValueType" → get c' k = get c k).
Proof.
  apply (@set_value_frame sample_expression_class
           (sample_sheet [sample_cell "0" "0" None (Some "4") (Some "=A1");
                          sample_cell "1" "0" None (Some "4") None])
           1%nat (VInt 7) Infer (Ret tt)); [reflexivity|].
  vm_compute. reflexivity.
Defined.

Lemma string_round_trip_witness :
  (xml_compatible "total" = true →
   ∃ s' c',
     @set_value sample_expression_class 0%nat (VStr "total") Infer
       (sample_sheet sample_cells) = (Ret tt, s')
     ∧ cells s' !! 0%nat = Some c'
     ∧ value_type c' = Ret (if is_scalar_type 30 then VALUE_TYPE_STRING else 30)
     ∧ text c' = Some "total"
     ∧ get_value 0%nat s' = Ret (VStr "total"))
  ∧ (xml_compatible "total" = false →
     ∃ s' c',
       @set_value sample_expression_class 0%nat (VStr "total") Infer
         (sample_sheet sample_cells) = (Raise ValueError, s')
       ∧ cells s' !! 0%nat = Some c'
       ∧ text c' = None
       ∧ attrib c' = attrib (sample_cell "6" "3" (Some "30") None (Some "42"))
       ∧ ∀ j, j ≠ 0%nat → cells s' !! j = cells (sample_sheet sample_cells) !! j).
Proof.
  apply (@string_round_trip sample_expression_class (sample_sheet sample_cells) 0%nat
           (sample_cell "6" "3" (Some "30") None (Some "42")) "total" 30);
    [reflexivity|reflexivity|reflexivity|discriminate].
Defined.

(** A string with a control character: the call raises [ValueError], and
    the cell has lost its text and kept its type. *)
Example set_value_refused_text :
  @set_value sample_expression_class 0%nat (VStr (String (ascii_of_nat 1) "abc")) Infer
    (sample_sheet sample_cells)
  = (Raise ValueError,
     sample_sheet [ sample_cell "6" "3" (Some "30") None None;
                    sample_cell "2" "1" (Some "10") None None;
                    sample_cell "12" "9" (Some "60") None (Some "total") ])
  ∧ xml_compatible (String (ascii_of_nat 1) "abc") = false
  ∧ xml_compatible (String (ascii_of_nat 0) "") = false
  ∧ xml_compatible (String (ascii_of_nat 9) "tab") = true.
Proof. repeat split; vm_compute; reflexivity. Qed.

Lemma set_value_emptiness_witness :
  (spec_empty (sample_cell "6" "3" (Some "10") None None) ↔ is_blank (VStr "") = true)
  ∧ holds EMPTY_CELL_XPATH_SELECTOR (sample_cell "6" "3" (Some "10") None None)
    = is_blank (VStr "")
  ∧ (is_blank (VStr "") = true →
     text (sample_cell "6" "3" (Some "10") None None) = None
     ∧ get_value 0%nat
         (sample_sheet [sample_cell "6" "3" (Some "10") None None;
                        sample_cell "2" "1" (Some "10") None None;
                        sample_cell "12" "9" (Some "60") None (Some "total")])
       = Ret VNone).
Proof.
  apply (@set_value_emptiness sample_expression_class (sample_sheet sample_cells) 0%nat
           (VStr "")); [reflexivity|vm_compute; reflexivity|reflexivity].
Defined.

Lemma set_value_unchecked_witness :
  ∃ s' c',
    @set_value sample_expression_class 0%nat (VStr "abc") (Explicit VALUE_TYPE_INTEGER)
      (sample_sheet sample_cells) = (Ret tt, s')
    ∧ cells s' !! 0%nat = Some c'
    ∧ text c' = Some "abc"
    ∧ value_type c' = Ret VALUE_TYPE_INTEGER
    ∧ get_value 0%nat s' = VInt <$> int_str "abc".
Proof.
  apply (@set_value_unchecked sample_expression_class (sample_sheet sample_cells) 0%nat
           (sample_cell "6" "3" (Some "30") None (Some "42")) "abc");
    [reflexivity|reflexivity|vm_compute; discriminate].
Defined.

Lemma set_value_keep_witness :
  (∀ e, value_type (sample_cell "12" "9" (Some "60") None (Some "total")) = Raise e →
     @set_value sample_expression_class 2%nat (VInt 7) Keep (sample_sheet sample_cells)
     = (Raise e, sample_sheet sample_cells))
  ∧ (∀ t e, value_type (sample_cell "12" "9" (Some "60") None (Some "total")) = Ret t →
       t ≠ VALUE_TYPE_EXPR →
       @stored_text sample_expression_class t (VInt 7) = Raise e →
       @set_value sample_expression_class 2%nat (VInt 7) Keep (sample_sheet sample_cells)
       = (Raise e, sample_sheet sample_cells))
  ∧ (∀ t txt, value_type (sample_cell "12" "9" (Some "60") None (Some "total")) = Ret t →
       t ≠ VALUE_TYPE_EXPR →
       @stored_text sample_expression_class t (VInt 7) = Ret txt → accepted txt = true →
       ∃ s' c',
         @set_value sample_expression_class 2%nat (VInt 7) Keep (sample_sheet sample_cells)
         = (Ret tt, s')
         ∧ cells s' !! 2%nat = Some c'
         ∧ value_type c' = Ret t
         ∧ text c' = txt)
  ∧ (∀ t txt, value_type (sample_cell "12" "9" (Some "60") None (Some "total")) = Ret t →
       t ≠ VALUE_TYPE_EXPR →
       @stored_text sample_expression_class t (VInt 7) = Ret (Some txt) →
       xml_compatible txt = false →
       @set_value sample_expression_class 2%nat (VInt 7) Keep (sample_sheet sample_cells)
       = (Raise ValueError,
          with_cells (alter (set_text None) 2%nat (cells (sample_sheet sample_cells)))
            (sample_sheet sample_cells))).
Proof.
  apply (@set_value_keep sample_expression_class (sample_sheet sample_cells) 2%nat
           (sample_cell "12" "9" (Some "60") None (Some "total")) (VInt 7)).
  reflexivity.
Defined.

Lemma set_value_other_worksheet_witness :
  @set_value sample_expression_class 1%nat
    (VExpr {| expr_id := Some "4"; expr_worksheet := SheetIdent 0 1 1; expr_cell := 0%nat |})
    Infer (sample_sheet sample_cells)
  = (Raise (NotImplementedError
              "Copying expression to different worksheet is not yet supported"),
     sample_sheet sample_cells).
Proof.
  apply (@set_value_other_worksheet sample_expression_class (sample_sheet sample_cells) 1%nat
           (sample_cell "2" "1" (Some "10") None None));
    [reflexivity|reflexivity|discriminate].
Defined.

(** * Further properties of [sheet.py] *)

(** ** The expression map *)

Lemma mapM_res_Forall2 {A B} (f : A → res B) l ys :
  mapM f l = Ret ys ↔ Forall2 (λ x y, f x = Ret y) l ys.
Proof.
  revert ys. induction l as [|x l IH]; intros ys; cbn [mapM].
  - split; [intros [= <-]; constructor|by inversion 1].
  - unfold mbind, res_bind at 1. destruct (f x) as [y|e] eqn:Hx.
    + unfold mbind, res_bind at 1. destruct (mapM f l) as [ys'|e] eqn:Hl.
      * split.
        -- intros [= <-]. constructor; [done|]. by apply IH.
        -- inversion 1 as [|? y' ? ys'' Hy Hys]; subst. apply IH in Hys.
           rewrite Hx in Hy. by simplify_eq.
      * split; [done|]. inversion 1 as [|? y' ? ys'' Hy Hys]; subst.
        apply IH in Hys. done.
    + split; [done|]. inversion 1 as [|? y' ? ys'' Hy Hys]; subst.
      rewrite Hx in Hy. done.
Qed.

Lemma mapM_res_returns {A B} (f : A → res B) l :
  (∀ x, x ∈ l → ∃ y, f x = Ret y) → ∃ ys, mapM f l = Ret ys.
Proof.
  induction l as [|x l IH]; intros Hf; [by eexists|].
  destruct (Hf x) as [y Hy]; [left|].
  destruct IH as [ys Hys]; [intros x' Hx'; apply Hf; by right|].
  exists (y :: ys). cbn [mapM]. by rewrite Hy, Hys.
Qed.

Lemma dict_get_set {V} (k k' : string) (v : V) d :
  dict_get k (dict_set k' v d) = if String.eqb k k' then Some v else dict_get k d.
Proof.
  induction d as [|[k0 v0] d IH]; cbn [dict_set dict_get]; [done|].
  destruct (String.eqb_spec k' k0) as [->|Hne]; cbn [dict_get].
  - by destruct (String.eqb k k0).
  - rewrite IH. destruct (String.eqb_spec k k0) as [->|?]; [|done].
    by rewrite (proj2 (String.eqb_neq _ _)).
Qed.

Lemma elem_of_dict_keys {V} (k : string) (d : list (string * V)) :
  k ∈ dict_keys d ↔ is_Some (dict_get k d).
Proof.
  unfold dict_keys. induction d as [|[k0 v0] d IH]; cbn [fmap list_fmap dict_get].
  - split; [by intros ?%elem_of_nil|by intros [? [=]]].
  - simpl. rewrite elem_of_cons, IH.
    destruct (String.eqb_spec k k0) as [->|Hne]; [split; eauto|].
    split; [by intros [?|?]|by right].
Qed.

Lemma NoDup_dict_set {V} (k : string) (v : V) d :
  NoDup (dict_keys d) → NoDup (dict_keys (dict_set k v d)).
Proof.
  induction d as [|[k0 v0] d IH]; cbn [dict_set].
  - intros _. apply NoDup_singleton.
  - unfold dict_keys. cbn [fmap list_fmap]. simpl. intros [Hk0 Hd]%NoDup_cons.
    destruct (String.eqb_spec k k0) as [->|Hne]; cbn [fmap list_fmap]; simpl.
    + by apply NoDup_cons.
    + apply NoDup_cons. split; [|by apply IH].
      fold (dict_keys (dict_set k v d)). rewrite elem_of_dict_keys, dict_get_set.
      rewrite (proj2 (String.eqb_neq _ _)) by done.
      by rewrite <-elem_of_dict_keys.
Qed.

Lemma dict_of_items_NoDup {V} (items : list (string * V)) :
  NoDup (dict_keys (dict_of_items items)).
Proof.
  unfold dict_of_items. assert (Hnil : NoDup (dict_keys (@nil (string * V)))) by constructor.
  revert Hnil. generalize (@nil (string * V)).
  induction items as [|[k v] items IH]; intros d Hd; [done|].
  cbn [foldl]. apply IH. by apply NoDup_dict_set.
Qed.

Lemma dict_get_foldl_absent {V} (k : string) (items d : list (string * V)) :
  k ∉ items.*1 →
  dict_get k (foldl (λ d kv, dict_set kv.1 kv.2 d) d items) = dict_get k d.
Proof.
  revert d. induction items as [|[k0 v0] items IH]; intros d Hk; [done|].
  cbn [foldl]. rewrite IH, dict_get_set.
  - rewrite (proj2 (String.eqb_neq _ _)); [done|]. intros ->. apply Hk. left.
  - intros Hin. apply Hk. by right.
Qed.

(** The value of a key is that of the last item with the key. *)
Lemma dict_of_items_last {V} (k : string) (v : V) items1 items2 :
  k ∉ items2.*1 → dict_get k (dict_of_items (items1 ++ (k, v) :: items2)) = Some v.
Proof.
  intros Hk. unfold dict_of_items. rewrite foldl_app. cbn [foldl].
  rewrite dict_get_foldl_absent by done. rewrite dict_get_set.
  by rewrite String.eqb_refl.
Qed.

Lemma dict_of_items_keys {V} (k : string) (items : list (string * V)) :
  k ∈ dict_keys (dict_of_items items) ↔ k ∈ items.*1.
Proof.
  rewrite elem_of_dict_keys. unfold dict_of_items.
  assert (Hgen : ∀ d, is_Some (dict_get k (foldl (λ d kv, dict_set kv.1 kv.2 d) d items))
                      ↔ is_Some (dict_get k d) ∨ k ∈ items.*1).
  { induction items as [|[k0 v0] items IH]; intros d; cbn [foldl].
    - split; [by left|]. intros [?|?%elem_of_nil]; done.
    - rewrite IH, dict_get_set. cbn [fmap list_fmap]. simpl. rewrite elem_of_cons.
      destruct (String.eqb_spec k k0) as [->|Hne]; [split; eauto|]. tauto. }
  rewrite Hgen. cbn [dict_get]. split; [by intros [[? [=]]|?]|by right].
Qed.

Lemma get_expression_map_items s :
  get_expression_map s
  = (items ← mapM expression_item (List.filter feeds_map (cells s));
     mret (dict_of_items items)).
Proof.
  unfold get_expression_map, get_expression_id_cells, get_cells, xpath.
  by rewrite filter_filter_bool.
Qed.

Lemma feeds_map_defines c :
  feeds_map c = true ↔ ∃ k, defines k c.
Proof.
  unfold feeds_map, defines. cbn [holds].
  rewrite andb_true_iff, !bool_decide_eq_true. split.
  - intros [[k Hk] Ht]. by exists k.
  - intros (k & Hk & Ht). split; [by exists k|done].
Qed.

Lemma expression_item_inv c it :
  feeds_map c = true → expression_item c = Ret it →
  ∃ p txt, coordinate c = Ret p ∧ text c = Some txt
           ∧ get c "ExprID" = Some it.1 ∧ it = (it.1, (p, txt)).
Proof.
  intros (k & Hk & Ht)%feeds_map_defines. unfold expression_item, coordinate.
  destruct (row c) as [r|]; [|done]. cbn [mbind res_bind].
  destruct (column c) as [q|]; [|done]. cbn [mbind res_bind mret res_ret].
  intros [= <-]. destruct (text c) as [txt|]; [|done].
  exists (r, q), txt. by rewrite Hk.
Qed.

Lemma expression_item_coordinate c p :
  coordinate c = Ret p → ∃ it, expression_item c = Ret it.
Proof.
  unfold expression_item, coordinate.
  destruct (row c) as [r|]; [|done]. cbn [mbind res_bind].
  destruct (column c) as [q|]; [|done]. by eexists.
Qed.

(** X9.  [get_expression_map] returns when every cell that has an expression
    id and a text has a row and a column that can be read.  The map it
    returns has one entry for each expression id that such a cell
    carries, and the entry holds the coordinate and the text of the last
    of these cells in document order. *)
Theorem get_expression_map_entries s :
  ((∀ c k, c ∈ cells s → defines k c → ∃ p, coordinate c = Ret p) →
   ∃ m, get_expression_map s = Ret m)
  ∧ (∀ m, get_expression_map s = Ret m →
       NoDup (dict_keys m)
       ∧ (∀ k, k ∈ dict_keys m ↔ ∃ c, c ∈ cells s ∧ defines k c)
       ∧ (∀ k l1 c l2,
            cells s = (l1 ++ c :: l2)%list → defines k c →
            (∀ c', c' ∈ l2 → ¬ defines k c') →
            ∃ p txt, coordinate c = Ret p ∧ text c = Some txt
                     ∧ dict_get k m = Some (p, txt))).
Proof.
  rewrite get_expression_map_items. split.
  { intros Hcoord.
    destruct (mapM_res_returns expression_item (List.filter feeds_map (cells s)))
      as [items Hitems].
    - intros c [Hc Hfeeds]%list_elem_of_In%filter_In.
      apply feeds_map_defines in Hfeeds as [k Hk].
      destruct (Hcoord c k) as [p Hp]; [by apply list_elem_of_In|done|].
      by apply (expression_item_coordinate c p).
    - rewrite Hitems. by eexists. }
  intros m Hm.
  destruct (mapM expression_item (List.filter feeds_map (cells s))) as [items|] eqn:Hitems;
    [|done].
  cbn [mbind res_bind mret res_ret] in Hm. injection Hm as <-.
  apply mapM_res_Forall2 in Hitems.
  assert (Hkeys : ∀ l items' k,
            Forall2 (λ c it, expression_item c = Ret it) (List.filter feeds_map l) items' →
            k ∈ items'.*1 ↔ ∃ c, c ∈ l ∧ defines k c).
  { intros l items' k Hall. split.
    - intros (it & -> & Hit)%list_elem_of_fmap.
      apply list_elem_of_lookup in Hit as [i Hi].
      destruct (Forall2_lookup_r _ _ _ _ _ Hall Hi) as (c & Hc & Hitem).
      apply list_elem_of_lookup_2, list_elem_of_In, filter_In in Hc as [Hc Hfeeds].
      destruct (expression_item_inv c it Hfeeds Hitem) as (p & txt & _ & Ht & Hid & _).
      exists c. split; [by apply list_elem_of_In|]. split; [done|]. by rewrite Ht.
    - intros (c & Hc & Hk).
      assert (Hfeeds : feeds_map c = true) by (apply feeds_map_defines; by exists k).
      assert (Hsel : c ∈ List.filter feeds_map l).
      { apply list_elem_of_In, filter_In. split; [by apply list_elem_of_In|done]. }
      apply list_elem_of_lookup in Hsel as [i Hi].
      destruct (Forall2_lookup_l _ _ _ _ _ Hall Hi) as (it & Hit & Hitem).
      destruct (expression_item_inv c it Hfeeds Hitem) as (p & txt & _ & _ & Hid & _).
      destruct Hk as [Hk _]. rewrite Hk in Hid. injection Hid as ->.
      apply list_elem_of_fmap. exists it. split; [done|]. by apply (list_elem_of_lookup_2 _ i). }
  split; [apply dict_of_items_NoDup|]. split.
  { intros k. rewrite dict_of_items_keys. by apply Hkeys. }
  intros k l1 c l2 Hcells Hk Hlast.
  assert (Hfeeds : feeds_map c = true) by (apply feeds_map_defines; by exists k).
  rewrite Hcells, List.filter_app in Hitems. cbn [List.filter] in Hitems.
  rewrite Hfeeds in Hitems.
  apply Forall2_app_inv_l in Hitems as (items1 & rest & _ & Hrest & ->).
  apply Forall2_cons_inv_l in Hrest as (it & items2 & Hitem & Hitems2 & ->).
  destruct (expression_item_inv c it Hfeeds Hitem) as (p & txt & Hp & Ht & Hid & Hit).
  destruct Hk as [Hk _]. rewrite Hk in Hid. injection Hid as Hid.
  exists p, txt. split; [done|]. split; [done|].
  rewrite Hit, <-Hid. apply dict_of_items_last.
  intros (c' & Hc' & Hk')%(Hkeys l2 items2 k Hitems2). by apply (Hlast c').
Qed.

(** ** Allocating an expression id *)

(** X10.  The id [set_value] allocates for an expression without one is the
    decimal text of an integer greater than every key of the expression
    map, and so is not a key of the map. *)
Theorem next_expression_id_fresh {V} (m : list (string * V)) i :
  next_expression_id m = Ret i →
  (i ∉ dict_keys m)
  ∧ ∃ n, int_str i = Ret n ∧ ∀ k, k ∈ dict_keys m → ∃ j, int_str k = Ret j ∧ j < n.
Proof.
  intros (Hne & ids & mx & Hids & Hmx & ->)%next_expression_id_inv.
  apply mapM_res_Forall2 in Hids.
  assert (Hbound : ∀ k, k ∈ dict_keys m → ∃ j, int_str k = Ret j ∧ j < mx + 1).
  { intros k [n Hn]%list_elem_of_lookup.
    destruct (Forall2_lookup_l _ _ _ _ _ Hids Hn) as (j & Hj & Hk).
    exists j. split; [done|].
    destruct ids as [|x ids]; [done|]. destruct Hmx as [_ Hle].
    pose proof (Hle j (list_elem_of_lookup_2 _ _ _ Hj)). lia. }
  split.
  - intros (j & Hj & Hlt)%Hbound. rewrite int_str_str_int in Hj. injection Hj as <-. lia.
  - exists (mx + 1). split; [apply int_str_str_int|done].
Qed.

Lemma next_expression_id_fresh_witness :
  ("5" ∉ dict_keys [("4", ((0, 0), "=1+1"))])
  ∧ ∃ n, int_str "5" = Ret n
         ∧ ∀ k, k ∈ dict_keys [("4", ((0, 0), "=1+1"))] → ∃ j, int_str k = Ret j ∧ j < n.
Proof.
  apply (next_expression_id_fresh [("4", ((0, 0), "=1+1"))] "5"). reflexivity.
Defined.

(** ** What [cell] does to the tree *)

Lemma with_cells_same s : with_cells (cells s) s = s.
Proof. by destruct s. Qed.

Section cell_effects.
Context `{CellCall}.

(** [cell] in full. *)
Lemma cell_run s row_idx col_idx create :
  cell row_idx col_idx create s
  = match is_valid_row s row_idx with
    | Raise e => (Raise e, s)
    | Ret false =>
        (m ← max_allowed_row s;
         Raise (IndexError ("Row (" ++ str_int row_idx
                            ++ ") for cell is out of allowed bounds of [0, "
                            ++ str_int m ++ "]")), s)
    | Ret true =>
        match is_valid_column s col_idx with
        | Raise e => (Raise e, s)
        | Ret false =>
            (m ← max_allowed_column s;
             Raise (IndexError ("Column (" ++ str_int col_idx
                                ++ ") for cell is out of allowed bounds of [0, "
                                ++ str_int m ++ "]")), s)
        | Ret true =>
            match find (position_selector row_idx col_idx) (cells s) with
            | Some (i, _) => (Cell_of i, s)
            | None =>
                if create then
                  (Cell_of (length (cells s)),
                   with_cells (cells s ++ [NEW_CELL row_idx col_idx VALUE_TYPE_EMPTY]) s)
                else (Raise (IndexError ("No cell exists at position (" ++ str_int row_idx
                                         ++ ", " ++ str_int col_idx ++ ")")), s)
            end
        end
    end.
Proof.
  unfold cell. rewrite M_bind_read.
  destruct (is_valid_row s row_idx) as [[|]|]; [|cbn [negb]|done].
  - cbn [negb]. rewrite M_bind_read.
    destruct (is_valid_column s col_idx) as [[|]|]; [|cbn [negb]|done].
    + cbn [negb]. rewrite M_bind_read. unfold get_cells, position_selector.
      destruct (find _ (cells s)) as [[i c]|]; [done|]. by destruct create.
    + rewrite M_bind_read. by destruct (max_allowed_column s).
  - rewrite M_bind_read. by destruct (max_allowed_row s).
Qed.

Lemma cell_tree s row_idx col_idx create :
  (cell row_idx col_idx create s).2
  = if creates s row_idx col_idx create
    then with_cells (cells s ++ [NEW_CELL row_idx col_idx VALUE_TYPE_EMPTY]) s
    else s.
Proof.
  rewrite cell_run. unfold creates.
  destruct (is_valid_row s row_idx) as [[|]|]; [|done..].
  destruct (is_valid_column s col_idx) as [[|]|]; [|done..].
  destruct (find _ (cells s)) as [[i c]|]; [done|]. by destruct create.
Qed.

Lemma creates_inv s row_idx col_idx create :
  creates s row_idx col_idx create = true →
  is_valid_row s row_idx = Ret true ∧ is_valid_column s col_idx = Ret true
  ∧ find (position_selector row_idx col_idx) (cells s) = None ∧ create = true.
Proof.
  unfold creates.
  destruct (is_valid_row s row_idx) as [[|]|]; [|done..].
  destruct (is_valid_column s col_idx) as [[|]|]; [|done..].
  destruct (find _ (cells s)) as [[i c]|]; [done|]. by intros ->.
Qed.

Lemma find_position_None l row_idx col_idx :
  find (position_selector row_idx col_idx) l = None →
  ∀ c, c ∈ l → ¬ at_position row_idx col_idx c.
Proof.
  intros Hnone c Hc Hpos. unfold find in Hnone.
  rewrite list_find_None, Forall_forall in Hnone.
  by apply (Hnone c Hc), holds_at_position.
Qed.

Lemma NEW_CELL_is_empty row_idx col_idx :
  holds (Not EMPTY_CELL_XPATH_SELECTOR) (NEW_CELL row_idx col_idx VALUE_TYPE_EMPTY) = false.
Proof.
  apply not_true_iff_false. rewrite holds_not_empty_selector. intros Hne. apply Hne.
  left. by destruct (get_NEW_CELL row_idx col_idx VALUE_TYPE_EMPTY) as (_ & _ & -> & _).
Qed.

(** X11.  Whatever its outcome, [cell] changes no cell of the sheet and
    removes none.  It appends at most one cell, and only when [create] is
    set, both indices are valid and no cell carries the position; the cell
    it appends is the cell of type EMPTY at that position, which counts
    as empty, so the non-empty cells and with them the dimension of the
    sheet are as before the call. *)
Theorem cell_appends s row_idx col_idx create :
  ∃ l, (cell row_idx col_idx create s).2 = with_cells (cells s ++ l) s
       ∧ (l = []
          ∨ (l = [NEW_CELL row_idx col_idx VALUE_TYPE_EMPTY] ∧ create = true
             ∧ is_valid_row s row_idx = Ret true
             ∧ is_valid_column s col_idx = Ret true
             ∧ ∀ c, c ∈ cells s → ¬ at_position row_idx col_idx c))
       ∧ get_non_empty_cells (cell row_idx col_idx create s).2 = get_non_empty_cells s
       ∧ calculate_dimension (cell row_idx col_idx create s).2 = calculate_dimension s.
Proof.
  rewrite cell_tree. destruct (creates s row_idx col_idx create) eqn:Hcreates.
  - apply creates_inv in Hcreates as (Hrow & Hcol & Hnone & ->).
    exists [NEW_CELL row_idx col_idx VALUE_TYPE_EMPTY]. split; [done|].
    split.
    { right. split; [done|]. split; [done|]. split; [done|]. split; [done|].
      by apply find_position_None. }
    assert (Hne : get_non_empty_cells
                    (with_cells (cells s ++ [NEW_CELL row_idx col_idx VALUE_TYPE_EMPTY]) s)
                  = get_non_empty_cells s).
    { unfold get_non_empty_cells, get_cells, xpath. cbn [cells with_cells].
      rewrite List.filter_app. cbn [List.filter]. rewrite NEW_CELL_is_empty.
      apply app_nil_r. }
    split; [done|].
    unfold calculate_dimension, min_row, min_column, max_row, max_column.
    by rewrite Hne.
  - exists []. rewrite app_nil_r, with_cells_same. by repeat split; [left|..].
Qed.

(** X12.  Asking for the same cell again gives the outcome of the first call
    and changes nothing. *)
Theorem cell_again s row_idx col_idx create :
  cell row_idx col_idx create (cell row_idx col_idx create s).2
  = cell row_idx col_idx create s.
Proof.
  rewrite cell_tree. destruct (creates s row_idx col_idx create) eqn:Hcreates; [|done].
  apply creates_inv in Hcreates as (Hrow & Hcol & Hnone & ->).
  rewrite !cell_run.
  change (is_valid_row (with_cells ?l s)) with (is_valid_row s).
  change (is_valid_column (with_cells ?l s)) with (is_valid_column s).
  rewrite Hrow, Hcol, Hnone. cbn [cells with_cells].
  unfold find in *. rewrite list_find_app_r by done.
  cbn [list_find]. rewrite decide_True.
  - cbn. reflexivity.
  - apply holds_at_position. by destruct (NEW_CELL_empty row_idx col_idx).
Qed.

(** X13.  No two cells carry one position: [cell] keeps it so. *)
Theorem cell_keeps_positions_distinct s row_idx col_idx create :
  NoDup (positions s) → NoDup (positions (cell row_idx col_idx create s).2).
Proof.
  intros Hs. rewrite cell_tree.
  destruct (creates s row_idx col_idx create) eqn:Hcreates; [|done].
  apply creates_inv in Hcreates as (_ & _ & Hnone & _).
  unfold positions. cbn [cells with_cells]. rewrite fmap_app.
  apply NoDup_app. split; [done|]. split; [|apply NoDup_singleton].
  intros p (c & -> & Hc)%list_elem_of_fmap Hnew. cbn [fmap list_fmap] in Hnew.
  apply list_elem_of_singleton in Hnew.
  destruct (get_NEW_CELL row_idx col_idx VALUE_TYPE_EMPTY) as (Hr & Hk & _).
  rewrite Hr, Hk in Hnew. injection Hnew as Hrow Hcol.
  by apply (find_position_None _ _ _ Hnone c Hc).
Qed.

End cell_effects.

Lemma cell_keeps_positions_distinct_witness :
  NoDup (positions (sample_sheet sample_cells))
  ∧ NoDup (positions (@cell as_written 0 0 true (sample_sheet sample_cells)).2).
Proof.
  assert (Hdistinct : NoDup (positions (sample_sheet sample_cells))).
  { apply (bool_decide_unpack _). vm_compute. exact I. }
  split; [exact Hdistinct|].
  exact (@cell_keeps_positions_distinct as_written (sample_sheet sample_cells) 0 0 true
           Hdistinct).
Defined.

(** ** The bounds of the sheet *)

(** X14.  An index is valid when it is not negative and less than the number
    of rows, or of columns, the sheet declares.  A negative index is
    found invalid before the declaration is read; otherwise a sheet that
    declares no number raises [TypeError]. *)
Theorem is_valid_index s i :
  (i < 0 → is_valid_row s i = Ret false ∧ is_valid_column s i = Ret false)
  ∧ (∀ n, sheet_name s !! qualified s "Rows" = Some (str_int n) →
       max_allowed_row s = Ret (n - 1)
       ∧ is_valid_row s i = Ret (bool_decide (0 ≤ i < n)))
  ∧ (∀ n, sheet_name s !! qualified s "Cols" = Some (str_int n) →
       max_allowed_column s = Ret (n - 1)
       ∧ is_valid_column s i = Ret (bool_decide (0 ≤ i < n)))
  ∧ (0 ≤ i → sheet_name s !! qualified s "Rows" = None →
       is_valid_row s i = Raise TypeError)
  ∧ (0 ≤ i → sheet_name s !! qualified s "Cols" = None →
       is_valid_column s i = Raise TypeError).
Proof.
  assert (Hiff : ∀ n, bool_decide (0 ≤ i ≤ n - 1) = bool_decide (0 ≤ i < n)).
  { intros n. apply bool_decide_ext. lia. }
  split; [|split; [|split; [|split]]].
  - intros Hneg. unfold is_valid_row, is_valid_column.
    by rewrite (proj2 (Z.leb_gt 0 i)).
  - intros n Hn.
    assert (Hmax : max_allowed_row s = Ret (n - 1)).
    { unfold max_allowed_row. rewrite Hn. cbn [int_opt]. by rewrite int_str_str_int. }
    split; [done|]. by rewrite (is_valid_row_spec s i (n - 1)), Hiff.
  - intros n Hn.
    assert (Hmax : max_allowed_column s = Ret (n - 1)).
    { unfold max_allowed_column. rewrite Hn. cbn [int_opt]. by rewrite int_str_str_int. }
    split; [done|]. by rewrite (is_valid_column_spec s i (n - 1)), Hiff.
  - intros Hi Hn. unfold is_valid_row, max_allowed_row.
    by rewrite (proj2 (Z.leb_le 0 i)), Hn.
  - intros Hi Hn. unfold is_valid_column, max_allowed_column.
    by rewrite (proj2 (Z.leb_le 0 i)), Hn.
Qed.

(** ** Compaction of a sheet that has no data, or is a chart *)

Section compaction_without_data.
Context `{CellCall}.

(** X15.  On a chart sheet [_clean_data] removes the empty cells and then
    raises [UnsupportedOperationException], with MaxCol and MaxRow as
    they were.  On a regular sheet whose cells are all empty it returns,
    leaves no cell, records -1 as MaxCol and as MaxRow, and a second run
    changes nothing.  Neither depends on the call [cell.Cell(c, self)]. *)
Theorem clean_data_without_data s :
  (is_object s = true →
   _clean_data s
   = (Raise (UnsupportedOperationException "Chartsheet does not have max column"),
      with_cells (get_non_empty_cells s) s))
  ∧ (is_object s = false → get_non_empty_cells s = [] →
     _clean_data s
     = (Ret tt, with_MaxRow (Some "-1") (with_MaxCol (Some "-1") (with_cells [] s)))
     ∧ _clean_data (with_MaxRow (Some "-1") (with_MaxCol (Some "-1") (with_cells [] s)))
       = (Ret tt, with_MaxRow (Some "-1") (with_MaxCol (Some "-1") (with_cells [] s)))).
Proof.
  split.
  - intros Hobj. rewrite clean_data_loop, M_bind_read.
    unfold max_column. change (is_object (with_cells ?l s)) with (is_object s).
    by rewrite Hobj.
  - intros Hreg Hnil.
    assert (Hrun : ∀ s0, is_object s0 = false → get_non_empty_cells s0 = [] →
              _clean_data s0
              = (Ret tt, with_MaxRow (Some "-1") (with_MaxCol (Some "-1") (with_cells [] s0)))).
    { intros s0 Hreg0 Hnil0. rewrite (clean_data_run s0 (-1) (-1)).
      - by rewrite Hnil0.
      - unfold max_column. change (is_object (with_cells ?l s0)) with (is_object s0).
        by rewrite Hreg0, get_non_empty_cells_idem, Hnil0.
      - unfold max_row. change (is_object (with_cells ?l s0)) with (is_object s0).
        by rewrite Hreg0, get_non_empty_cells_idem, Hnil0. }
    split; [by apply Hrun|]. by rewrite Hrun.
Qed.

End compaction_without_data.

(** ** The text of a cell *)

(** With the call as the sources have it, [cell] with [create=False]
    raises on every input. *)
Lemma cell_without_create_as_written s row_idx col_idx :
  ∃ e, @cell as_written row_idx col_idx false s = (Raise e, s).
Proof.
  rewrite cell_run.
  destruct (is_valid_row s row_idx) as [[|]|e]; [| |by exists e].
  - destruct (is_valid_column s col_idx) as [[|]|e]; [| |by exists e].
    + destruct (find _ (cells s)) as [[i c]|]; by eexists.
    + destruct (max_allowed_column s) as [m|e]; by eexists.
  - destruct (max_allowed_row s) as [m|e]; by eexists.
Qed.

(** X16.  [cell_text] never changes the tree, whatever its outcome.  With the
    call [cell.Cell(cell_found, self)] as the sources have it, it raises
    on every input.  Whatever that call does: on a sheet that declares no
    number of rows it raises the [TypeError] of reading the bound; on a
    sheet whose bounds are read, a row out of bounds raises [IndexError]
    with the row and the bound in its message, a column out of bounds
    with the row within bounds likewise, and a position within bounds
    that no cell carries raises [IndexError] with the position in its
    message.  Where a cell carries the position, the call as written
    raises [TypeError], and with a call that returns, [cell_text] returns
    the text of the first cell that carries the position.  The indices
    and bounds that go into a message are within the limit of digits
    [str] writes. *)
Theorem cell_text_reads s row_idx col_idx :
  (∀ call : CellCall, (@cell_text call row_idx col_idx s).2 = s)
  ∧ (∃ e, @cell_text as_written row_idx col_idx s = (Raise e, s))
  ∧ (∀ i c, find (position_selector row_idx col_idx) (cells s) = Some (i, c) →
       is_valid_row s row_idx = Ret true → is_valid_column s col_idx = Ret true →
       @cell_text as_written row_idx col_idx s = (Raise TypeError, s)
       ∧ ∀ call : CellCall, @Cell_call call = Ret tt →
           @cell_text call row_idx col_idx s = (Ret (text c), s))
  ∧ (sheet_name s !! qualified s "Rows" = None →
     str_digits row_idx ≤ int_max_str_digits →
     ∀ call : CellCall, @cell_text call row_idx col_idx s = (Raise TypeError, s))
  ∧ (∀ R C, max_allowed_row s = Ret R → max_allowed_column s = Ret C →
       str_digits row_idx ≤ int_max_str_digits →
       str_digits col_idx ≤ int_max_str_digits →
       str_digits R ≤ int_max_str_digits →
       str_digits C ≤ int_max_str_digits →
       ∀ call : CellCall,
         (¬ 0 ≤ row_idx ≤ R →
          @cell_text call row_idx col_idx s
          = (Raise (IndexError ("Row (" ++ str_int row_idx
                                ++ ") for cell is out of allowed bounds of [0, "
                                ++ str_int R ++ "]")), s))
         ∧ (0 ≤ row_idx ≤ R → ¬ 0 ≤ col_idx ≤ C →
            @cell_text call row_idx col_idx s
            = (Raise (IndexError ("Column (" ++ str_int col_idx
                                  ++ ") for cell is out of allowed bounds of [0, "
                                  ++ str_int C ++ "]")), s))
         ∧ (0 ≤ row_idx ≤ R → 0 ≤ col_idx ≤ C →
            (∀ c, c ∈ cells s → ¬ at_position row_idx col_idx c) →
            @cell_text call row_idx col_idx s
            = (Raise (IndexError ("No cell exists at position (" ++ str_int row_idx
                                  ++ ", " ++ str_int col_idx ++ ")")), s))
         ∧ (0 ≤ row_idx ≤ R → 0 ≤ col_idx ≤ C →
            ∀ i c, cells s !! i = Some c → at_position row_idx col_idx c →
              (∀ j c', cells s !! j = Some c' → (j < i)%nat →
                 ¬ at_position row_idx col_idx c') →
              @cell_text call row_idx col_idx s
              = (match @Cell_call call with
                 | Ret _ => Ret (text c)
                 | Raise e => Raise e
                 end, s))).
Proof.
  split; [|split; [|split; [|split]]].
  - intros call. unfold cell_text.
    pose proof (@cell_tree call s row_idx col_idx false) as Htree.
    assert (Hno : creates s row_idx col_idx false = false).
    { unfold creates. destruct (is_valid_row s row_idx) as [[|]|]; [|done..].
      destruct (is_valid_column s col_idx) as [[|]|]; [|done..].
      by destruct (find _ (cells s)). }
    rewrite Hno in Htree. unfold mbind, M_bind.
    destruct (cell row_idx col_idx false s) as [[i|e] s1]; simpl in Htree; by subst s1.
  - destruct (cell_without_create_as_written s row_idx col_idx) as [e He].
    exists e. unfold cell_text. by apply M_bind_raise.
  - intros i c Hfind Hrow Hcol. split.
    + unfold cell_text. apply M_bind_raise. by rewrite cell_run, Hrow, Hcol, Hfind.
    + intros call Hcall. unfold cell_text.
      rewrite (M_bind_ret _ _ s i s).
      * unfold read, element_of. apply list_find_Some in Hfind as (Hi & _).
        by rewrite Hi.
      * rewrite cell_run, Hrow, Hcol, Hfind. unfold Cell_of. by rewrite Hcall.
  - intros Hrows _ call. unfold cell_text. apply M_bind_raise. rewrite cell_run.
    unfold is_valid_row, max_allowed_row. rewrite Hrows.
    by destruct (0 <=? row_idx).
  - intros R C HR HC _ _ _ _ call.
    split; [|split; [|split]].
    + intros Hout. unfold cell_text. apply M_bind_raise.
      rewrite cell_run, (is_valid_row_spec _ _ _ HR), bool_decide_eq_false_2 by done.
      by rewrite HR.
    + intros Hrow Hout. unfold cell_text. apply M_bind_raise.
      rewrite cell_run, (is_valid_row_spec _ _ _ HR), bool_decide_eq_true_2 by done.
      rewrite (is_valid_column_spec _ _ _ HC), bool_decide_eq_false_2 by done.
      by rewrite HC.
    + intros Hrow Hcol Hnone. unfold cell_text. apply M_bind_raise.
      rewrite (cell_in_bounds _ _ _ _ R C) by done.
      by rewrite (find_at_position_None _ _ _ Hnone).
    + intros Hrow Hcol i c Hi Hpos Hfirst. unfold cell_text.
      unfold mbind at 1, M_bind.
      rewrite (cell_in_bounds _ _ _ _ R C) by done.
      rewrite (find_at_position_Some _ _ _ i c Hi Hpos Hfirst).
      unfold Cell_of. destruct Cell_call; [|done].
      cbn. unfold read, element_of. by rewrite Hi.
Qed.

(** On the sample sheet: a row out of bounds, a position no cell carries,
    and the string at (12, 9). *)
Example cell_text_sample :
  @cell_text as_written 70000 0 (sample_sheet sample_cells)
  = (Raise (IndexError "Row (70000) for cell is out of allowed bounds of [0, 65535]"),
     sample_sheet sample_cells)
  ∧ @cell_text as_written 0 300 (sample_sheet sample_cells)
    = (Raise (IndexError "Column (300) for cell is out of allowed bounds of [0, 255]"),
       sample_sheet sample_cells)
  ∧ @cell_text as_written 0 0 (sample_sheet sample_cells)
    = (Raise (IndexError "No cell exists at position (0, 0)"), sample_sheet sample_cells)
  ∧ @cell_text as_written 12 9 (sample_sheet sample_cells)
    = (Raise TypeError, sample_sheet sample_cells)
  ∧ @cell_text with_four_arguments 12 9 (sample_sheet sample_cells)
    = (Ret (Some "total"), sample_sheet sample_cells).
Proof. vm_compute. done. Qed.

(** ** The collection of cells *)

Lemma handles_nil p s : handles p s = [] ↔ List.filter p (cells s) = [].
Proof.
  unfold handles, get_cells.
  rewrite <-(imap_pair_snd (cells s)) at 2. rewrite <-(filter_snd p).
  split; intros Hnil.
  - apply fmap_nil_inv in Hnil. by rewrite Hnil.
  - apply fmap_nil_inv in Hnil. by rewrite Hnil.
Qed.

Lemma filter_true {A} (l : list A) : List.filter (λ _, true) l = l.
Proof. induction l as [|x l IH]; [done|]. cbn [List.filter]. by rewrite IH. Qed.

Lemma sort_cells_nil row_major s : sort_cells [] row_major s = Ret [].
Proof. reflexivity. Qed.

Section collection_properties.
Context `{CellCall}.

Lemma get_cell_collection_run include_empty sort s :
  get_cell_collection include_empty sort s
  = match (if include_empty then handles (λ _, true) s
           else handles (holds (Not EMPTY_CELL_XPATH_SELECTOR)) s) with
    | [] => Ret []
    | selected =>
        _ ← Cell_call;
        if sort_bool sort then sort_cells selected (sort_is_row sort) s else Ret selected
    end.
Proof.
  unfold get_cell_collection.
  destruct (if include_empty then _ else _) as [|i l] eqn:Hsel.
  - cbn [mapM mbind res_bind mret res_ret]. by destruct (sort_bool sort).
  - destruct Cell_call as [[]|e] eqn:Hcall.
    + assert (Hwrap : mapM Cell_of (i :: l) = Ret (i :: l)).
      { generalize (i :: l). intros l'. induction l' as [|j l' IH]; [done|].
        cbn [mapM]. rewrite IH. unfold Cell_of. by rewrite Hcall. }
      by rewrite Hwrap.
    + assert (Hwrap : mapM Cell_of (i :: l) = Raise e).
      { cbn [mapM]. unfold Cell_of. by rewrite Hcall. }
      by rewrite Hwrap.
Qed.

End collection_properties.

(** X17.  With the call [cell.Cell(c, self)] as the sources have it,
    [get_cell_collection] returns the empty list when it selects no cell
    and raises [TypeError] as soon as it selects one: with
    [include_empty] the cells of the sheet are selected, without it the
    non-empty ones.  With a call that returns, the selected cells are
    returned in document order, or sorted when [sort] is a string that
    is not empty, by row first when the string is ["row"] and by column
    first for every other string. *)
Theorem get_cell_collection_as_written (include_empty : bool) sort s :
  ((if include_empty then cells s else get_non_empty_cells s) = [] →
   ∀ call : CellCall, @get_cell_collection call include_empty sort s = Ret [])
  ∧ ((if include_empty then cells s else get_non_empty_cells s) ≠ [] →
     @get_cell_collection as_written include_empty sort s = Raise TypeError
     ∧ ∀ call : CellCall, @Cell_call call = Ret tt →
         ∀ selected,
           selected = (if include_empty then handles (λ _, true) s
                       else handles (holds (Not EMPTY_CELL_XPATH_SELECTOR)) s) →
           (sort = SortFalse ∨ sort = SortBy "" →
            @get_cell_collection call include_empty sort s = Ret selected)
           ∧ (sort = SortBy "row" →
              @get_cell_collection call include_empty sort s = sort_cells selected true s)
           ∧ (∀ key, sort = SortBy key → key ≠ "" → key ≠ "row" →
                @get_cell_collection call include_empty sort s
                = sort_cells selected false s)).
Proof.
  assert (Hsel : (if include_empty then handles (λ _, true) s
                  else handles (holds (Not EMPTY_CELL_XPATH_SELECTOR)) s) = []
                 ↔ (if include_empty then cells s else get_non_empty_cells s) = []).
  { destruct include_empty; rewrite handles_nil; [by rewrite filter_true|done]. }
  split.
  - intros Hnil%Hsel call. by rewrite get_cell_collection_run, Hnil.
  - intros Hne. split.
    + rewrite get_cell_collection_run.
      destruct (if include_empty then handles _ s else _) as [|i l]; [|done].
      exfalso. by apply Hne, Hsel.
    + intros call Hcall selected ->. rewrite get_cell_collection_run, Hcall.
      destruct (if include_empty then handles _ s else _) as [|i l] eqn:Hl.
      { exfalso. by apply Hne, Hsel. }
      cbn [mbind res_bind]. split; [|split].
      * by intros [->| ->].
      * by intros ->.
      * intros key -> Hkey Hrow. cbn [sort_bool sort_is_row].
        by rewrite (proj2 (String.eqb_neq _ _) Hkey), (proj2 (String.eqb_neq _ _) Hrow).
Qed.

(** ** Sorting cells *)

Lemma tuple_lt_spec a b :
  tuple_lt a b = true ↔ a.1 < b.1 ∨ (a.1 = b.1 ∧ a.2 < b.2).
Proof.
  unfold tuple_lt.
  rewrite orb_true_iff, andb_true_iff, !Z.ltb_lt, Z.eqb_eq. tauto.
Qed.

Lemma tuple_lt_false a b :
  tuple_lt a b = false ↔ b.1 < a.1 ∨ (b.1 = a.1 ∧ b.2 ≤ a.2).
Proof.
  rewrite <-not_true_iff_false, tuple_lt_spec. lia.
Qed.

Section insertion.
Context {A : Type}.
Implicit Types (x y : (Z * Z) * A) (l : list ((Z * Z) * A)).

Lemma insert_sorted_perm x l : insert_sorted x l ≡ₚ x :: l.
Proof.
  induction l as [|y l IH]; cbn [insert_sorted]; [done|].
  destruct (tuple_lt y.1 x.1); [|done]. rewrite IH. apply Permutation_swap.
Qed.

Lemma insert_sorted_ascends x l :
  StronglySorted keys_ascend l → StronglySorted keys_ascend (insert_sorted x l).
Proof.
  induction l as [|y l IH]; cbn [insert_sorted]; intros Hl.
  - repeat constructor.
  - apply StronglySorted_inv in Hl as [Hl Hy].
    destruct (tuple_lt y.1 x.1) eqn:Hyx.
    + constructor; [by apply IH|]. rewrite insert_sorted_perm.
      constructor; [|done]. unfold keys_ascend.
      apply tuple_lt_spec in Hyx. apply tuple_lt_false. lia.
    + constructor; [by constructor|]. constructor; [done|].
      eapply Forall_impl; [exact Hy|]. intros z. unfold keys_ascend.
      rewrite !tuple_lt_false in *. lia.
Qed.

Lemma insert_sorted_filter k x l :
  List.filter (λ p, bool_decide (p.1 = k)) (insert_sorted x l)
  = List.filter (λ p, bool_decide (p.1 = k)) (x :: l).
Proof.
  induction l as [|y l IH]; cbn [insert_sorted]; [done|].
  destruct (tuple_lt y.1 x.1) eqn:Hyx; [|done].
  cbn [List.filter] in *. rewrite IH.
  repeat case_bool_decide; try done.
  assert (Hlt : tuple_lt k k = true) by congruence.
  apply tuple_lt_spec in Hlt. lia.
Qed.

Lemma foldr_insert_sorted_perm l : foldr insert_sorted [] l ≡ₚ l.
Proof.
  induction l as [|x l IH]; [done|]. cbn [foldr]. by rewrite insert_sorted_perm, IH.
Qed.

Lemma foldr_insert_sorted_ascends l : StronglySorted keys_ascend (foldr insert_sorted [] l).
Proof.
  induction l as [|x l IH]; [constructor|]. cbn [foldr]. by apply insert_sorted_ascends.
Qed.

Lemma foldr_insert_sorted_filter k l :
  List.filter (λ p, bool_decide (p.1 = k)) (foldr insert_sorted [] l)
  = List.filter (λ p, bool_decide (p.1 = k)) l.
Proof.
  induction l as [|x l IH]; [done|]. cbn [foldr].
  rewrite insert_sorted_filter. cbn [List.filter]. by rewrite IH.
Qed.

End insertion.

Lemma key_fn_coordinate s c el r k :
  cells s !! c = Some el → coordinate el = Ret (r, k) →
  key_fn true s c = Ret (r, k) ∧ key_fn false s c = Ret (k, r).
Proof.
  intros Hc. unfold coordinate, key_fn, element_of. rewrite Hc. cbn [mbind res_bind].
  destruct (row el) as [r'|]; [|done]. cbn [mbind res_bind].
  destruct (column el) as [k'|]; [|done]. cbn [mbind res_bind mret res_ret].
  by intros [= -> ->].
Qed.

(** X18.  [__sort_cells] on cells whose keys can be read returns the cells it
    was given, each as often as it was given, in an order in which no
    key is less than a key before it; cells with equal keys stay in the
    order they were given in.  The key of a cell is its (row, column)
    when [row_major] is set and its (column, row) otherwise. *)
Theorem sort_cells_sorted (l : list nat) row_major s :
  (∀ c, c ∈ l → ∃ k, key_fn row_major s c = Ret k) →
  ∃ out,
    sort_cells l row_major s = Ret out
    ∧ out ≡ₚ l
    ∧ StronglySorted (key_le row_major s) out
    ∧ (∀ k, List.filter (λ c, bool_decide (key_fn row_major s c = Ret k)) out
            = List.filter (λ c, bool_decide (key_fn row_major s c = Ret k)) l)
    ∧ (∀ c el r k, cells s !! c = Some el → coordinate el = Ret (r, k) →
         key_fn row_major s c = Ret (if row_major then (r, k) else (k, r))).
Proof.
  intros Hkeys.
  destruct (mapM_res_returns (key_fn row_major s) l Hkeys) as [keys Hmap].
  pose proof (proj1 (mapM_res_Forall2 _ _ _) Hmap) as Hall.
  pose proof (Forall2_length _ _ _ Hall) as Hlen.
  set (keyed := zip keys l).
  assert (Hsnd : keyed.*2 = l) by (apply snd_zip; lia).
  assert (Hkeyed : Forall (λ p, key_fn row_major s p.2 = Ret p.1) keyed).
  { apply Forall_forall. intros [k c] Hin.
    apply list_elem_of_lookup in Hin as [i Hi].
    apply lookup_zip_with_Some in Hi as (k' & c' & [= <- <-] & Hk & Hc).
    exact (Forall2_lookup_lr _ _ _ _ _ _ Hall Hc Hk). }
  assert (Hout : Forall (λ p, key_fn row_major s p.2 = Ret p.1)
                   (foldr insert_sorted [] keyed)).
  { by rewrite foldr_insert_sorted_perm. }
  exists (sorted keyed). split; [|split; [|split; [|split]]].
  - unfold sort_cells. by rewrite Hmap.
  - unfold sorted. by rewrite foldr_insert_sorted_perm, Hsnd.
  - unfold sorted. pose proof (foldr_insert_sorted_ascends keyed) as Hsorted.
    induction Hsorted as [|p rest Hrest IH Hp]; [constructor|].
    apply Forall_cons in Hout as [Hpk Hout].
    cbn [fmap list_fmap]. constructor; [by apply IH|].
    apply Forall_fmap, Forall_forall. intros q Hq.
    rewrite Forall_forall in Hp, Hout.
    exists p.1, q.1. split; [done|]. split; [by apply Hout|by apply Hp].
  - intros k. unfold sorted.
    rewrite <-(filter_snd (λ c, bool_decide (key_fn row_major s c = Ret k))).
    rewrite <-Hsnd.
    rewrite <-(filter_snd (λ c, bool_decide (key_fn row_major s c = Ret k)) keyed).
    rewrite (filter_ext_in _ (λ p, bool_decide (p.1 = k)) (foldr insert_sorted [] keyed)).
    + rewrite (filter_ext_in _ (λ p, bool_decide (p.1 = k)) keyed).
      * by rewrite foldr_insert_sorted_filter.
      * intros p Hp%list_elem_of_In. rewrite Forall_forall in Hkeyed.
        rewrite (Hkeyed p Hp). apply bool_decide_ext. split; congruence.
    + intros p Hp%list_elem_of_In. rewrite Forall_forall in Hout.
      rewrite (Hout p Hp). apply bool_decide_ext. split; congruence.
  - intros c el r k Hc Hcoord.
    destruct (key_fn_coordinate s c el r k Hc Hcoord) as [Hrow Hcol].
    by destruct row_major.
Qed.

Lemma sort_cells_sorted_witness :
  ∃ out,
    sort_cells [0; 1; 2]%nat true (sample_sheet sample_cells) = Ret out
    ∧ out ≡ₚ [0; 1; 2]%nat
    ∧ StronglySorted (key_le true (sample_sheet sample_cells)) out
    ∧ (∀ k, List.filter
              (λ c, bool_decide (key_fn true (sample_sheet sample_cells) c = Ret k)) out
            = List.filter
                (λ c, bool_decide (key_fn true (sample_sheet sample_cells) c = Ret k))
                [0; 1; 2]%nat)
    ∧ (∀ c el r k, cells (sample_sheet sample_cells) !! c = Some el →
         coordinate el = Ret (r, k) →
         key_fn true (sample_sheet sample_cells) c = Ret (r, k)).
Proof.
  apply (sort_cells_sorted [0; 1; 2]%nat true (sample_sheet sample_cells)).
  intros c Hc. repeat (apply elem_of_cons in Hc as [->|Hc]; [eexists; reflexivity|]).
  by apply elem_of_nil in Hc.
Defined.

(** The three sample cells, the second of them empty: the collection
    in document order, by row and by column, with the constructor called
    with four arguments and as the sources call it. *)
Example get_cell_collection_sample :
  @get_cell_collection with_four_arguments true SortFalse (sample_sheet sample_cells)
  = Ret [0; 1; 2]%nat
  ∧ @get_cell_collection with_four_arguments true (SortBy "row") (sample_sheet sample_cells)
    = Ret [1; 0; 2]%nat
  ∧ @get_cell_collection with_four_arguments false (SortBy "column")
      (sample_sheet sample_cells) = Ret [0; 2]%nat
  ∧ @get_cell_collection as_written false SortFalse (sample_sheet sample_cells)
    = Raise TypeError
  ∧ sort_cells [0; 1; 0]%nat false
      (sample_sheet [sample_cell "1" "5" None None None; sample_cell "9" "5" None None None])
    = Ret [0; 0; 1]%nat.
Proof. repeat split; vm_compute; reflexivity. Qed.

(** ** Equality of cells *)

(** X19.  Two cells of one sheet are equal when their rows and columns are
    equal as integers, whatever else the cells hold and however the
    numbers are written; when the rows differ the columns are not
    read. *)
Theorem cell_eq_coordinates a b s ea eb :
  cells s !! a = Some ea → cells s !! b = Some eb →
  (∀ pa pb, coordinate ea = Ret pa → coordinate eb = Ret pb →
     cell_eq a b s = Ret (bool_decide (pa = pb)))
  ∧ (∀ ra rb, row ea = Ret ra → row eb = Ret rb → ra ≠ rb → cell_eq a b s = Ret false).
Proof.
  intros Ha Hb. unfold cell_eq, element_of, coordinate. rewrite Ha, Hb.
  cbn [mbind res_bind]. split.
  - intros pa pb. destruct (row ea) as [ra|]; [|done]. destruct (row eb) as [rb|]; [|done].
    cbn [mbind res_bind].
    destruct (column ea) as [ca|]; [|done]. destruct (column eb) as [cb|]; [|done].
    cbn [mbind res_bind mret res_ret]. intros [= <-] [= <-].
    destruct (Z.eqb_spec ra rb) as [->|Hr].
    + cbn [mbind res_bind mret res_ret]. f_equal.
      destruct (Z.eqb_spec ca cb) as [->|Hc].
      * by rewrite bool_decide_eq_true_2.
      * rewrite bool_decide_eq_false_2; [done|]. by intros [= ?].
    + cbn [mret res_ret]. rewrite bool_decide_eq_false_2; [done|]. by intros [= ?].
  - intros ra rb -> -> Hne. cbn [mbind res_bind].
    by rewrite (proj2 (Z.eqb_neq _ _) Hne).
Qed.

Lemma cell_eq_coordinates_witness :
  (∀ pa pb, coordinate (sample_cell "06" "3" (Some "30") None (Some "42")) = Ret pa →
     coordinate (sample_cell " 6" "+3" None None None) = Ret pb →
     cell_eq 0%nat 1%nat
       (sample_sheet [sample_cell "06" "3" (Some "30") None (Some "42");
                      sample_cell " 6" "+3" None None None])
     = Ret (bool_decide (pa = pb)))
  ∧ (∀ ra rb, row (sample_cell "06" "3" (Some "30") None (Some "42")) = Ret ra →
       row (sample_cell " 6" "+3" None None None) = Ret rb → ra ≠ rb →
       cell_eq 0%nat 1%nat
         (sample_sheet [sample_cell "06" "3" (Some "30") None (Some "42");
                        sample_cell " 6" "+3" None None None])
       = Ret false).
Proof.
  apply (cell_eq_coordinates 0%nat 1%nat
           (sample_sheet [sample_cell "06" "3" (Some "30") None (Some "42");
                          sample_cell " 6" "+3" None None None])); reflexivity.
Defined.

(** ** The decimal text of an integer *)

Lemma all_digits_printable s : all_digits s = true → printable s = true.
Proof.
  induction s as [|a s IH]; [done|]. cbn [all_digits printable].
  rewrite !andb_true_iff. intros [Ha Hs]. split; [|by apply IH].
  unfold is_digit in Ha. cbv zeta in Ha. apply andb_true_iff in Ha as [Hlo Hhi].
  apply Nat.leb_le in Hlo, Hhi. split; [apply Nat.leb_le|apply Nat.ltb_lt]; lia.
Qed.

Lemma string_of_uint_printable d : printable (NilZero.string_of_uint d) = true.
Proof.
  destruct d; try done; apply all_digits_printable, string_of_uint_digits.
Qed.

Lemma str_int_printable n : printable (str_int n) = true.
Proof.
  unfold str_int. destruct (Z.to_int n) as [d|d]; cbn [NilZero.string_of_int].
  - apply string_of_uint_printable.
  - cbn [printable]. apply string_of_uint_printable.
Qed.

(** ** Integers *)

Section integers.
Context `{ExpressionClass}.

(** X20.  An integer of no more digits than the interpreter converts,
    set into any cell with the type inferred: the call returns, the cell
    holds the decimal text of the integer with type INTEGER, and
    [get_value] returns the integer.  An integer of more digits makes
    [str] raise [ValueError], and the call changes nothing. *)
Theorem integer_stored_and_read s self c n :
  cells s !! self = Some c →
  (str_digits n ≤ int_max_str_digits →
   ∃ s' c',
     set_value self (VInt n) Infer s = (Ret tt, s')
     ∧ cells s' !! self = Some c'
     ∧ text c' = Some (str_int n)
     ∧ get c' "ValueType" = Some "30"
     ∧ value_type c' = Ret VALUE_TYPE_INTEGER
     ∧ get_value self s' = Ret (VInt n))
  ∧ (int_max_str_digits < str_digits n →
     set_value self (VInt n) Infer s = (Raise ValueError, s)).
Proof.
  intros Hc. split.
  - intros Hn.
    assert (Hstr : stored_text VALUE_TYPE_INTEGER (VInt n) = Ret (Some (str_int n))).
    { unfold stored_text. cbn [str]. unfold py_str_int.
      by rewrite (proj2 (Z.leb_le _ _) Hn). }
    assert (Hok : xml_compatible (str_int n) = true).
    { apply printable_xml_compatible, str_int_printable. }
    eexists _, _. split; [|split; [|split; [|split; [|split]]]].
    + apply (set_value_plain s self c _ _ VALUE_TYPE_INTEGER (Some (str_int n)));
        [done|done| |done|done].
      right; right; by left.
    + cbn [cells with_cells]. by rewrite list_lookup_alter_eq, Hc.
    + cbn [compose]. by rewrite text_set_type.
    + cbn [compose]. by rewrite get_set_type_tag.
    + by apply value_type_set_type.
    + rewrite (get_value_stored s self c) by done. cbn -[int_str str_int].
      by rewrite int_str_str_int.
  - intros Hn.
    apply (proj1 (set_value_plain_raises s self c (VInt n) Infer VALUE_TYPE_INTEGER Hc eq_refl
                    (or_intror (or_intror (or_intror eq_refl))))).
    unfold stored_text. cbn [str]. unfold py_str_int.
    by rewrite (proj2 (Z.leb_gt _ _) Hn).
Qed.

End integers.

Lemma integer_stored_and_read_witness :
  (str_digits (-7) ≤ int_max_str_digits →
   ∃ s' c',
     @set_value sample_expression_class 2%nat (VInt (-7)) Infer (sample_sheet sample_cells)
     = (Ret tt, s')
     ∧ cells s' !! 2%nat = Some c'
     ∧ text c' = Some (str_int (-7))
     ∧ get c' "ValueType" = Some "30"
     ∧ value_type c' = Ret VALUE_TYPE_INTEGER
     ∧ get_value 2%nat s' = Ret (VInt (-7)))
  ∧ (int_max_str_digits < str_digits (-7) →
     @set_value sample_expression_class 2%nat (VInt (-7)) Infer (sample_sheet sample_cells)
     = (Raise ValueError, sample_sheet sample_cells)).
Proof.
  apply (@integer_stored_and_read sample_expression_class (sample_sheet sample_cells) 2%nat
           (sample_cell "12" "9" (Some "60") None (Some "total")) (-7)).
  reflexivity.
Defined.

(** ** The queries as the sources have them *)

(** X21.  With the call [cell.Cell(c, self)] as the sources have it, the
    dimension of a sheet is read only where there is nothing to read: on
    a chart sheet [calculate_dimension] raises
    [UnsupportedOperationException], on a regular sheet without non-empty
    cells it returns (-1, -1, -1, -1), and on every other sheet it raises
    [TypeError]; none of the four queries returns anything but -1. *)
Theorem dimension_as_written s :
  @calculate_dimension as_written s
  = (if is_object s
     then Raise (UnsupportedOperationException "Chartsheet does not have rows or columns")
     else match get_non_empty_cells s with
          | [] => Ret (-1, -1, -1, -1)
          | _ => Raise TypeError
          end)
  ∧ ∀ m, @min_row as_written s = Ret m ∨ @min_column as_written s = Ret m
         ∨ @max_row as_written s = Ret m ∨ @max_column as_written s = Ret m →
         m = -1 ∧ is_object s = false ∧ get_non_empty_cells s = [].
Proof.
  destruct (is_object s) eqn:Hobj.
  - split; [unfold calculate_dimension; by rewrite Hobj|].
    unfold min_row, min_column, max_row, max_column. rewrite Hobj.
    by intros m [?|[?|[?|?]]].
  - destruct (get_non_empty_cells s) as [|c l] eqn:Hdata.
    + split; [unfold calculate_dimension, min_row, min_column, max_row, max_column;
              by rewrite Hobj, Hdata|].
      unfold min_row, min_column, max_row, max_column. rewrite Hobj, Hdata.
      cbn [length Nat.eqb]. by intros m [[= <-]|[[= <-]|[[= <-]|[= <-]]]].
    + destruct (queries_as_written s Hobj) as (H0 & H1 & H2 & H3 & H4);
        [by rewrite Hdata|].
      split; [done|]. rewrite H0, H1, H2, H3. by intros m [?|[?|[?|?]]].
Qed.

(** ** Sharing an expression *)

Section sharing.
Context `{ExpressionClass}.



End sharing.

